(** * Insurance quote processor: the risk-assessment pipeline

    A shallow embedding of [quote_engine/risk_utils.py],
    [quote_engine/riskservice.py] and [quote_engine/utils.py], and the
    properties of the risk scorer, the coordinate resolver, the crime data
    client, the orchestrator and the retry wrapper. *)

From Stdlib Require Import ZArith QArith Qminmax Lia Lqa Bool List String Ascii.
From Stdlib Require Import PrimFloat Uint63 Floats Qabs.
From Stdlib Require Import Permutation Qround.
Import ListNotations.

Open Scope string_scope.
Open Scope Q_scope.

(** ** Python numbers

    The scorer mixes [int] and [float] literals.  It is written once over a
    carrier [N] with the operations it uses; the carrier is instantiated with
    IEEE binary64, the numbers Python computes with, and with exact
    rationals, the numbers the formulas of the specification are about.  The
    part on binary64 against exact arithmetic relates the two. *)

Class PyNum (N : Type) : Type := {
  lit : Q -> N;            (* a numeric literal of the source *)
  add : N -> N -> N;       (* a + b *)
  mul : N -> N -> N;       (* a * b *)
  div : N -> N -> N;       (* a / b, true division *)
  ltb : N -> N -> bool     (* a < b *)
}.

(** [min(a, b)] keeps its first argument unless the second is smaller. *)
Definition py_min {N} `{PyNum N} (a b : N) : N := if ltb b a then b else a.

#[export] Instance PyNum_Q : PyNum Q := {
  lit q := q;
  add := Qplus;
  mul := Qmult;
  div := Qdiv;
  ltb a b := negb (Qle_bool b a)
}.

Definition float_of_Z (z : Z) : float :=
  match z with
  | Z0 => PrimFloat.of_uint63 0%uint63
  | Zpos _ => PrimFloat.of_uint63 (Uint63.of_Z z)
  | Zneg p => PrimFloat.opp (PrimFloat.of_uint63 (Uint63.of_Z (Zpos p)))
  end.

(** A literal [n/d] with small [n] and [d] is read as the binary64 nearest
    to it: the correctly rounded quotient of two exact integers. *)
#[export] Instance PyNum_float : PyNum float := {
  lit q := PrimFloat.div (float_of_Z (Qnum q)) (float_of_Z (Zpos (Qden q)));
  add := PrimFloat.add;
  mul := PrimFloat.mul;
  div := PrimFloat.div;
  ltb := PrimFloat.ltb
}.

(** ** Time stamps ([datetime.strptime(date_part, '%Y-%m-%d')]) *)

(** [timestamp.split(' ')[0]] *)
Fixpoint before_space (s : string) : string :=
  match s with
  | EmptyString => EmptyString
  | String c r => if Ascii.eqb c " " then EmptyString else String c (before_space r)
  end.

Fixpoint split_dash (s : string) : list string :=
  match s with
  | EmptyString => [EmptyString]
  | String c r =>
      if Ascii.eqb c "-" then EmptyString :: split_dash r
      else match split_dash r with
           | [] => [String c EmptyString]
           | f :: fs => String c f :: fs
           end
  end.

Definition digit_of (c : ascii) : option Z :=
  let n := nat_of_ascii c in
  if (48 <=? n)%nat && (n <=? 57)%nat then Some (Z.of_nat (n - 48)) else None.

(** The value of a string of decimal digits; [None] when a character is
    not a digit. *)
Fixpoint digits_value (acc : Z) (s : string) : option Z :=
  match s with
  | EmptyString => Some acc
  | String c r =>
      match digit_of c with
      | Some d => digits_value (10 * acc + d)%Z r
      | None => None
      end
  end.

Definition is_leap (y : Z) : bool :=
  ((y mod 4 =? 0) && (negb (y mod 100 =? 0) || (y mod 400 =? 0)))%Z.

Definition days_in_month (y m : Z) : Z :=
  if (m =? 2)%Z then (if is_leap y then 29 else 28)%Z
  else if ((m =? 4) || (m =? 6) || (m =? 9) || (m =? 11))%Z then 30%Z
  else 31%Z.

(** A month of a year: what [strftime('%Y-%m')] prints. *)
Record YearMonth : Type := { ym_year : Z; ym_month : Z }.

(** [%Y] is four digits, [%m] and [%d] one or two; the whole string must be
    consumed and the date must exist.  [None] is [ValueError]. *)
Definition strptime_ymd (date_part : string) : option (Z * Z * Z) :=
  match split_dash date_part with
  | [ys; ms; ds] =>
      if ((String.length ys =? 4) &&
          (1 <=? String.length ms) && (String.length ms <=? 2) &&
          (1 <=? String.length ds) && (String.length ds <=? 2))%nat
      then
        match digits_value 0 ys, digits_value 0 ms, digits_value 0 ds with
        | Some y, Some m, Some d =>
            if ((1 <=? y) && (1 <=? m) && (m <=? 12) &&
                (1 <=? d) && (d <=? days_in_month y m))%Z
            then Some (y, m, d) else None
        | _, _, _ => None
        end
      else None
  | _ => None
  end.

Definition normalize_timestamp (timestamp : string) : option YearMonth :=
  match strptime_ymd (before_space timestamp) with
  | Some (y, m, _) => Some {| ym_year := y; ym_month := m |}
  | None => None
  end.

Definition ym_eqb (a b : YearMonth) : bool :=
  ((ym_year a =? ym_year b) && (ym_month a =? ym_month b))%Z.

(** ** Postcodes ([risk_postcode.replace(" ", "").upper()]) *)

Definition upper_ascii (c : ascii) : ascii :=
  let n := nat_of_ascii c in
  if (97 <=? n)%nat && (n <=? 122)%nat then ascii_of_nat (n - 32) else c.

Fixpoint normalize_postcode (s : string) : string :=
  match s with
  | EmptyString => EmptyString
  | String c r =>
      if Ascii.eqb c " " then normalize_postcode r
      else String (upper_ascii c) (normalize_postcode r)
  end.

(** ** Exceptions and results *)

Inductive exc_class : Type :=
| ValueError
| ConnectionError
| TypeError
| RequestException.     (* requests.RequestException and its subclasses *)

(** The message of an exception, as the template that the source formats.
    Those with an [inner] message are f-strings that end in [{e}], the
    text of the exception being handled. *)
Inductive message : Type :=
| MsgInvalidInput                                  (* 'Invalid input data provided' *)
| MsgNoLocation (postcode : string) (status : Z)   (* 'Could not get location for postcode ..' *)
| MsgLocationNetwork (postcode : string)           (* 'Error retrieving location for postcode ..' *)
| MsgNoCrimes (date : YearMonth) (long lat : Q) (status : Z)
                                                   (* 'Could not get crimes for date ..' *)
| MsgStrptime                                      (* 'time data .. does not match format ..' *)
| MsgInvalidDate (timestamp : string)              (* 'Invalid date format .., should be YYYY-MM' *)
| MsgCrimeNetwork (lat long : Q)                   (* 'Error retrieving crime data for location ..' *)
| MsgFloodNetwork (lat long : Q)                   (* 'Error fetching flood data for location ..' *)
| MsgCrimeUnexpected (lat long : Q) (inner : message)
                                                   (* 'Unexpected error occured when retrieving crimes ..: {e}' *)
| MsgFloodUnexpected (inner : message)             (* 'Unexpected error occured when retrieving flood data: {e}' *)
| MsgTransport                                     (* the text of a requests exception *)
| MsgNotIterable                                   (* "'NoneType' object is not iterable" *)
| MsgCannotUnpack                                  (* 'cannot unpack non-iterable .. object' *)
| MsgUnbound (var : string)                        (* 'cannot access local variable ..' *)
| MsgFloodRisk (inner : message)                   (* 'Error calculating flood risk: {e}' *)
| MsgLocationRisks (inner : message)               (* 'Error calculating location risks for postcode: {e}' *)
| MsgRiskType (inner : message).                   (* 'Error calculating risk type: {e}' *)

Record exn : Type := Exn { exn_class : exc_class; exn_msg : message }.

Inductive result (A : Type) : Type :=
| Ok (a : A)
| Raise (e : exn).
Arguments Ok {A} a.
Arguments Raise {A} e.

(** ** Data model *)

(** A crime record as the scorer reads it: [crime.get('category')] is
    [None] when the key is absent or its value is null. *)
Record CrimeRecord : Type := { category : option string }.

(** A flood item: [severityLevel] and [isTidal] may be absent. *)
Record FloodItem : Type := {
  severityLevel : option Z;
  isTidal : option bool
}.

(** The flood service's response body; [flood_data.get('items')]. *)
Record FloodData : Type := { items : option (list FloodItem) }.

(** [d.get(k, default)] on a dict with string keys. *)
Fixpoint dict_get {V : Type} (d : list (string * V)) (k : string) (default : V) : V :=
  match d with
  | [] => default
  | (k', v) :: d' => if String.eqb k' k then v else dict_get d' k default
  end.

(** Truth value of a [str]. *)
Definition str_truthy (s : string) : bool :=
  match s with EmptyString => false | _ => true end.

(** ** Risk scorer ([risk_utils.py]) *)

Section Scorer.
Context {N : Type} `{PyNum N}.

Definition CRIME_MULTIPLIERS : list (string * N) :=
  [ ("BEAUTY", lit 1.0); ("HOME", lit 1.5); ("COMMERCIAL", lit 2) ].

Definition MAXIMUM_CRIME_RISK : N := lit 100.

Definition CRIME_WEIGHTS : list (string * N) :=
  [ ("anti-social-behaviour", lit 1);
    ("bicycle-theft", lit 1);
    ("burglary", lit 3);
    ("criminal-damage-arson", lit 4);
    ("drugs", lit 1.5);
    ("other-crime", lit 1);
    ("other-theft", lit 2);
    ("possession-of-weapons", lit 4);
    ("public-order", lit 2);
    ("robbery", lit 3);
    ("shoplifting", lit 2);
    ("theft-from-the-person", lit 2);
    ("vehicle-crime", lit 2);
    ("violent-crime", lit 4) ].

(** One turn of [for crime in crime_data]. *)
Definition crime_step (crime_risk : N) (crime : CrimeRecord) : N :=
  match category crime with
  | Some c =>
      if str_truthy c
      then add crime_risk (dict_get CRIME_WEIGHTS c (lit 1))
      else crime_risk
  | None => crime_risk
  end.

Definition crime_loop (crime_data : list CrimeRecord) : N :=
  fold_left crime_step crime_data (lit 0).

(** On records of this shape nothing in the [try] block can raise. *)
Definition calculate_crime_risk (crime_data : list CrimeRecord)
    (product_type : string) : result N :=
  let crime_risk := crime_loop crime_data in
  let crime_risk := mul crime_risk (dict_get CRIME_MULTIPLIERS product_type (lit 1)) in
  let normalized_crime_risk :=
    mul (py_min (div crime_risk MAXIMUM_CRIME_RISK) (lit 1)) (lit 100) in
  Ok normalized_crime_risk.

Definition FLOOD_MULTIPLIERS : list (string * N) :=
  [ ("BEAUTY", lit 1.0); ("COMMERCIAL", lit 1.5); ("HOME", lit 2) ].

Definition MAX_FLOOD_RISK : N := lit 200.

Definition severity_score (severity : Z) : N :=
  if (severity =? 1)%Z then lit 20
  else if (severity =? 2)%Z then lit 15
  else if (severity =? 3)%Z then lit 10
  else lit 0.

(** One turn of [for flood in flood_data.get('items')]. *)
Definition flood_step (flood_risk : N) (flood : FloodItem) : N :=
  let severity := match severityLevel flood with Some l => l | None => 4%Z end in
  let tidal := match isTidal flood with Some b => b | None => false end in
  let score := severity_score severity in
  let score := if tidal then add score (lit 10) else score in
  add flood_risk score.

Definition flood_loop (flood_items : list FloodItem) : N :=
  fold_left flood_step flood_items (lit 0).

Definition calculate_flood_risk (flood_data : FloodData)
    (product_type : string) : result N :=
  match items flood_data with
  | None =>
      (* iterating None: TypeError, handled by the except clause *)
      Raise (Exn ValueError (MsgFloodRisk MsgNotIterable))
  | Some flood_items =>
      let flood_risk := flood_loop flood_items in
      let flood_risk := mul flood_risk (dict_get FLOOD_MULTIPLIERS product_type (lit 1)) in
      let normalized_flood_risk :=
        mul (py_min (div flood_risk MAX_FLOOD_RISK) (lit 1)) (lit 100) in
      Ok normalized_flood_risk
  end.

(** ** Risk category ([RiskService.risk_type]) *)

(** [risk_value] is bound on two of the three branches; reading it unbound
    raises [UnboundLocalError], which the handler turns into [ValueError]. *)
Definition risk_type (flood_risk crime_risk : N) : result string :=
  let total_risk := add flood_risk crime_risk in
  let risk_value :=
    if ltb (lit 100) total_risk then Some "HIGH_VALUE_RISK"
    else if ltb total_risk (lit 100) then Some "STANDARD_VALUE_RISK"
    else None in
  match risk_value with
  | Some v => Ok v
  | None => Raise (Exn ValueError (MsgRiskType (MsgUnbound "risk_value")))
  end.

End Scorer.

(** [RiskService.quote_validity]; [None] is Python's None. *)
Definition quote_validity (risk_value : string) : option Z :=
  if String.eqb risk_value "HIGH_VALUE_RISK" then Some 7%Z
  else if String.eqb risk_value "STANDARD_VALUE_RISK" then Some 14%Z
  else None.

(** ** The cache

    Django's cache API: [cache.get(key, default=None, version=None)] and
    [cache.set(key, value, timeout, version=None)].  An entry lives in the
    slot of its key and version ([make_key]); a call without a version uses
    the configured one.  [set] with timeout [t] makes the entry expire at
    [time() + t] (a timeout of 0 expires at once); an entry is served while
    [time()] is before its expiry. *)

Section Cache.
Context {K V : Type} (key_eqb : K -> K -> bool).

Record cache_entry : Type := {
  ce_version : Z;
  ce_key : K;
  ce_value : V;
  ce_expiry : Q
}.

Definition store : Type := list cache_entry.

Definition same_slot (version : Z) (key : K) (e : cache_entry) : bool :=
  (ce_version e =? version)%Z && key_eqb (ce_key e) key.

Fixpoint cache_get (c : store) (time : Q) (version : Z) (key : K) : option V :=
  match c with
  | [] => None
  | e :: c' =>
      if same_slot version key e
      then (if Qle_bool (ce_expiry e) time then None else Some (ce_value e))
      else cache_get c' time version key
  end.

Definition cache_set (c : store) (time : Q) (key : K) (value : V)
    (timeout : Q) (version : Z) : store :=
  let timeout := if Qeq_bool timeout 0 then -1 else timeout in
  {| ce_version := version; ce_key := key; ce_value := value;
     ce_expiry := time + timeout |}
  :: filter (fun e => negb (same_slot version key e)) c.
End Cache.

Arguments cache_entry : clear implicits.
Arguments store : clear implicits.

Definition CACHE_TIMEOUT : Z := 60 * 60 * 24.

(** ** The outside world: upstream services, cache contents, clock *)

Inductive request : Type :=
| GetPostcode (risk_postcode : string)        (* api.postcodes.io/postcodes/{risk_postcode} *)
| GetCrimes (date : YearMonth) (lat long : Q) (* data.police.uk/api/crimes-at-location *)
| GetFloods (lat long : Q) (dist : Z).        (* environment.data.gov.uk/flood-monitoring/id/floods *)

(** What [requests.get(url, timeout=5)] does: it raises a
    [RequestException] (connection error, timeout) or returns a response. *)
Inductive reply (A : Type) : Type :=
| NetFailure
| Response (status_code : Z) (json : A).
Arguments NetFailure {A}.
Arguments Response {A} status_code json.

(** [data['result']] of a postcode lookup; a field may be missing. *)
Record PostcodeBody : Type := {
  result_latitude : option Q;
  result_longitude : option Q
}.

(** The three services; the first argument counts the calls made so far,
    so that a service may answer differently from one call to the next. *)
Record upstream : Type := {
  postcodes_io : nat -> string -> reply PostcodeBody;
  police_uk : nat -> YearMonth -> Q -> Q -> reply (list CrimeRecord);
  flood_monitoring : nat -> Q -> Q -> Z -> reply FloodData
}.

Definition crimes_key : Type := YearMonth * Q * Q.   (* f'crimes_{date}_{long}_{lat}' *)
Definition floods_key : Type := Q * Q * Z.           (* f'flood_risk_{lat}_{long}_{dist}' *)

Definition crimes_key_eqb (a b : crimes_key) : bool :=
  let '(d1, x1, y1) := a in
  let '(d2, x2, y2) := b in
  ym_eqb d1 d2 && Qeq_bool x1 x2 && Qeq_bool y1 y2.

Definition floods_key_eqb (a b : floods_key) : bool :=
  let '(x1, y1, d1) := a in
  let '(x2, y2, d2) := b in
  Qeq_bool x1 x2 && Qeq_bool y1 y2 && (d1 =? d2)%Z.

(** The cache holds three families of keys, told apart by their prefix
    ('postcode_cordinates_', 'crimes_', 'flood_risk_').  [requests] lists
    the network calls made, the latest first. *)
Record world : Type := {
  cache_postcodes : store string Q;
  cache_crimes : store crimes_key (list CrimeRecord);
  cache_floods : store floods_key FloodData;
  now : Q;
  requests : list request
}.

Definition empty_world : world :=
  {| cache_postcodes := []; cache_crimes := []; cache_floods := [];
     now := 0; requests := [] |}.

(** Time passes between two calls. *)
Definition elapse (dt : Q) (w : world) : world :=
  {| cache_postcodes := cache_postcodes w; cache_crimes := cache_crimes w;
     cache_floods := cache_floods w; now := now w + dt; requests := requests w |}.

Definition sent (r : request) (w : world) : world :=
  {| cache_postcodes := cache_postcodes w; cache_crimes := cache_crimes w;
     cache_floods := cache_floods w; now := now w; requests := r :: requests w |}.

Definition with_postcodes (c : store string Q) (w : world) : world :=
  {| cache_postcodes := c; cache_crimes := cache_crimes w;
     cache_floods := cache_floods w; now := now w; requests := requests w |}.

Definition with_crimes (c : store crimes_key (list CrimeRecord)) (w : world) : world :=
  {| cache_postcodes := cache_postcodes w; cache_crimes := c;
     cache_floods := cache_floods w; now := now w; requests := requests w |}.

Definition with_floods (c : store floods_key FloodData) (w : world) : world :=
  {| cache_postcodes := cache_postcodes w; cache_crimes := cache_crimes w;
     cache_floods := c; now := now w; requests := requests w |}.

(** Computations that read and change the world and may raise. *)
Definition M (A : Type) : Type := world -> result A * world.

Definition ret {A} (a : A) : M A := fun w => (Ok a, w).
Definition raise {A} (e : exn) : M A := fun w => (Raise e, w).
Definition bind {A B} (c : M A) (k : A -> M B) : M B :=
  fun w => match c w with
           | (Ok a, w') => k a w'
           | (Raise e, w') => (Raise e, w')
           end.
(** [try: c except Exception as e: h e] *)
Definition try_except {A} (c : M A) (h : exn -> M A) : M A :=
  fun w => match c w with
           | (Ok a, w') => (Ok a, w')
           | (Raise e, w') => h e w'
           end.
Definition lift {A} (r : result A) : M A := fun w => (r, w).

Notation "x <- c ;; k" := (bind c (fun x => k))
  (at level 61, c at next level, right associativity).

(** ** Clients and orchestrator ([risk_utils.py], [riskservice.py]) *)

(** What [get_long_lat] hands back: nothing (it falls off the end), the
    cached value, which is a bare number, or the pair it has just fetched. *)
Inductive coords : Type :=
| NoCoords
| BareNumber (x : Q)
| LatLong (latitude longitude : Q).

Section Pipeline.
Variable net : upstream.
(** The cache's configured version (Django's default is 1). *)
Variable VERSION : Z.

Definition cache_lookup {K V} (eqb : K -> K -> bool)
    (sel : world -> store K V) (key : K) : M (option V) :=
  fun w => (Ok (cache_get eqb (sel w) (now w) VERSION key), w).

(** [requests.get] on each of the three endpoints. *)
Definition requests_get {A} (r : request) (service : nat -> reply A) : M (Z * A) :=
  fun w =>
    match service (List.length (requests w)) with
    | NetFailure => (Raise (Exn RequestException MsgTransport), sent r w)
    | Response status_code json => (Ok (status_code, json), sent r w)
    end.

(** The rest of the [try] block of [get_long_lat] after a cache miss.
    The call to [cache.set] passes four positional arguments: the key, the
    latitude as the value, the longitude as the timeout and
    [CACHE_TIMEOUT] as the version. *)
Definition get_long_lat_miss (risk_postcode cache_key : string) : M coords :=
  response <- requests_get (GetPostcode risk_postcode)
                (fun n => postcodes_io net n risk_postcode) ;;
  let '(status_code, data) := response in
  if (status_code =? 200)%Z then
    match result_longitude data, result_latitude data with
    | Some longitude, Some latitude =>
        fun w =>
          (Ok (LatLong latitude longitude),
           with_postcodes
             (cache_set String.eqb (cache_postcodes w) (now w)
                cache_key latitude longitude CACHE_TIMEOUT) w)
    | _, _ => ret NoCoords
    end
  else raise (Exn ValueError (MsgNoLocation risk_postcode status_code)).

Definition get_long_lat_try (risk_postcode : string) : M coords :=
  let normalized_postcode := normalize_postcode risk_postcode in
  let cache_key := normalized_postcode in
  cached_coords <- cache_lookup String.eqb cache_postcodes cache_key ;;
  match cached_coords with
  | Some v =>
      if negb (Qeq_bool v 0) then ret (BareNumber v)
      else get_long_lat_miss risk_postcode cache_key
  | None => get_long_lat_miss risk_postcode cache_key
  end.

Definition get_long_lat (risk_postcode : string) : M coords :=
  try_except (get_long_lat_try risk_postcode)
    (fun e =>
       match exn_class e with
       | RequestException =>
           raise (Exn ConnectionError (MsgLocationNetwork risk_postcode))
       | _ => raise e
       end).

Definition get_crimes_try (timestamp : string) (lat long : Q)
    : M (list CrimeRecord) :=
  match normalize_timestamp timestamp with
  | None => raise (Exn ValueError MsgStrptime)
  | Some normalized_date =>
      let cache_key := (normalized_date, long, lat) in
      cached_crimes <- cache_lookup crimes_key_eqb cache_crimes cache_key ;;
      match cached_crimes with
      | Some (c :: cs) => ret (c :: cs)
      | _ =>
          response <- requests_get (GetCrimes normalized_date lat long)
                        (fun n => police_uk net n normalized_date lat long) ;;
          let '(status_code, data) := response in
          if (status_code =? 200)%Z then
            fun w =>
              (Ok data,
               with_crimes
                 (cache_set crimes_key_eqb (cache_crimes w) (now w)
                    cache_key data (inject_Z CACHE_TIMEOUT) VERSION) w)
          else raise (Exn ValueError
                        (MsgNoCrimes normalized_date long lat status_code))
      end
  end.

Definition get_crimes_for_location (timestamp : string) (lat long : Q)
    : M (list CrimeRecord) :=
  try_except (get_crimes_try timestamp lat long)
    (fun e =>
       match exn_class e with
       | RequestException =>
           raise (Exn ConnectionError (MsgCrimeNetwork lat long))
       | ValueError =>
           raise (Exn ValueError (MsgInvalidDate timestamp))
       | _ =>
           raise (Exn ValueError (MsgCrimeUnexpected lat long (exn_msg e)))
       end).

(** A dict is true when it has a key; the flood body has at most 'items'. *)
Definition flood_truthy (d : FloodData) : bool :=
  match items d with Some _ => true | None => false end.

Definition get_flood_miss (lat long : Q) (dist : Z) (cache_key : floods_key)
    : M FloodData :=
  response <- requests_get (GetFloods lat long dist)
                (fun n => flood_monitoring net n lat long dist) ;;
  let '(status_code, data) := response in
  (* response.raise_for_status() *)
  if ((400 <=? status_code) && (status_code <? 600))%Z
  then raise (Exn RequestException MsgTransport)
  else
    fun w =>
      (Ok data,
       with_floods
         (cache_set floods_key_eqb (cache_floods w) (now w)
            cache_key data (inject_Z CACHE_TIMEOUT) VERSION) w).

Definition get_flood_try (lat long : Q) (dist : Z) : M FloodData :=
  let cache_key := (lat, long, dist) in
  cached_coords <- cache_lookup floods_key_eqb cache_floods cache_key ;;
  match cached_coords with
  | Some d =>
      if flood_truthy d then ret d
      else get_flood_miss lat long dist cache_key
  | None => get_flood_miss lat long dist cache_key
  end.

Definition get_flood_data_for_location (lat long : Q) (dist : Z)
    : M FloodData :=
  try_except (get_flood_try lat long dist)
    (fun e =>
       match exn_class e with
       | RequestException =>
           raise (Exn ConnectionError (MsgFloodNetwork lat long))
       | _ => raise (Exn ValueError (MsgFloodUnexpected (exn_msg e)))
       end).

Record location_risks : Type := {
  flood_risk : Q;
  crime_risk : Q
}.

(** [RiskService.calculate_location_risks].  The flood score is given the
    request's product type; the crime score is given the literal 'HOME'. *)
Definition calculate_location_risks (postcode product_type timestamp : string)
    : M location_risks :=
  if negb (str_truthy postcode) || negb (str_truthy product_type)
     || negb (str_truthy timestamp)
  then raise (Exn ValueError MsgInvalidInput)
  else
    try_except
      (unpacked <- get_long_lat postcode ;;
       match unpacked with
       | LatLong latitude longitude =>
           flood_data <- get_flood_data_for_location latitude longitude 50 ;;
           flood <- lift (calculate_flood_risk flood_data product_type) ;;
           crime_data <- get_crimes_for_location timestamp latitude longitude ;;
           crime <- lift (calculate_crime_risk crime_data "HOME") ;;
           ret {| flood_risk := flood; crime_risk := crime |}
       | _ => raise (Exn TypeError MsgCannotUnpack)
       end)
      (fun e => raise (Exn ValueError (MsgLocationRisks (exn_msg e)))).

End Pipeline.

(** ** Retry wrapper ([utils.log_api_call]) *)

Section Retry.
(** The state the wrapped view works on, its responses and its errors. *)
Context {St Resp Err : Type}.
(** The wrapped function: one call either raises or returns a response. *)
Variable func : St -> (Err + Resp) * St.
(** Writing the audit record; a failure to write is logged and dropped,
    so all that is left of it is a change of state. *)
Variable log_call : Resp -> St -> St.

Variables max_retries backoff_factor : Z.

Inductive outcome : Type :=
| Returned (response : option Resp)   (* [None]: the loop ended without a return *)
| Raised (e : Err)                    (* the bare [raise] in the handler *)
| SleepRefused.                       (* [time.sleep] of a negative number: ValueError *)

(** What a run leaves behind: the result of each call of [func] in order,
    and the arguments of the calls of [time.sleep] in order. *)
Record run : Type := {
  run_outcome : outcome;
  run_state : St;
  run_attempts : list (Err + Resp);
  run_sleeps : list Z
}.

Definition attempted (a : Err + Resp) (r : run) : run :=
  {| run_outcome := run_outcome r; run_state := run_state r;
     run_attempts := a :: run_attempts r; run_sleeps := run_sleeps r |}.

Definition slept (t : Z) (r : run) : run :=
  {| run_outcome := run_outcome r; run_state := run_state r;
     run_attempts := run_attempts r; run_sleeps := t :: run_sleeps r |}.

Definition finished (o : outcome) (s : St) : run :=
  {| run_outcome := o; run_state := s; run_attempts := []; run_sleeps := [] |}.

(** [while attempt < max_retries: ...]; [fuel] bounds the number of turns,
    [None] is running out of it. *)
Fixpoint retry_loop (fuel : nat) (attempt wait_time : Z) (s : St) : option run :=
  match fuel with
  | O => None
  | S fuel' =>
      if (attempt <? max_retries)%Z then
        match func s with
        | (inr response, s') =>
            Some (attempted (inr response)
                    (finished (Returned (Some response)) (log_call response s')))
        | (inl e, s') =>
            let attempt := (attempt + 1)%Z in
            if (attempt >=? max_retries)%Z
            then Some (attempted (inl e) (finished (Raised e) s'))
            else if (wait_time <? 0)%Z
            then Some (attempted (inl e) (slept wait_time (finished SleepRefused s')))
            else
              match retry_loop fuel' attempt (wait_time * backoff_factor)%Z s' with
              | Some r => Some (attempted (inl e) (slept wait_time r))
              | None => None
              end
        end
      else Some (finished (Returned None) s)
  end.

Definition wrapper (s : St) : option run :=
  retry_loop (S (Z.to_nat max_retries)) 0 1 s.

End Retry.

Arguments outcome : clear implicits.
Arguments run : clear implicits.

(** * Specifications and sample data *)

(** ** The scorer as the specification words it *)

(** Product multipliers for crime: BEAUTY 1.0, HOME 1.5, COMMERCIAL 2.0,
    any other product type 1.0. *)
Definition spec_crime_multiplier (product_type : string) : Q :=
  if String.eqb product_type "BEAUTY" then 1.0
  else if String.eqb product_type "HOME" then 1.5
  else if String.eqb product_type "COMMERCIAL" then 2.0
  else 1.0.

(** Product multipliers for flood: BEAUTY 1.0, COMMERCIAL 1.5, HOME 2.0,
    any other product type 1.0. *)
Definition spec_flood_multiplier (product_type : string) : Q :=
  if String.eqb product_type "BEAUTY" then 1.0
  else if String.eqb product_type "COMMERCIAL" then 1.5
  else if String.eqb product_type "HOME" then 2.0
  else 1.0.

Definition Qsum (l : list Q) : Q := fold_right Qplus 0 l.

(** The weight of a category string: its entry in the fixed table of the
    14 named categories, and 1 for a string that the table does not name. *)
Definition spec_category_weight (c : string) : Q :=
  dict_get (CRIME_WEIGHTS (N:=Q)) c 1.

(** The crime score of the records with the given category strings, when
    every string outside the table weighs 1. *)
Definition spec_crime_score (categories : list string) (product_type : string) : Q :=
  let S := Qsum (map spec_category_weight categories)
           * spec_crime_multiplier product_type in
  Qmin (S / 100) 1 * 100.

(** What a record adds to the sum in the code: nothing when its category
    is absent, null or the empty string. *)
Definition record_weight (r : CrimeRecord) : Q :=
  match category r with
  | None => 0
  | Some EmptyString => 0
  | Some c => spec_category_weight c
  end.

Definition crime_score (crime_data : list CrimeRecord) (product_type : string) : Q :=
  let S := Qsum (map record_weight crime_data)
           * spec_crime_multiplier product_type in
  Qmin (S / 100) 1 * 100.

(** Severity: level 1 scores 20, level 2 15, level 3 10, any other or a
    missing level 0; a tidal item scores 10 more. *)
Definition spec_item_score (f : FloodItem) : Q :=
  (match severityLevel f with
   | Some 1%Z => 20
   | Some 2%Z => 15
   | Some 3%Z => 10
   | _ => 0
   end)
  + (match isTidal f with Some true => 10 | _ => 0 end).

Definition spec_flood_score (flood_items : list FloodItem) (product_type : string) : Q :=
  let S := Qsum (map spec_item_score flood_items)
           * spec_flood_multiplier product_type in
  Qmin (S / 200) 1 * 100.

Definition record_of_category (c : string) : CrimeRecord := {| category := Some c |}.

(** ** Sample data, upstreams and runs *)

(** The two documented scoring scenarios. *)
Definition burglary_drugs : list CrimeRecord :=
  [ {| category := Some "burglary" |}; {| category := Some "drugs" |} ].

Definition severe_tidal : FloodData :=
  {| items := Some [ {| severityLevel := Some 1%Z; isTidal := Some true |} ] |}.

(** An upstream that knows one postcode, reports one burglary there and no
    flood. *)
Definition palace_latitude : Q := 51.501009.
Definition palace_longitude : Q := -0.141588.

Definition sample_upstream : upstream :=
  {| postcodes_io := fun _ _ =>
       Response 200 {| result_latitude := Some palace_latitude;
                       result_longitude := Some palace_longitude |};
     police_uk := fun _ _ _ _ =>
       Response 200 [ {| category := Some "burglary" |} ];
     flood_monitoring := fun _ _ _ _ =>
       Response 200 {| items := Some [] |} |}.

(** Two resolutions of one postcode, [dt] seconds apart: both results and
    the network calls made in all. *)
Definition resolve_twice (net : upstream) (VERSION : Z) (risk_postcode : string)
    (dt : Q) (w : world) : result coords * result coords * list request :=
  let '(first, w1) := get_long_lat net VERSION risk_postcode w in
  let '(second, w2) := get_long_lat net VERSION risk_postcode (elapse dt w1) in
  (first, second, requests w2).

(** Whether the cache serves the postcode: an entry that is alive, in the
    slot of the configured version, with a value that is true. *)
Definition postcode_hit (VERSION : Z) (risk_postcode : string) (w : world) : bool :=
  match cache_get String.eqb (cache_postcodes w) (now w) VERSION
          (normalize_postcode risk_postcode) with
  | Some v => negb (Qeq_bool v 0)
  | None => false
  end.

(** With the cache configured at version 86400 and a postcode east of
    Greenwich, the entry is found while it lives (its longitude in seconds),
    and what comes back is the latitude alone. *)
Definition norwich_upstream : upstream :=
  {| postcodes_io := fun _ _ =>
       Response 200 {| result_latitude := Some 52.63; result_longitude := Some 1.3 |};
     police_uk := fun _ _ _ _ => Response 200 [];
     flood_monitoring := fun _ _ _ _ => Response 200 {| items := Some [] |} |}.

Definition no_longitude_upstream : upstream :=
  {| postcodes_io := fun _ _ =>
       Response 200 {| result_latitude := Some 49.2; result_longitude := None |};
     police_uk := fun _ _ _ _ => Response 200 [];
     flood_monitoring := fun _ _ _ _ => Response 200 {| items := Some [] |} |}.

(** Whether the cache serves the crimes of a month at a place: a live
    entry with a list that is not empty. *)
Definition crimes_hit (VERSION : Z) (d : YearMonth) (lat long : Q) (w : world) : bool :=
  match cache_get crimes_key_eqb (cache_crimes w) (now w) VERSION (d, long, lat) with
  | Some (_ :: _) => true
  | _ => false
  end.

Definition failing_police_upstream : upstream :=
  {| postcodes_io := postcodes_io sample_upstream;
     police_uk := fun _ _ _ _ => Response 500 [];
     flood_monitoring := flood_monitoring sample_upstream |}.

(** The waits of a run that starts at [wait_time]: each is the one before
    it times the backoff factor. *)
Fixpoint backoff_schedule (backoff_factor wait_time : Z) (n : nat) : list Z :=
  match n with
  | O => []
  | S n' => wait_time :: backoff_schedule backoff_factor (wait_time * backoff_factor) n'
  end.

Definition Zsum (l : list Z) : Z := fold_right Z.add 0%Z l.

(** How a run ends, with [budget] attempts left to it: on a response,
    after failures that were each followed by a wait; or on the error of
    its last attempt, once the budget is used up, the earlier failures
    having each been followed by a wait. *)
Definition run_ends_well {St Resp Err : Type} (budget : Z) (r : run St Resp Err) : Prop :=
  match run_outcome r with
  | Returned (Some response) =>
      exists errs, run_attempts r = (map inl errs ++ [inr response])%list
                   /\ List.length (run_sleeps r) = List.length errs
  | Returned None =>
      run_attempts r = [] /\ run_sleeps r = [] /\ (budget <= 0)%Z
  | Raised e =>
      exists errs, run_attempts r = (map inl errs ++ [inl e])%list
                   /\ List.length (run_sleeps r) = List.length errs
                   /\ Z.of_nat (List.length (run_attempts r)) = budget
  | SleepRefused => False
  end.

(** A view that always fails. *)
Definition failing_view (calls : nat) : (string + string) * nat :=
  (inl "timeout", S calls).

(** A view that times out twice and then answers; its state counts the
    calls. *)
Definition flaky_view (calls : nat) : (string + string) * nat :=
  if (calls <? 2)%nat then (inl "timeout", S calls) else (inr "200 OK", S calls).

(** * Further definitions *)

(** Whether the cache serves the floods around a place: a live entry with
    a body that is true. *)
Definition floods_hit (VERSION : Z) (lat long : Q) (dist : Z) (w : world) : bool :=
  match cache_get floods_key_eqb (cache_floods w) (now w) VERSION (lat, long, dist) with
  | Some d => flood_truthy d
  | None => false
  end.

(** Thirty assaults: 120 weight units before the product multiplier. *)
Definition thirty_assaults : list CrimeRecord :=
  repeat {| category := Some "violent-crime" |} 30.

(** An upstream whose flood service reports one severe tidal flood. *)
Definition flooded_upstream : upstream :=
  {| postcodes_io := postcodes_io sample_upstream;
     police_uk := police_uk sample_upstream;
     flood_monitoring := fun _ _ _ _ => Response 200 severe_tidal |}.

(** An upstream whose services all answer 503. *)
Definition unavailable_upstream : upstream :=
  {| postcodes_io := fun _ _ =>
       Response 503 {| result_latitude := None; result_longitude := None |};
     police_uk := fun _ _ _ _ => Response 503 [];
     flood_monitoring := fun _ _ _ _ => Response 503 {| items := None |} |}.

(** The log of network calls [l'] is the log [l] with at most [k] calls
    put on top. *)
Definition grows_by (k : nat) (l l' : list request) : Prop :=
  exists calls, l' = (calls ++ l)%list /\ (List.length calls <= k)%nat.

(** ** Return on investment ([risk_utils.calculate_roi])

    The serializer passes the Decimal values of the model's fields (two
    decimal places), on which sums and differences are exact.  The quotient,
    which Decimal keeps to 28 significant digits, is taken exactly here;
    [round(.., 2)] rounds half to even. *)

(** The integer nearest to [x], a tie going to the even one. *)
Definition round_half_even (x : Q) : Z :=
  let f := Qfloor x in
  match Qcompare (x - inject_Z f) (1 # 2) with
  | Lt => f
  | Gt => (f + 1)%Z
  | Eq => if Z.even f then f else (f + 1)%Z
  end.

(** [round(x, 2)] *)
Definition round2 (x : Q) : Q := inject_Z (round_half_even (x * 100)) / 100.

Definition calculate_roi
    (quote_premium broker_commission operational_cost marketing_cost : Q) : Q :=
  let revenue := quote_premium in
  let costs := broker_commission + operational_cost + marketing_cost in
  let net_profit := revenue - costs in
  if Qeq_bool costs 0 then 0
  else
    let roi_percentage := (net_profit / costs) * 100 in
    round2 roi_percentage.

(** ** Quotes ([models.Quote]) and their validation ([QuoteSerializer.validate]) *)

(** The fields of a quote that a client supplies.  Decimal amounts are
    rationals; [timestamp] is the text of the date and time, as
    [str(quote.timestamp)] gives it; [suspicious] may be missing from the
    data to validate. *)
Record Quote : Type := {
  quote_reference : string;
  timestamp : string;
  product_type : string;
  customer_age : Z;
  risk_postcode : string;
  building_value : Q;
  contents_value : Q;
  quote_premium : Q;
  conversion_status : string;
  payment_type : string;
  broker_commission : Q;
  suspicious : option bool
}.

(** The texts of [serializers.ValidationError] raised by [validate]. *)
Inductive validation_error : Type :=
| FieldEmpty (field : string)      (* '{field} cannot be empty' *)
| BuildingNotPositive              (* 'Building value must be positive' *)
| ContentsNotPositive              (* 'Contents value must be positive' *)
| PremiumNotPositive               (* 'Quote premium must be positive' *)
| CommissionNotPositive            (* 'Broker commission must be positive' *)
| HomeBuildingTooHigh              (* '.. cannot be more than 2,000,000 for HOME ..' *)
| HomeContentsTooHigh              (* '.. cannot be more than 150,000 for HOME ..' *)
| HomeAgeOutOfRange                (* 'Customer age must be between 18 and 75 ..' *)
| CommercialBuildingTooLow         (* '.. must be minimum of 100,000' *)
| CommercialBuildingTooHigh        (* '.. must be maximum of 5,000,000' *)
| BeautyNotAnnual                  (* '.. only available with annual payment type' *)
| BeautyPremiumTooLow.             (* '.. must be minimum of 150' *)

(** [for field in data: if data[field] == '']: the first field, in the
    order of the model's fields, whose value is the empty string.  Numbers
    and booleans are never equal to it. *)
Definition first_empty_field (data : Quote) : option string :=
  if String.eqb (quote_reference data) "" then Some "quote_reference"
  else if String.eqb (timestamp data) "" then Some "timestamp"
  else if String.eqb (product_type data) "" then Some "product_type"
  else if String.eqb (risk_postcode data) "" then Some "risk_postcode"
  else if String.eqb (conversion_status data) "" then Some "conversion_status"
  else if String.eqb (payment_type data) "" then Some "payment_type"
  else None.

(** [data['suspicious'] = True] *)
Definition flag_suspicious (data : Quote) : Quote :=
  {| quote_reference := quote_reference data; timestamp := timestamp data;
     product_type := product_type data; customer_age := customer_age data;
     risk_postcode := risk_postcode data; building_value := building_value data;
     contents_value := contents_value data; quote_premium := quote_premium data;
     conversion_status := conversion_status data; payment_type := payment_type data;
     broker_commission := broker_commission data; suspicious := Some true |}.

(** The rules of the three product types; a product type outside them has
    none. *)
Definition product_rules (data : Quote) : option validation_error :=
  if String.eqb (product_type data) "HOME" then
    if negb (Qle_bool (building_value data) 2000000) then Some HomeBuildingTooHigh
    else if negb (Qle_bool (contents_value data) 150000) then Some HomeContentsTooHigh
    else if ((customer_age data <? 18) || (75 <? customer_age data))%Z
    then Some HomeAgeOutOfRange
    else None
  else if String.eqb (product_type data) "COMMERCIAL" then
    if negb (Qle_bool 100000 (building_value data)) then Some CommercialBuildingTooLow
    else if negb (Qle_bool (building_value data) 5000000) then Some CommercialBuildingTooHigh
    else None
  else if String.eqb (product_type data) "BEAUTY" then
    if negb (String.eqb (payment_type data) "ANNUAL") then Some BeautyNotAnnual
    else if negb (Qle_bool 150 (quote_premium data)) then Some BeautyPremiumTooLow
    else None
  else None.

Definition suspicion_threshold : Z := 3.

(** [QuoteSerializer.validate].  [quote_count] is what the query for the
    quotes of the same postcode with a time stamp in the last hour counts. *)
Definition validate (quote_count : Z) (data : Quote) : validation_error + Quote :=
  match first_empty_field data with
  | Some field => inl (FieldEmpty field)
  | None =>
      if Qle_bool (building_value data) 0 then inl BuildingNotPositive
      else if Qle_bool (contents_value data) 0 then inl ContentsNotPositive
      else if Qle_bool (quote_premium data) 0 then inl PremiumNotPositive
      else if Qle_bool (broker_commission data) 0 then inl CommissionNotPositive
      else
        match product_rules data with
        | Some e => inl e
        | None =>
            if (quote_count >=? suspicion_threshold)%Z
            then inr (flag_suspicious data)
            else inr data
        end
  end.

(** [QuoteSerializer.get_roi]: the ROI with the default operational and
    marketing costs. *)
Definition get_roi (obj : Quote) : Q :=
  calculate_roi (quote_premium obj) (broker_commission obj) 15 25.

(** ** The quote view ([views.getQuote]) *)

(** [Quote.objects.get(quote_reference=..)]: the one stored quote with the
    reference; none is DoesNotExist, several MultipleObjectsReturned. *)
Inductive lookup : Type :=
| DoesNotExist
| Found (quote : Quote)
| MultipleObjectsReturned.

Definition objects_get (stored : list Quote) (reference : string) : lookup :=
  match filter (fun q => String.eqb (quote_reference q) reference) stored with
  | [] => DoesNotExist
  | [quote] => Found quote
  | _ => MultipleObjectsReturned
  end.

(** The body of a response: an error text, or the quote with the computed
    fields of the serializer's context and its ROI. *)
Inductive body : Type :=
| ErrorBody (text : string)
| QuoteBody (quote : Quote) (location_risk : location_risks)
    (category : string) (validity : option Z) (roi : Q).

Record view_response : Type := { status_code : Z; data : body }.

(** The function under [@api_view(['GET'])], on a GET request whose query
    has the given [quote_reference] or none. *)
Definition getQuote (net : upstream) (VERSION : Z) (stored : list Quote)
    (requested_quote : option string) (w : world) : view_response * world :=
  match requested_quote with
  | None | Some EmptyString =>
      ({| status_code := 400; data := ErrorBody "Quote must be provided" |}, w)
  | Some reference =>
      match objects_get stored reference with
      | DoesNotExist =>
          ({| status_code := 404; data := ErrorBody "Quote not found" |}, w)
      | MultipleObjectsReturned =>
          ({| status_code := 500; data := ErrorBody "Unexpected error occured" |}, w)
      | Found quote =>
          match calculate_location_risks net VERSION (risk_postcode quote)
                  (product_type quote) (timestamp quote) w with
          | (Raise _, w') =>
              ({| status_code := 500; data := ErrorBody "Unexpected error occured" |}, w')
          | (Ok location_risk, w') =>
              match risk_type (flood_risk location_risk) (crime_risk location_risk) with
              | Raise _ =>
                  ({| status_code := 500;
                      data := ErrorBody "Unexpected error occured" |}, w')
              | Ok category =>
                  ({| status_code := 200;
                      data := QuoteBody quote location_risk category
                                (quote_validity category) (get_roi quote) |}, w')
              end
          end
      end
  end.

(** The view as the retry wrapper sees it: a call that returns. *)
Definition getQuote_call (net : upstream) (VERSION : Z) (stored : list Quote)
    (requested_quote : option string) (w : world) : (exn + view_response) * world :=
  let '(r, w') := getQuote net VERSION stored requested_quote w in (inr r, w').

(** A HOME quote that passes validation. *)
Definition home_quote : Quote :=
  {| quote_reference := "INS-2024-00001"; timestamp := "2024-01-25 10:00:00+00:00";
     product_type := "HOME"; customer_age := 40; risk_postcode := "SW1A 1AA";
     building_value := 350000; contents_value := 50000; quote_premium := 500;
     conversion_status := "QUOTED"; payment_type := "MONTHLY";
     broker_commission := 100; suspicious := None |}.

(** An upstream that reports ten assaults and two severe floods: for a
    HOME quote the crime score is 60 and the flood score 40. *)
Definition tie_upstream : upstream :=
  {| postcodes_io := postcodes_io sample_upstream;
     police_uk := fun _ _ _ _ =>
       Response 200 (repeat {| category := Some "violent-crime" |} 10);
     flood_monitoring := fun _ _ _ _ =>
       Response 200
         {| items := Some (repeat {| severityLevel := Some 1%Z; isTidal := None |} 2) |} |}.

(** ** The scoring formulas in the carrier's own arithmetic

    The formulas of the two scores, worded as the specification words them,
    with every operation taken in the number carrier: on binary64 each sum,
    product and quotient is rounded as Python rounds it. *)

Section Formulas.
Context {N : Type} `{PyNum N}.

(** The sum of a list, taken in order from 0. *)
Definition sum_in_order (l : list N) : N := fold_left add l (lit 0).

(** A record counts when it has a category that is not the empty string. *)
Definition counted (r : CrimeRecord) : bool :=
  match category r with
  | Some c => str_truthy c
  | None => false
  end.

(** The weight of a record that counts: the table's weight of its
    category, 1 for a category outside the table. *)
Definition weight_of (r : CrimeRecord) : N :=
  match category r with
  | Some c => dict_get CRIME_WEIGHTS c (lit 1)
  | None => lit 1
  end.

Definition crime_multiplier (product_type : string) : N :=
  if String.eqb product_type "BEAUTY" then lit 1.0
  else if String.eqb product_type "HOME" then lit 1.5
  else if String.eqb product_type "COMMERCIAL" then lit 2
  else lit 1.

Definition flood_multiplier (product_type : string) : N :=
  if String.eqb product_type "BEAUTY" then lit 1.0
  else if String.eqb product_type "COMMERCIAL" then lit 1.5
  else if String.eqb product_type "HOME" then lit 2
  else lit 1.

(** min(S / ceiling, 1) * 100 *)
Definition normalized (ceiling S : N) : N :=
  mul (py_min (div S ceiling) (lit 1)) (lit 100).

Definition crime_formula (crime_data : list CrimeRecord) (product_type : string) : N :=
  normalized (lit 100)
    (mul (sum_in_order (map weight_of (filter counted crime_data)))
         (crime_multiplier product_type)).

(** Severity 1, 2, 3 scores 20, 15, 10, any other or no level 0; a tidal
    item scores 10 more. *)
Definition item_score (f : FloodItem) : N :=
  let severity :=
    match severityLevel f with
    | Some 1%Z => lit 20
    | Some 2%Z => lit 15
    | Some 3%Z => lit 10
    | _ => lit 0
    end in
  match isTidal f with
  | Some true => add severity (lit 10)
  | _ => severity
  end.

Definition flood_formula (flood_items : list FloodItem) (product_type : string) : N :=
  normalized (lit 200)
    (mul (sum_in_order (map item_score flood_items))
         (flood_multiplier product_type)).

End Formulas.

(** Seven records of weight 1, and eleven flood items of score 10. *)
Definition seven_other_crimes : list CrimeRecord :=
  repeat {| category := Some "other-crime" |} 7.

Definition eleven_level_three : list FloodItem :=
  repeat {| severityLevel := Some 3%Z; isTidal := None |} 11.

(** ** Binary64 against exact arithmetic

    What is needed to compare the scores that the code computes in binary64
    with the exact values of the formulas. *)

(** The exact value of a finite binary64 number. *)
Definition Q_of_float (f : float) : option Q :=
  match Prim2SF f with
  | S754_zero _ => Some 0
  | S754_finite s m e =>
      Some ((if s then -1 else 1) * inject_Z (Zpos m) * Qpower 2 e)
  | _ => None
  end.

(** The binary64 number [k/2]. *)
Definition half_of (k : Z) : float := PrimFloat.div (float_of_Z k) 2.

(** Twice a weight or an item score: a whole number, the weights being
    multiples of 1/2. *)
Definition twice (q : Q) : Z := Qfloor (2 * q).

(** Twice the weights and the item scores that the two loops add. *)
Definition addends : list Z := [0; 2; 3; 4; 6; 8; 20; 30; 40; 50; 60]%Z.

(** [f] is the binary64 number of the rational [q], one of the addends
    halved. *)
Definition same_number (q : Q) (f : float) : bool :=
  PrimFloat.Leibniz.eqb f (half_of (twice q))
  && Qeq_bool q (inject_Z (twice q) / 2)
  && existsb (Z.eqb (twice q)) addends.

Fixpoint tables_agree (tq : list (string * Q)) (tf : list (string * float)) : bool :=
  match tq, tf with
  | [], [] => true
  | (k, q) :: tq', (k', f) :: tf' =>
      String.eqb k k' && same_number q f && tables_agree tq' tf'
  | _, _ => false
  end.

(** The sums that the comparison covers: up to 50,000 weight units, counted
    in halves. *)
Definition sum_bound : Z := 100000.

(** [f k], [f (k + 1)], ..., [f (k + n - 1)] all hold. *)
Fixpoint all_from (f : Z -> bool) (n : nat) (k : Z) : bool :=
  match n with
  | O => true
  | S n' => f k && all_from f n' (k + 1)%Z
  end.

Definition sum_exact (k : Z) : bool :=
  forallb (fun j => PrimFloat.Leibniz.eqb (PrimFloat.add (half_of k) (half_of j))
                                         (half_of (k + j)))
          addends.

(** The score of a sum of [k] halves under multiplier [m], as the code
    computes it in binary64 and as the formula gives it. *)
Definition float_score (ceiling : Q) (k : Z) (m : Q) : float :=
  normalized (N:=float) (lit ceiling) (mul (half_of k) (lit m)).

Definition exact_score (ceiling : Q) (k : Z) (m : Q) : Q :=
  Qmin (inject_Z k / 2 * m / ceiling) 1 * 100.

(** 10^-13 *)
Definition tolerance : Q := 1 # 10000000000000.

(** The binary64 score is a number from 0 to 100 within the tolerance of
    the exact score, and it is 100.0 exactly when the multiplied sum has
    reached the ceiling. *)
Definition score_agrees (ceiling m : Q) (k : Z) : bool :=
  match Q_of_float (float_score ceiling k m) with
  | Some q =>
      Qle_bool (Qabs (q - exact_score ceiling k m)) tolerance
      && Qle_bool 0 q && Qle_bool q 100
      && Bool.eqb (PrimFloat.Leibniz.eqb (float_score ceiling k m) 100)
                  (Qle_bool ceiling (inject_Z k / 2 * m))
  | None => false
  end.

Definition multipliers : list Q := [1.0; 1.5; 2.0].

Definition scores_agree (ceiling : Q) (k : Z) : bool :=
  forallb (fun m => score_agrees ceiling m k) multipliers.

(** Both binary64 scores of a sum of [k] halves are 100.0, whatever the
    multiplier. *)
Definition saturates (k : Z) : bool :=
  forallb (fun ceiling =>
             forallb (fun m => PrimFloat.Leibniz.eqb (float_score ceiling k m) 100)
                     multipliers)
          [100; 200].

(** Two results of [risk_type] are the same label, or both the error. *)
Definition same_category (a b : result string) : bool :=
  match a, b with
  | Ok x, Ok y => String.eqb x y
  | Raise _, Raise _ => true
  | _, _ => false
  end.

(** The category of a flood sum of [kf] halves and a crime sum of [kc]
    halves is the same in binary64 and in exact arithmetic. *)
Definition category_agrees (kf kc : Z) : bool :=
  forallb (fun mf =>
    forallb (fun mc =>
      same_category
        (risk_type (N:=float) (float_score 200 kf mf) (float_score 100 kc mc))
        (risk_type (N:=Q) (exact_score 200 kf mf) (exact_score 100 kc mc)))
      multipliers) multipliers.

(** The same for a flood sum of [n] times 5: the item scores are
    multiples of 5. *)
Definition categories_agree (n : Z) : bool :=
  all_from (category_agrees (10 * n)) 201 0.

(** The results of [n] calls of [func] in a row, each on the state that
    the call before it left, and the state after the last of them. *)
Fixpoint calls {St Resp Err : Type} (func : St -> (Err + Resp) * St)
    (n : nat) (s : St) : list (Err + Resp) * St :=
  match n with
  | O => ([], s)
  | S n' =>
      let (a, s') := func s in
      let (l, s'') := calls func n' s' in
      (a :: l, s'')
  end.

(** A view that fails on every call, each time with another error: the
    number of the call. *)
Definition counting_view (count : nat) : (nat + string) * nat :=
  (inl (S count), S count).

(** * Properties of the risk scorer, over exact rationals *)

(** ** Auxiliary facts *)

Lemma py_min_Qmin (a b : Q) : py_min a b == Qmin a b.
Proof.
  unfold py_min; cbn [ltb PyNum_Q].
  destruct (Qle_bool a b) eqn:E; cbn [negb].
  - apply Qle_bool_iff in E. symmetry. now apply Q.min_l.
  - assert (L : b <= a).
    { destruct (Qlt_le_dec b a) as [L|L]; [now apply Qlt_le_weak|].
      apply Qle_bool_iff in L. congruence. }
    symmetry. now apply Q.min_r.
Qed.

Lemma crime_multiplier_spec (product_type : string) :
  dict_get (CRIME_MULTIPLIERS (N:=Q)) product_type (lit 1) == spec_crime_multiplier product_type.
Proof.
  unfold spec_crime_multiplier; cbn [dict_get CRIME_MULTIPLIERS lit PyNum_Q].
  rewrite !(String.eqb_sym _ product_type).
  repeat destruct (String.eqb product_type _); reflexivity.
Qed.

Lemma flood_multiplier_spec (product_type : string) :
  dict_get (FLOOD_MULTIPLIERS (N:=Q)) product_type (lit 1) == spec_flood_multiplier product_type.
Proof.
  unfold spec_flood_multiplier; cbn [dict_get FLOOD_MULTIPLIERS lit PyNum_Q].
  rewrite !(String.eqb_sym _ product_type).
  repeat destruct (String.eqb product_type _); reflexivity.
Qed.

Lemma crime_step_weight (a : Q) (r : CrimeRecord) :
  crime_step a r == a + record_weight r.
Proof.
  unfold crime_step, record_weight, spec_category_weight.
  destruct (category r) as [[|c s]|]; cbn [str_truthy add lit PyNum_Q]; ring.
Qed.

Lemma crime_loop_from (ds : list CrimeRecord) (a : Q) :
  fold_left crime_step ds a == a + Qsum (map record_weight ds).
Proof.
  revert a; induction ds as [|r ds IH]; intro a; cbn [fold_left map Qsum fold_right].
  - ring.
  - rewrite IH, crime_step_weight. fold (Qsum (map record_weight ds)). ring.
Qed.

Lemma crime_loop_sum (ds : list CrimeRecord) :
  crime_loop ds == Qsum (map record_weight ds).
Proof. unfold crime_loop. rewrite crime_loop_from. cbn [lit PyNum_Q]. ring. Qed.

Lemma severity_score_spec (f : FloodItem) (a : Q) :
  flood_step a f == a + spec_item_score f.
Proof.
  unfold flood_step, spec_item_score, severity_score.
  destruct (severityLevel f) as [[|[p|p|]|p]|]; destruct (isTidal f) as [[|]|];
    cbn [Z.eqb Pos.eqb add lit PyNum_Q]; try ring;
    destruct p; cbn [Z.eqb Pos.eqb]; ring.
Qed.

Lemma flood_loop_from (its : list FloodItem) (a : Q) :
  fold_left flood_step its a == a + Qsum (map spec_item_score its).
Proof.
  revert a; induction its as [|f its IH]; intro a; cbn [fold_left map Qsum fold_right].
  - ring.
  - rewrite IH, severity_score_spec. fold (Qsum (map spec_item_score its)). ring.
Qed.

Lemma flood_loop_sum (its : list FloodItem) :
  flood_loop its == Qsum (map spec_item_score its).
Proof. unfold flood_loop. rewrite flood_loop_from. cbn [lit PyNum_Q]. ring. Qed.

Lemma dict_get_nonneg (d : list (string * Q)) (k : string) (default : Q) :
  Forall (fun kv => 0 <= snd kv) d -> 0 <= default -> 0 <= dict_get d k default.
Proof.
  intros Hd Hdef; induction Hd as [|[k' v] d Hv _ IH]; cbn [dict_get]; [assumption|].
  destruct (String.eqb k' k); [exact Hv | exact IH].
Qed.

Lemma spec_category_weight_nonneg (c : string) : 0 <= spec_category_weight c.
Proof.
  apply dict_get_nonneg; [|discriminate].
  cbn [CRIME_WEIGHTS lit PyNum_Q]. repeat constructor; discriminate.
Qed.

Lemma record_weight_nonneg (r : CrimeRecord) : 0 <= record_weight r.
Proof.
  unfold record_weight. destruct (category r) as [[|c s]|]; try discriminate.
  apply spec_category_weight_nonneg.
Qed.

Lemma spec_item_score_nonneg (f : FloodItem) : 0 <= spec_item_score f.
Proof.
  unfold spec_item_score.
  destruct (severityLevel f) as [[|[p|p|]|p]|]; destruct (isTidal f) as [[|]|];
    try discriminate; destruct p; discriminate.
Qed.

Lemma Qsum_nonneg {A} (w : A -> Q) (l : list A) :
  (forall x, 0 <= w x) -> 0 <= Qsum (map w l).
Proof.
  intro Hw; induction l as [|x l IH]; cbn [map Qsum fold_right]; [discriminate|].
  fold (Qsum (map w l)). specialize (Hw x). lra.
Qed.

Lemma spec_crime_multiplier_nonneg (pt : string) : 0 <= spec_crime_multiplier pt.
Proof. unfold spec_crime_multiplier. repeat destruct (String.eqb pt _); discriminate. Qed.

Lemma spec_flood_multiplier_nonneg (pt : string) : 0 <= spec_flood_multiplier pt.
Proof. unfold spec_flood_multiplier. repeat destruct (String.eqb pt _); discriminate. Qed.

(** Scaling by a positive ceiling, capping at 1 and scaling to 100 lands
    in the closed range from 0 to 100. *)
Lemma normalized_range (x ceiling : Q) :
  0 < ceiling -> 0 <= x ->
  0 <= Qmin (x / ceiling) 1 * 100 /\ Qmin (x / ceiling) 1 * 100 <= 100.
Proof.
  intros Hc Hx.
  assert (Hq : 0 <= x / ceiling).
  { unfold Qdiv. apply Qmult_le_0_compat; [assumption|].
    apply Qlt_le_weak, Qinv_lt_0_compat, Hc. }
  assert (Hlo : 0 <= Qmin (x / ceiling) 1) by (apply Q.min_glb; [assumption|discriminate]).
  assert (Hhi : Qmin (x / ceiling) 1 <= 1) by apply Q.le_min_r.
  split; lra.
Qed.

(** The code's crime score is the normalized weighted sum in which a record
    without a usable category weighs nothing. *)
Lemma calculate_crime_risk_score (ds : list CrimeRecord) (pt : string) :
  exists v, calculate_crime_risk ds pt = Ok v /\ v == crime_score ds pt.
Proof.
  eexists; split; [reflexivity|].
  unfold crime_score, MAXIMUM_CRIME_RISK; cbn [mul div lit PyNum_Q].
  rewrite py_min_Qmin, crime_loop_sum, crime_multiplier_spec. reflexivity.
Qed.

Lemma calculate_flood_risk_score (its : list FloodItem) (pt : string) :
  exists v, calculate_flood_risk {| items := Some its |} pt = Ok v
            /\ v == spec_flood_score its pt.
Proof.
  eexists; split; [reflexivity|].
  unfold spec_flood_score, MAX_FLOOD_RISK; cbn [mul div lit PyNum_Q].
  rewrite py_min_Qmin, flood_loop_sum, flood_multiplier_spec. reflexivity.
Qed.

Lemma dict_get_missing {V} (d : list (string * V)) (k : string) (default : V) :
  ~ In k (map fst d) -> dict_get d k default = default.
Proof.
  induction d as [|[k' v] d IH]; cbn [dict_get map fst In]; [reflexivity|].
  intro Hk. destruct (String.eqb_spec k' k) as [->|_].
  - exfalso; apply Hk; now left.
  - apply IH. intro Hin; apply Hk; now right.
Qed.

(** A record the loop skips leaves the running sum as it was. *)
Lemma crime_loop_skip {N} `{PyNum N} (ds1 ds2 : list CrimeRecord) (r : CrimeRecord) :
  (forall a : N, crime_step a r = a) ->
  crime_loop (N:=N) (ds1 ++ r :: ds2) = crime_loop (ds1 ++ ds2).
Proof.
  intro Hr. unfold crime_loop. rewrite !fold_left_app. cbn [fold_left].
  now rewrite Hr.
Qed.

(** ** The code's weights and the specification's *)

(** On a dataset whose categories are all non-empty strings, the code's
    score is the one the specification words. *)
Lemma crime_score_nonempty (categories : list string) (pt : string) :
  Forall (fun c => c <> "") categories ->
  crime_score (map record_of_category categories) pt == spec_crime_score categories pt.
Proof.
  intro Hne. unfold crime_score, spec_crime_score. rewrite map_map.
  assert (E : map (fun c => record_weight (record_of_category c)) categories
              = map spec_category_weight categories).
  { induction Hne as [|c cs Hc _ IH]; cbn [map]; [reflexivity|].
    rewrite IH. f_equal. unfold record_weight, record_of_category; cbn [category].
    destruct c; [congruence|reflexivity]. }
  rewrite E. reflexivity.
Qed.

(** * The scorer in the carrier's own arithmetic

    What follows holds for every number carrier, with no law of arithmetic
    assumed: in particular for binary64, where sums, products and quotients
    are rounded. *)

Section FormulasHold.
Context {N : Type} `{PyNum N}.

Lemma crime_step_counted (a : N) (r : CrimeRecord) :
  crime_step a r = if counted r then add a (weight_of (N:=N) r) else a.
Proof.
  unfold crime_step, counted, weight_of.
  destruct (category r) as [c|]; reflexivity.
Qed.

Lemma crime_loop_in_order_from (ds : list CrimeRecord) (a : N) :
  fold_left crime_step ds a
  = fold_left add (map (weight_of (N:=N)) (filter counted ds)) a.
Proof.
  revert a; induction ds as [|r ds IH]; intro a; [reflexivity|].
  cbn [fold_left filter]. rewrite IH, crime_step_counted.
  destruct (counted r); reflexivity.
Qed.

Lemma crime_loop_in_order (ds : list CrimeRecord) :
  crime_loop (N:=N) ds = sum_in_order (map weight_of (filter counted ds)).
Proof. apply crime_loop_in_order_from. Qed.

Lemma crime_multiplier_get (pt : string) :
  dict_get (CRIME_MULTIPLIERS (N:=N)) pt (lit 1) = crime_multiplier pt.
Proof.
  unfold crime_multiplier; cbn [dict_get CRIME_MULTIPLIERS].
  rewrite !(String.eqb_sym _ pt). reflexivity.
Qed.

Lemma flood_multiplier_get (pt : string) :
  dict_get (FLOOD_MULTIPLIERS (N:=N)) pt (lit 1) = flood_multiplier pt.
Proof.
  unfold flood_multiplier; cbn [dict_get FLOOD_MULTIPLIERS].
  rewrite !(String.eqb_sym _ pt). reflexivity.
Qed.

Lemma multipliers_default (pt : string) :
  pt <> "BEAUTY" -> pt <> "HOME" -> pt <> "COMMERCIAL" ->
  crime_multiplier (N:=N) pt = lit 1 /\ flood_multiplier (N:=N) pt = lit 1.
Proof.
  intros Hb Hh Hc. unfold crime_multiplier, flood_multiplier.
  apply String.eqb_neq in Hb, Hh, Hc. rewrite Hb, Hh, Hc. split; reflexivity.
Qed.

Lemma flood_step_item_score (a : N) (f : FloodItem) :
  flood_step a f = add a (item_score f).
Proof.
  unfold flood_step, item_score, severity_score.
  destruct (severityLevel f) as [[|[[p|p|]|[p|p|]|]|p]|];
    destruct (isTidal f) as [[|]|]; reflexivity.
Qed.

Lemma flood_loop_in_order_from (its : list FloodItem) (a : N) :
  fold_left flood_step its a = fold_left add (map (item_score (N:=N)) its) a.
Proof.
  revert a; induction its as [|f its IH]; intro a; [reflexivity|].
  cbn [fold_left map]. rewrite IH, flood_step_item_score. reflexivity.
Qed.

Lemma calculate_crime_risk_in_carrier (ds : list CrimeRecord) (pt : string) :
  calculate_crime_risk (N:=N) ds pt = Ok (crime_formula ds pt).
Proof.
  unfold calculate_crime_risk, crime_formula, normalized, MAXIMUM_CRIME_RISK.
  rewrite crime_loop_in_order, crime_multiplier_get. reflexivity.
Qed.

Lemma calculate_flood_risk_in_carrier (its : list FloodItem) (pt : string) :
  calculate_flood_risk (N:=N) {| items := Some its |} pt = Ok (flood_formula its pt).
Proof.
  unfold calculate_flood_risk, flood_formula, normalized, MAX_FLOOD_RISK,
    flood_loop, sum_in_order.
  cbn [items]. rewrite flood_loop_in_order_from, flood_multiplier_get. reflexivity.
Qed.

End FormulasHold.

(** * Binary64 against exact arithmetic

    The sums that the two loops build are exact in binary64, the weights
    being multiples of 1/2 and the item scores whole numbers; the
    normalisation rounds twice.  What it does is checked sum by sum, up to
    50,000 weight units. *)

Lemma all_from_spec (f : Z -> bool) (n : nat) :
  forall k, all_from f n k = true ->
  forall i, (k <= i < k + Z.of_nat n)%Z -> f i = true.
Proof.
  induction n as [|n IH]; intros k Hall i Hi; [lia|].
  cbn [all_from] in Hall. apply andb_true_iff in Hall. destruct Hall as [Hk Hrest].
  destruct (Z.eq_dec i k) as [->|Hne]; [exact Hk|].
  apply (IH (k + 1)%Z Hrest). lia.
Qed.

(** ** The sums are exact *)

Lemma sums_exact_upto : all_from sum_exact (Z.to_nat (sum_bound + 1)) 0 = true.
Proof. vm_compute. reflexivity. Qed.

Lemma half_of_add (k j : Z) :
  (0 <= k <= sum_bound)%Z -> In j addends ->
  PrimFloat.add (half_of k) (half_of j) = half_of (k + j).
Proof.
  intros Hk Hj.
  assert (Hc : sum_exact k = true).
  { apply (all_from_spec _ _ _ sums_exact_upto).
    rewrite Z2Nat.id by (unfold sum_bound; lia). lia. }
  unfold sum_exact in Hc. rewrite forallb_forall in Hc.
  apply FloatAxioms.Leibniz.eqb_spec, Hc, Hj.
Qed.

Lemma same_number_spec (q : Q) (f : float) :
  same_number q f = true ->
  f = half_of (twice q) /\ q == inject_Z (twice q) / 2 /\ In (twice q) addends.
Proof.
  unfold same_number. intro H.
  apply andb_true_iff in H. destruct H as [H Hin].
  apply andb_true_iff in H. destruct H as [Hf Hq].
  apply FloatAxioms.Leibniz.eqb_spec in Hf. apply Qeq_bool_iff in Hq.
  apply existsb_exists in Hin. destruct Hin as [j [Hj Ej]].
  apply Z.eqb_eq in Ej. rewrite <- Ej in Hj. repeat split; assumption.
Qed.

Lemma addends_nonneg (j : Z) : In j addends -> (0 <= j)%Z.
Proof. unfold addends. cbn [In]. intuition lia. Qed.

Lemma tables_agree_get (tq : list (string * Q)) (tf : list (string * float))
    (dq : Q) (df : float) (k : string) :
  tables_agree tq tf = true -> same_number dq df = true ->
  same_number (dict_get tq k dq) (dict_get tf k df) = true.
Proof.
  revert tf; induction tq as [|[k1 q] tq IH]; intros [|[k2 f] tf] Ht Hd;
    cbn [tables_agree] in Ht; try discriminate; [exact Hd|].
  apply andb_true_iff in Ht. destruct Ht as [Ht Hrest].
  apply andb_true_iff in Ht. destruct Ht as [Hk Hqf].
  apply String.eqb_eq in Hk. subst k2.
  cbn [dict_get]. destruct (String.eqb k1 k); [exact Hqf | now apply IH].
Qed.

Lemma crime_weights_agree :
  tables_agree (CRIME_WEIGHTS (N:=Q)) (CRIME_WEIGHTS (N:=float)) = true.
Proof. vm_compute. reflexivity. Qed.

Lemma weight_of_same_number (r : CrimeRecord) :
  counted r = true -> same_number (record_weight r) (weight_of (N:=float) r) = true.
Proof.
  unfold counted, record_weight, weight_of, spec_category_weight.
  destruct (category r) as [[|a c]|]; try discriminate. intros _.
  apply tables_agree_get; [apply crime_weights_agree | vm_compute; reflexivity].
Qed.

Lemma record_weight_uncounted (r : CrimeRecord) :
  counted r = false -> record_weight r = 0.
Proof.
  unfold counted, record_weight.
  destruct (category r) as [[|a c]|]; try discriminate; reflexivity.
Qed.

Lemma item_score_same_number (f : FloodItem) :
  same_number (spec_item_score f) (item_score (N:=float) f) = true.
Proof.
  unfold spec_item_score, item_score.
  destruct (severityLevel f) as [[|[[p|p|]|[p|p|]|]|p]|];
    destruct (isTidal f) as [[|]|]; vm_compute; reflexivity.
Qed.

Section Halves.
Context {A : Type} (g : A -> Q) (h : A -> float).

Lemma halves_nonneg (l : list A) :
  (forall x, In x l -> same_number (g x) (h x) = true) ->
  (0 <= Zsum (map (fun x => twice (g x)) l))%Z.
Proof.
  induction l as [|x l IH]; intro Hl; cbn [map Zsum fold_right]; [lia|].
  fold (Zsum (map (fun x => twice (g x)) l)).
  assert (Hx : (0 <= twice (g x))%Z).
  { apply addends_nonneg, same_number_spec with (f := h x), Hl. now left. }
  assert (Hr : (0 <= Zsum (map (fun x => twice (g x)) l))%Z).
  { apply IH. intros y Hy. apply Hl. now right. }
  lia.
Qed.

Lemma halves_exact (l : list A) :
  (forall x, In x l -> same_number (g x) (h x) = true) ->
  Qsum (map g l) == inject_Z (Zsum (map (fun x => twice (g x)) l)) / 2.
Proof.
  induction l as [|x l IH]; intro Hl; cbn [map Qsum Zsum fold_right]; [reflexivity|].
  fold (Zsum (map (fun x => twice (g x)) l)). fold (Qsum (map g l)).
  rewrite inject_Z_plus, IH by (intros y Hy; apply Hl; now right).
  destruct (same_number_spec (g x) (h x)) as (_ & Hq & _); [apply Hl; now left|].
  rewrite Hq at 1. field.
Qed.

Lemma halves_loop (l : list A) :
  (forall x, In x l -> same_number (g x) (h x) = true) ->
  forall k, (0 <= k)%Z -> (k + Zsum (map (fun x => twice (g x)) l) <= sum_bound)%Z ->
  fold_left PrimFloat.add (map h l) (half_of k)
  = half_of (k + Zsum (map (fun x => twice (g x)) l)).
Proof.
  induction l as [|x l IH]; intros Hl k Hk Hb; cbn [map Zsum fold_right fold_left].
  - now rewrite Z.add_0_r.
  - fold (Zsum (map (fun x => twice (g x)) l)) in *.
    cbn [map Zsum fold_right] in Hb. fold (Zsum (map (fun x => twice (g x)) l)) in Hb.
    destruct (same_number_spec (g x) (h x)) as (Hf & _ & Hin); [apply Hl; now left|].
    pose proof (addends_nonneg _ Hin) as Hx.
    assert (Hr : (0 <= Zsum (map (fun x => twice (g x)) l))%Z).
    { apply halves_nonneg. intros y Hy. apply Hl. now right. }
    rewrite Hf, half_of_add by (try assumption; lia).
    rewrite IH; [f_equal; lia | intros y Hy; apply Hl; now right | lia | lia].
Qed.

End Halves.

(** ** The two loops in binary64 *)

Lemma Qsum_counted (ds : list CrimeRecord) :
  Qsum (map record_weight (filter counted ds)) == Qsum (map record_weight ds).
Proof.
  unfold Qsum. induction ds as [|r ds IH]; [reflexivity|].
  cbn [filter]. destruct (counted r) eqn:E; cbn [map fold_right].
  - now rewrite IH.
  - rewrite (record_weight_uncounted r E), IH. ring.
Qed.

Lemma halves_below (K : Z) (S : Q) :
  S == inject_Z K / 2 -> S <= 50000 -> (K <= sum_bound)%Z.
Proof.
  intros E L. unfold sum_bound. rewrite Zle_Qle.
  change (inject_Z 100000) with (100000 # 1).
  assert (E2 : inject_Z K == 2 * S) by (rewrite E; field).
  rewrite E2. lra.
Qed.

Lemma crime_loop_binary64 (ds : list CrimeRecord) :
  Qsum (map record_weight ds) <= 50000 ->
  exists K, (0 <= K <= sum_bound)%Z
            /\ Qsum (map record_weight ds) == inject_Z K / 2
            /\ crime_loop (N:=float) ds = half_of K.
Proof.
  intro Hb.
  assert (Hl : forall x, In x (filter counted ds) ->
                 same_number (record_weight x) (weight_of (N:=float) x) = true).
  { intros x Hx. apply filter_In in Hx. apply weight_of_same_number, Hx. }
  pose proof (halves_nonneg record_weight weight_of _ Hl) as H0.
  pose proof (halves_exact record_weight weight_of _ Hl) as Hq.
  rewrite Qsum_counted in Hq.
  pose proof (halves_below _ _ Hq Hb) as Hk.
  exists (Zsum (map (fun x => twice (record_weight x)) (filter counted ds))).
  split; [lia|]. split; [exact Hq|].
  rewrite crime_loop_in_order. unfold sum_in_order.
  change (lit (N:=float) 0) with (half_of 0).
  rewrite (halves_loop record_weight weight_of _ Hl) by lia. reflexivity.
Qed.

Lemma item_score_tens (f : FloodItem) : (10 | twice (spec_item_score f))%Z.
Proof.
  apply Z.mod_divide; [discriminate|]. unfold spec_item_score.
  destruct (severityLevel f) as [[|[[p|p|]|[p|p|]|]|p]|];
    destruct (isTidal f) as [[|]|]; reflexivity.
Qed.

Lemma flood_halves_tens (its : list FloodItem) :
  (10 | Zsum (map (fun x => twice (spec_item_score x)) its))%Z.
Proof.
  induction its as [|f its IH]; cbn [map Zsum fold_right].
  - apply Z.divide_0_r.
  - apply Z.divide_add_r; [apply item_score_tens|exact IH].
Qed.

Lemma flood_loop_binary64 (its : list FloodItem) :
  Qsum (map spec_item_score its) <= 50000 ->
  exists K, (0 <= K <= sum_bound)%Z
            /\ (10 | K)%Z
            /\ Qsum (map spec_item_score its) == inject_Z K / 2
            /\ flood_loop (N:=float) its = half_of K.
Proof.
  intro Hb.
  assert (Hl : forall x, In x its ->
                 same_number (spec_item_score x) (item_score (N:=float) x) = true).
  { intros x _. apply item_score_same_number. }
  pose proof (halves_nonneg spec_item_score item_score _ Hl) as H0.
  pose proof (halves_exact spec_item_score item_score _ Hl) as Hq.
  pose proof (halves_below _ _ Hq Hb) as Hk.
  exists (Zsum (map (fun x => twice (spec_item_score x)) its)).
  split; [lia|]. split; [apply flood_halves_tens|]. split; [exact Hq|].
  unfold flood_loop. rewrite flood_loop_in_order_from.
  change (lit (N:=float) 0) with (half_of 0).
  rewrite (halves_loop spec_item_score item_score _ Hl) by lia. reflexivity.
Qed.

Lemma crime_multiplier_binary64 (pt : string) :
  crime_multiplier (N:=float) pt = lit (spec_crime_multiplier pt)
  /\ In (spec_crime_multiplier pt) multipliers.
Proof.
  unfold crime_multiplier, spec_crime_multiplier, multipliers.
  repeat destruct (String.eqb pt _); split;
    try (vm_compute; reflexivity); cbn [In]; auto.
Qed.

Lemma flood_multiplier_binary64 (pt : string) :
  flood_multiplier (N:=float) pt = lit (spec_flood_multiplier pt)
  /\ In (spec_flood_multiplier pt) multipliers.
Proof.
  unfold flood_multiplier, spec_flood_multiplier, multipliers.
  repeat destruct (String.eqb pt _); split;
    try (vm_compute; reflexivity); cbn [In]; auto.
Qed.

(** Both scores as scores of a number of halves. *)
Lemma crime_risk_of_halves (ds : list CrimeRecord) (pt : string) :
  Qsum (map record_weight ds) <= 50000 ->
  exists K, (0 <= K <= sum_bound)%Z
            /\ Qsum (map record_weight ds) == inject_Z K / 2
            /\ calculate_crime_risk (N:=float) ds pt
               = Ok (float_score 100 K (spec_crime_multiplier pt))
            /\ crime_score ds pt == exact_score 100 K (spec_crime_multiplier pt).
Proof.
  intro Hb. destruct (crime_loop_binary64 ds Hb) as (K & HK & Hq & Hloop).
  exists K. split; [exact HK|]. split; [exact Hq|]. split.
  - unfold calculate_crime_risk, float_score, normalized, MAXIMUM_CRIME_RISK.
    rewrite Hloop, crime_multiplier_get.
    now rewrite (proj1 (crime_multiplier_binary64 pt)).
  - unfold crime_score, exact_score. now rewrite Hq.
Qed.

Lemma flood_risk_of_halves (its : list FloodItem) (pt : string) :
  Qsum (map spec_item_score its) <= 50000 ->
  exists K, (0 <= K <= sum_bound)%Z
            /\ (10 | K)%Z
            /\ Qsum (map spec_item_score its) == inject_Z K / 2
            /\ calculate_flood_risk (N:=float) {| items := Some its |} pt
               = Ok (float_score 200 K (spec_flood_multiplier pt))
            /\ spec_flood_score its pt == exact_score 200 K (spec_flood_multiplier pt).
Proof.
  intro Hb. destruct (flood_loop_binary64 its Hb) as (K & HK & Hten & Hq & Hloop).
  exists K. split; [exact HK|]. split; [exact Hten|]. split; [exact Hq|]. split.
  - unfold calculate_flood_risk, float_score, normalized, MAX_FLOOD_RISK. cbn [items].
    rewrite Hloop, flood_multiplier_get.
    now rewrite (proj1 (flood_multiplier_binary64 pt)).
  - unfold spec_flood_score, exact_score. now rewrite Hq.
Qed.

(** ** The normalised score in binary64 *)

(** Up to 200 weight units every sum is compared; beyond, where both scores
    have long reached their ceiling, the binary64 score is 100.0. *)
Lemma crime_scores_agree_upto : all_from (scores_agree 100) 401 0 = true.
Proof. vm_compute. reflexivity. Qed.

Lemma flood_scores_agree_upto : all_from (scores_agree 200) 401 0 = true.
Proof. vm_compute. reflexivity. Qed.

Lemma saturates_upto : all_from saturates (Z.to_nat (sum_bound - 400)) 401 = true.
Proof. vm_compute. reflexivity. Qed.

Lemma score_agrees_spec (ceiling m : Q) (k : Z) :
  score_agrees ceiling m k = true ->
  exists q, Q_of_float (float_score ceiling k m) = Some q
            /\ Qabs (q - exact_score ceiling k m) <= tolerance
            /\ 0 <= q /\ q <= 100
            /\ (float_score ceiling k m = 100%float <-> ceiling <= inject_Z k / 2 * m).
Proof.
  unfold score_agrees. destruct (Q_of_float (float_score ceiling k m)) as [q|];
    [|discriminate].
  intro H. apply andb_true_iff in H. destruct H as [H Hsat].
  apply andb_true_iff in H. destruct H as [H Hhi].
  apply andb_true_iff in H. destruct H as [Hnear Hlo].
  apply Qle_bool_iff in Hnear, Hlo, Hhi. apply eqb_prop in Hsat.
  exists q. repeat split; try assumption.
  - intro E. apply Qle_bool_iff. rewrite <- Hsat.
    now apply FloatAxioms.Leibniz.eqb_spec.
  - intro L. apply FloatAxioms.Leibniz.eqb_spec. rewrite Hsat.
    now apply Qle_bool_iff.
Qed.

Lemma multipliers_at_least_one (m : Q) : In m multipliers -> 1 <= m.
Proof.
  unfold multipliers; cbn [In]. intros [<-|[<-|[<-|[]]]]; discriminate.
Qed.

Lemma exact_score_saturated (ceiling m : Q) (k : Z) :
  0 < ceiling -> ceiling <= inject_Z k / 2 * m -> exact_score ceiling k m == 100.
Proof.
  intros Hc Hs. unfold exact_score. rewrite Q.min_r; [reflexivity|].
  apply Qle_shift_div_l; [exact Hc|]. now rewrite Qmult_1_l.
Qed.

Lemma past_both_ceilings (ceiling m : Q) (k : Z) :
  ceiling = 100 \/ ceiling = 200 -> In m multipliers -> (400 <= k)%Z ->
  ceiling <= inject_Z k / 2 * m.
Proof.
  intros Hc Hm Hk. pose proof (multipliers_at_least_one m Hm) as H1.
  assert (Hq : 400 <= inject_Z k).
  { change 400 with (inject_Z 400). rewrite <- Zle_Qle. exact Hk. }
  assert (Hh : 200 <= inject_Z k / 2).
  { apply Qle_shift_div_l; [reflexivity|]. lra. }
  apply Qle_trans with (200 * 1); [destruct Hc as [->| ->]; discriminate|].
  apply Qmult_le_compat_nonneg; split; first [assumption|discriminate].
Qed.

Lemma score_of_halves (ceiling m : Q) (k : Z) :
  ceiling = 100 \/ ceiling = 200 -> In m multipliers -> (0 <= k <= sum_bound)%Z ->
  exists q, Q_of_float (float_score ceiling k m) = Some q
            /\ Qabs (q - exact_score ceiling k m) <= tolerance
            /\ 0 <= q /\ q <= 100
            /\ (float_score ceiling k m = 100%float <-> ceiling <= inject_Z k / 2 * m).
Proof.
  intros Hc Hm Hk.
  destruct (Z.le_gt_cases k 400) as [Hlow|Hhigh].
  - apply score_agrees_spec.
    assert (H : scores_agree ceiling k = true).
    { destruct Hc as [->| ->];
        [apply (all_from_spec _ _ _ crime_scores_agree_upto)
        |apply (all_from_spec _ _ _ flood_scores_agree_upto)];
        change (Z.of_nat 401) with 401%Z; lia. }
    unfold scores_agree in H. rewrite forallb_forall in H. now apply H.
  - assert (Hv : float_score ceiling k m = 100%float).
    { assert (H : saturates k = true).
      { apply (all_from_spec _ _ _ saturates_upto).
        rewrite Z2Nat.id by (unfold sum_bound; lia). lia. }
      unfold saturates in H. rewrite forallb_forall in H.
      assert (Hin : In ceiling [100; 200]) by (cbn [In]; destruct Hc; auto).
      specialize (H ceiling Hin). rewrite forallb_forall in H.
      apply FloatAxioms.Leibniz.eqb_spec, H, Hm. }
    assert (Hs : ceiling <= inject_Z k / 2 * m) by (apply past_both_ceilings; [assumption..|lia]).
    assert (Hpos : 0 < ceiling) by (destruct Hc as [->| ->]; reflexivity).
    rewrite Hv. eexists. split; [vm_compute; reflexivity|].
    split; [rewrite (exact_score_saturated _ _ _ Hpos Hs); vm_compute; discriminate|].
    split; [vm_compute; discriminate|]. split; [vm_compute; discriminate|].
    split; [intros _; exact Hs|reflexivity].
Qed.

Lemma crime_risk_binary64 (ds : list CrimeRecord) (pt : string) :
  Qsum (map record_weight ds) <= 50000 ->
  exists v q,
    calculate_crime_risk (N:=float) ds pt = Ok v
    /\ Q_of_float v = Some q
    /\ Qabs (q - crime_score ds pt) <= tolerance
    /\ 0 <= q /\ q <= 100
    /\ (v = 100%float <-> 100 <= Qsum (map record_weight ds) * spec_crime_multiplier pt).
Proof.
  intro Hb. destruct (crime_risk_of_halves ds pt Hb) as (K & HK & Hq & Ev & Es).
  destruct (score_of_halves 100 (spec_crime_multiplier pt) K)
    as (q & Eq & Hnear & Hlo & Hhi & Hsat);
    [now left|apply crime_multiplier_binary64|exact HK|].
  exists (float_score 100 K (spec_crime_multiplier pt)), q.
  split; [exact Ev|]. split; [exact Eq|].
  split; [now rewrite Es|]. split; [exact Hlo|]. split; [exact Hhi|].
  now rewrite Hq.
Qed.

Lemma flood_risk_binary64 (its : list FloodItem) (pt : string) :
  Qsum (map spec_item_score its) <= 50000 ->
  exists v q,
    calculate_flood_risk (N:=float) {| items := Some its |} pt = Ok v
    /\ Q_of_float v = Some q
    /\ Qabs (q - spec_flood_score its pt) <= tolerance
    /\ 0 <= q /\ q <= 100
    /\ (v = 100%float <-> 200 <= Qsum (map spec_item_score its) * spec_flood_multiplier pt).
Proof.
  intro Hb. destruct (flood_risk_of_halves its pt Hb) as (K & HK & _ & Hq & Ev & Es).
  destruct (score_of_halves 200 (spec_flood_multiplier pt) K)
    as (q & Eq & Hnear & Hlo & Hhi & Hsat);
    [now right|apply flood_multiplier_binary64|exact HK|].
  exists (float_score 200 K (spec_flood_multiplier pt)), q.
  split; [exact Ev|]. split; [exact Eq|].
  split; [now rewrite Es|]. split; [exact Hlo|]. split; [exact Hhi|].
  now rewrite Hq.
Qed.

(** ** The category in binary64 *)

Lemma categories_agree_upto : all_from categories_agree 41 0 = true.
Proof. vm_compute. reflexivity. Qed.

Lemma category_of_halves (kf kc : Z) (mf mc : Q) :
  (0 <= kf <= 400)%Z -> (10 | kf)%Z -> (0 <= kc <= 200)%Z ->
  In mf multipliers -> In mc multipliers ->
  same_category
    (risk_type (N:=float) (float_score 200 kf mf) (float_score 100 kc mc))
    (risk_type (N:=Q) (exact_score 200 kf mf) (exact_score 100 kc mc)) = true.
Proof.
  intros Hf [n Hn] Hc Hmf Hmc.
  assert (H1 : categories_agree n = true).
  { apply (all_from_spec _ _ _ categories_agree_upto).
    change (Z.of_nat 41) with 41%Z. lia. }
  assert (H2 : category_agrees kf kc = true).
  { replace kf with (10 * n)%Z by lia.
    apply (all_from_spec _ _ _ H1). change (Z.of_nat 201) with 201%Z. lia. }
  unfold category_agrees in H2. rewrite forallb_forall in H2.
  specialize (H2 mf Hmf). rewrite forallb_forall in H2. exact (H2 mc Hmc).
Qed.

(** From the ceiling on, a longer dataset scores what the shortest dataset
    at the ceiling scores. *)
Lemma score_past_ceiling (ceiling m : Q) (k0 k : Z) :
  (ceiling = 100 /\ k0 = 200%Z) \/ (ceiling = 200 /\ k0 = 400%Z) ->
  In m multipliers -> (0 <= k <= sum_bound)%Z ->
  float_score ceiling k m = float_score ceiling (Z.min k k0) m
  /\ exact_score ceiling k m == exact_score ceiling (Z.min k k0) m.
Proof.
  intros Hc Hm Hk.
  destruct (Z.le_gt_cases k k0) as [Hle|Hgt].
  { rewrite Z.min_l by exact Hle. split; reflexivity. }
  rewrite Z.min_r by lia.
  pose proof (multipliers_at_least_one m Hm) as H1.
  assert (Hpos : 0 < ceiling) by (destruct Hc as [[-> _]|[-> _]]; reflexivity).
  assert (Hk0 : (0 <= k0 <= sum_bound)%Z)
    by (unfold sum_bound; destruct Hc as [[_ ->]|[_ ->]]; lia).
  assert (Hs0 : ceiling <= inject_Z k0 / 2 * m).
  { destruct Hc as [[-> ->]|[-> ->]].
    - change (inject_Z 200) with (200 # 1).
      setoid_replace ((200 # 1) / 2 * m) with (100 * m) by field. lra.
    - change (inject_Z 400) with (400 # 1).
      setoid_replace ((400 # 1) / 2 * m) with (200 * m) by field. lra. }
  assert (Hs : ceiling <= inject_Z k / 2 * m).
  { assert (Hq : inject_Z k0 <= inject_Z k) by (rewrite <- Zle_Qle; lia).
    apply (Qle_trans _ _ _ Hs0).
    apply Qmult_le_compat_r; [|lra].
    unfold Qdiv. apply Qmult_le_compat_r; [exact Hq|discriminate]. }
  assert (Hcc : ceiling = 100 \/ ceiling = 200) by (destruct Hc as [[-> _]|[-> _]]; auto).
  destruct (score_of_halves ceiling m k Hcc Hm Hk) as (_ & _ & _ & _ & _ & Hv).
  destruct (score_of_halves ceiling m k0 Hcc Hm Hk0) as (_ & _ & _ & _ & _ & Hv0).
  split.
  - rewrite (proj2 Hv Hs), (proj2 Hv0 Hs0). reflexivity.
  - rewrite !exact_score_saturated by assumption. reflexivity.
Qed.

Lemma risk_type_Q_compat (f f' c c' : Q) :
  f == f' -> c == c' -> risk_type f c = risk_type f' c'.
Proof.
  intros Ef Ec. unfold risk_type; cbn [ltb add lit PyNum_Q].
  assert (E : f + c == f' + c') by (rewrite Ef, Ec; reflexivity).
  rewrite (Qleb_comp _ _ E 100 100 (Qeq_refl _)).
  rewrite (Qleb_comp 100 100 (Qeq_refl _) _ _ E). reflexivity.
Qed.

Lemma risk_type_raises {N : Type} `{PyNum N} (f c : N) (e : exn) :
  risk_type f c = Raise e ->
  e = Exn ValueError (MsgRiskType (MsgUnbound "risk_value")).
Proof.
  unfold risk_type.
  destruct (ltb (lit 100) (add f c)); [discriminate|].
  destruct (ltb (add f c) (lit 100)); [discriminate|]. congruence.
Qed.

Lemma same_category_eq (f c : float) (f' c' : Q) :
  same_category (risk_type f c) (risk_type f' c') = true ->
  risk_type f c = risk_type f' c'.
Proof.
  destruct (risk_type f c) as [x|e] eqn:E1, (risk_type f' c') as [y|e'] eqn:E2;
    cbn [same_category]; try discriminate.
  - intro H. apply String.eqb_eq in H. now subst.
  - intros _. apply risk_type_raises in E1, E2. now subst.
Qed.

(** The category that [risk_type] gives on the two scores as the code
    computes them is the category of the exact scores. *)
Lemma risk_type_binary64 (its : list FloodItem) (ds : list CrimeRecord)
    (ptf ptc : string) :
  Qsum (map spec_item_score its) <= 50000 ->
  Qsum (map record_weight ds) <= 50000 ->
  exists vf vc : float,
    calculate_flood_risk {| items := Some its |} ptf = Ok vf
    /\ calculate_crime_risk ds ptc = Ok vc
    /\ risk_type vf vc = risk_type (spec_flood_score its ptf) (crime_score ds ptc).
Proof.
  intros Hbf Hbc.
  destruct (flood_risk_of_halves its ptf Hbf) as (Kf & HKf & Hten & _ & Evf & Esf).
  destruct (crime_risk_of_halves ds ptc Hbc) as (Kc & HKc & _ & Evc & Esc).
  exists (float_score 200 Kf (spec_flood_multiplier ptf)),
         (float_score 100 Kc (spec_crime_multiplier ptc)).
  split; [exact Evf|]. split; [exact Evc|].
  pose proof (proj2 (flood_multiplier_binary64 ptf)) as Hmf.
  pose proof (proj2 (crime_multiplier_binary64 ptc)) as Hmc.
  destruct (score_past_ceiling 200 (spec_flood_multiplier ptf) 400 Kf) as [Ef Eqf];
    [now right|exact Hmf|exact HKf|].
  destruct (score_past_ceiling 100 (spec_crime_multiplier ptc) 200 Kc) as [Ec Eqc];
    [now left|exact Hmc|exact HKc|].
  rewrite Ef, Ec.
  rewrite (risk_type_Q_compat _ _ _ _ (Qeq_trans _ _ _ Esf Eqf) (Qeq_trans _ _ _ Esc Eqc)).
  apply same_category_eq, category_of_halves; try assumption; try lia.
  destruct (Z.le_gt_cases Kf 400) as [Hle|Hgt].
  - now rewrite Z.min_l.
  - rewrite Z.min_r by lia. exists 40%Z. reflexivity.
Qed.

(** * The claims about the scorer *)

(** On the empty dataset both scores are 0.0 in binary64 too, whatever the
    product type. *)
Lemma empty_dataset_binary64 (pt : string) :
  calculate_crime_risk (N:=float) [] pt = Ok 0%float
  /\ calculate_flood_risk (N:=float) {| items := Some [] |} pt = Ok 0%float.
Proof.
  unfold calculate_crime_risk, calculate_flood_risk.
  cbn [items dict_get CRIME_MULTIPLIERS FLOOD_MULTIPLIERS].
  split; repeat destruct (String.eqb _ pt); vm_compute; reflexivity.
Qed.

(** C3, as stated, fails: the record whose category is the empty string is
    a category string outside the table, so the claim weighs it 1 and scores
    the one-record dataset 1 for BEAUTY; the code skips it and scores 0. *)
Lemma crime_risk_empty_category_counterexample :
  (exists v, calculate_crime_risk [record_of_category ""] "BEAUTY" = Ok v /\ v == 0)
  /\ spec_crime_score [""] "BEAUTY" == 1
  /\ ~ (exists v, calculate_crime_risk [record_of_category ""] "BEAUTY" = Ok v
                  /\ v == spec_crime_score [""] "BEAUTY").
Proof.
  split; [eexists; split; reflexivity|]. split; [reflexivity|].
  intros [v [E Hv]]. injection E as <-. revert Hv. vm_compute. discriminate.
Qed.

(** C3 (amended): for every crime dataset and product type the crime score
    is min(S/100, 1) * 100 as binary64 computes it, every operation rounded,
    where S is the sum of the records' weights times the product multiplier
    (BEAUTY 1.0, HOME 1.5, COMMERCIAL 2.0); a record weighs its table entry,
    1 for any other non-empty category string, and 0 when its category is
    absent, null or empty.  For a dataset whose weights sum to 50,000 or
    less the score is within 10^-13 of the exact value of the formula; it is
    not always that value: seven other-crime records score
    7.000000000000001 for BEAUTY.  Over exact rationals the code computes
    the exact value.  The dataset of a burglary and a drugs record scores
    exactly 6.75 for HOME. *)
Theorem calculate_crime_risk_formula :
  (forall (ds : list CrimeRecord) (pt : string),
      calculate_crime_risk (N:=float) ds pt = Ok (crime_formula ds pt))
  /\ (forall (ds : list CrimeRecord) (pt : string),
        Qsum (map record_weight ds) <= 50000 ->
        exists v q,
          calculate_crime_risk (N:=float) ds pt = Ok v
          /\ Q_of_float v = Some q
          /\ Qabs (q - crime_score ds pt) <= tolerance)
  /\ (forall (ds : list CrimeRecord) (pt : string),
        exists v, calculate_crime_risk ds pt = Ok v /\ v == crime_score ds pt)
  /\ (exists v, calculate_crime_risk burglary_drugs "HOME" = Ok v /\ v == 6.75)
  /\ calculate_crime_risk (N:=float) burglary_drugs "HOME" = Ok 6.75%float
  /\ calculate_crime_risk (N:=float) seven_other_crimes "BEAUTY"
     = Ok 0x1.c000000000001p+2%float
  /\ crime_score seven_other_crimes "BEAUTY" == 7.
Proof.
  split; [exact calculate_crime_risk_in_carrier|]. split.
  { intros ds pt Hb.
    destruct (crime_risk_binary64 ds pt Hb) as (v & q & Ev & Eq & Hnear & _).
    exists v, q. repeat split; assumption. }
  split; [exact calculate_crime_risk_score|]. split.
  { eexists; split; reflexivity. }
  split; [vm_compute; reflexivity|]. split; [vm_compute; reflexivity|].
  reflexivity.
Qed.

Lemma calculate_crime_risk_formula_witness :
  exists v q,
    calculate_crime_risk (N:=float) seven_other_crimes "BEAUTY" = Ok v
    /\ Q_of_float v = Some q
    /\ Qabs (q - crime_score seven_other_crimes "BEAUTY") <= tolerance.
Proof.
  apply (proj1 (proj2 calculate_crime_risk_formula) seven_other_crimes "BEAUTY").
  vm_compute. discriminate.
Defined.

(** C4, as stated, fails on the numbers the code computes: eleven items of
    severity 3 have S = 110 for BEAUTY and the formula gives
    min(110/200, 1) * 100 = 55, but the code returns 55.00000000000001, the
    quotient 110/200 being rounded before it is multiplied by 100. *)
Lemma flood_risk_rounding_counterexample :
  spec_flood_score eleven_level_three "BEAUTY" == 55
  /\ exists v q,
       calculate_flood_risk (N:=float) {| items := Some eleven_level_three |} "BEAUTY"
       = Ok v
       /\ v = 0x1.b800000000001p+5%float
       /\ Q_of_float v = Some q
       /\ 55 < q
       /\ ~ q == spec_flood_score eleven_level_three "BEAUTY".
Proof.
  split; [reflexivity|].
  eexists; eexists. split; [vm_compute; reflexivity|]. split; [reflexivity|].
  split; [vm_compute; reflexivity|]. split; [reflexivity|].
  vm_compute. discriminate.
Qed.

(** C4 (amended): for every flood dataset and product type the flood score
    is min(S/200, 1) * 100 as binary64 computes it, every operation rounded,
    where S is the sum of the items' scores (severity 1, 2, 3 scoring 20,
    15, 10, anything else 0, plus 10 when tidal) times the product
    multiplier (BEAUTY 1.0, COMMERCIAL 1.5, HOME 2.0).  For a dataset whose
    item scores sum to 50,000 or less the score is within 10^-13 of the
    exact value of the formula.  Over exact rationals the code computes the
    exact value.  One tidal item of severity 1 scores exactly 30.0 for
    HOME. *)
Theorem calculate_flood_risk_formula :
  (forall (its : list FloodItem) (pt : string),
      calculate_flood_risk (N:=float) {| items := Some its |} pt
      = Ok (flood_formula its pt))
  /\ (forall (its : list FloodItem) (pt : string),
        Qsum (map spec_item_score its) <= 50000 ->
        exists v q,
          calculate_flood_risk (N:=float) {| items := Some its |} pt = Ok v
          /\ Q_of_float v = Some q
          /\ Qabs (q - spec_flood_score its pt) <= tolerance)
  /\ (forall (its : list FloodItem) (pt : string),
        exists v, calculate_flood_risk {| items := Some its |} pt = Ok v
                  /\ v == spec_flood_score its pt)
  /\ (exists v, calculate_flood_risk severe_tidal "HOME" = Ok v /\ v == 30.0)
  /\ calculate_flood_risk (N:=float) severe_tidal "HOME" = Ok 30.0%float.
Proof.
  split; [exact calculate_flood_risk_in_carrier|]. split.
  { intros its pt Hb.
    destruct (flood_risk_binary64 its pt Hb) as (v & q & Ev & Eq & Hnear & _).
    exists v, q. repeat split; assumption. }
  split; [exact calculate_flood_risk_score|]. split.
  - eexists; split; reflexivity.
  - vm_compute. reflexivity.
Qed.

Lemma calculate_flood_risk_formula_witness :
  exists v q,
    calculate_flood_risk (N:=float) {| items := Some eleven_level_three |} "BEAUTY" = Ok v
    /\ Q_of_float v = Some q
    /\ Qabs (q - spec_flood_score eleven_level_three "BEAUTY") <= tolerance.
Proof.
  apply (proj1 (proj2 calculate_flood_risk_formula) eleven_level_three "BEAUTY").
  vm_compute. discriminate.
Defined.

(** C5: for every dataset and every product type, known or not, both
    scores lie between 0 and 100, and both are 0 on the empty dataset; for a
    product type outside the three named ones both functions multiply the
    sum by 1.  All of it holds over exact rationals, and on binary64 too:
    the range there for datasets whose weights or item scores sum to 50,000
    or less. *)
Theorem scores_clamped (pt : string) :
  (forall ds, exists v, calculate_crime_risk ds pt = Ok v /\ 0 <= v /\ v <= 100)
  /\ (forall its, exists v, calculate_flood_risk {| items := Some its |} pt = Ok v
                            /\ 0 <= v /\ v <= 100)
  /\ (exists v, calculate_crime_risk [] pt = Ok v /\ v == 0)
  /\ (exists v, calculate_flood_risk {| items := Some [] |} pt = Ok v /\ v == 0)
  /\ (pt <> "BEAUTY" -> pt <> "HOME" -> pt <> "COMMERCIAL" ->
      (forall ds, exists v,
          calculate_crime_risk ds pt = Ok v
          /\ v == Qmin (Qsum (map record_weight ds) * 1 / 100) 1 * 100)
      /\ (forall its, exists v,
            calculate_flood_risk {| items := Some its |} pt = Ok v
            /\ v == Qmin (Qsum (map spec_item_score its) * 1 / 200) 1 * 100)
      /\ (forall ds,
            calculate_crime_risk (N:=float) ds pt
            = Ok (normalized (lit 100)
                    (mul (sum_in_order (map weight_of (filter counted ds))) (lit 1))))
      /\ (forall its,
            calculate_flood_risk (N:=float) {| items := Some its |} pt
            = Ok (normalized (lit 200)
                    (mul (sum_in_order (map item_score its)) (lit 1)))))
  /\ (forall ds, Qsum (map record_weight ds) <= 50000 ->
        exists v q, calculate_crime_risk (N:=float) ds pt = Ok v
                    /\ Q_of_float v = Some q /\ 0 <= q /\ q <= 100)
  /\ (forall its, Qsum (map spec_item_score its) <= 50000 ->
        exists v q, calculate_flood_risk (N:=float) {| items := Some its |} pt = Ok v
                    /\ Q_of_float v = Some q /\ 0 <= q /\ q <= 100)
  /\ calculate_crime_risk (N:=float) [] pt = Ok 0%float
  /\ calculate_flood_risk (N:=float) {| items := Some [] |} pt = Ok 0%float.
Proof.
  split.
  { intro ds. destruct (calculate_crime_risk_score ds pt) as [v [E Hv]].
    exists v; split; [exact E|]. rewrite Hv. unfold crime_score.
    apply normalized_range; [reflexivity|].
    apply Qmult_le_0_compat;
      [apply Qsum_nonneg, record_weight_nonneg | apply spec_crime_multiplier_nonneg]. }
  split.
  { intro its. destruct (calculate_flood_risk_score its pt) as [v [E Hv]].
    exists v; split; [exact E|]. rewrite Hv. unfold spec_flood_score.
    apply normalized_range; [reflexivity|].
    apply Qmult_le_0_compat;
      [apply Qsum_nonneg, spec_item_score_nonneg | apply spec_flood_multiplier_nonneg]. }
  split.
  { destruct (calculate_crime_risk_score [] pt) as [v [E Hv]].
    exists v; split; [exact E|]. rewrite Hv. unfold crime_score.
    cbn [map Qsum fold_right].
    setoid_replace (0 * spec_crime_multiplier pt / 100) with 0 by field.
    reflexivity. }
  split.
  { destruct (calculate_flood_risk_score [] pt) as [v [E Hv]].
    exists v; split; [exact E|]. rewrite Hv. unfold spec_flood_score.
    cbn [map Qsum fold_right].
    setoid_replace (0 * spec_flood_multiplier pt / 200) with 0 by field.
    reflexivity. }
  split.
  { intros Hb Hh Hc.
    assert (Ec : spec_crime_multiplier pt = 1.0).
    { unfold spec_crime_multiplier.
      apply String.eqb_neq in Hb, Hh, Hc. now rewrite Hb, Hh, Hc. }
    assert (Ef : spec_flood_multiplier pt = 1.0).
    { unfold spec_flood_multiplier.
      apply String.eqb_neq in Hb, Hh, Hc. now rewrite Hb, Hh, Hc. }
    split.
    { intro ds. destruct (calculate_crime_risk_score ds pt) as [v [E Hv]].
      exists v; split; [exact E|]. rewrite Hv. unfold crime_score. rewrite Ec.
      setoid_replace 1.0 with 1 by reflexivity. reflexivity. }
    split.
    { intro its. destruct (calculate_flood_risk_score its pt) as [v [E Hv]].
      exists v; split; [exact E|]. rewrite Hv. unfold spec_flood_score. rewrite Ef.
      setoid_replace 1.0 with 1 by reflexivity. reflexivity. }
    split.
    { intro ds. rewrite calculate_crime_risk_in_carrier. unfold crime_formula.
      now rewrite (proj1 (multipliers_default pt Hb Hh Hc)). }
    { intro its. rewrite calculate_flood_risk_in_carrier. unfold flood_formula.
      now rewrite (proj2 (multipliers_default pt Hb Hh Hc)). } }
  split.
  { intros ds Hs.
    destruct (crime_risk_binary64 ds pt Hs) as (v & q & Ev & Eq & _ & Hlo & Hhi & _).
    exists v, q. repeat split; assumption. }
  split.
  { intros its Hs.
    destruct (flood_risk_binary64 its pt Hs) as (v & q & Ev & Eq & _ & Hlo & Hhi & _).
    exists v, q. repeat split; assumption. }
  apply empty_dataset_binary64.
Qed.

Lemma scores_clamped_witness :
  (forall ds, exists v, calculate_crime_risk ds "PET" = Ok v /\ 0 <= v /\ v <= 100)
  /\ (exists v, calculate_crime_risk burglary_drugs "PET" = Ok v /\ v == 4.5)
  /\ calculate_crime_risk (N:=float) burglary_drugs "PET" = Ok 4.5%float
  /\ (exists v q, calculate_crime_risk (N:=float) thirty_assaults "PET" = Ok v
                  /\ Q_of_float v = Some q /\ 0 <= q /\ q <= 100).
Proof.
  destruct (scores_clamped "PET") as (Hr & _ & _ & _ & Hu & Hb & _).
  destruct Hu as (Hq & _ & Hf & _); try discriminate.
  split; [exact Hr|]. split.
  { destruct (Hq burglary_drugs) as [v [E Hv]]. exists v; split; [exact E|].
    rewrite Hv. reflexivity. }
  split.
  { rewrite Hf. vm_compute. reflexivity. }
  apply Hb. vm_compute. discriminate.
Defined.

(** C10: a crime record whose category is absent, null or the empty
    string adds nothing to the sum, whatever the dataset around it and the
    product type, whereas a non-empty category that the table does not name
    adds the default weight 1. *)
Theorem falsy_category_contributes_nothing {N : Type} `{PyNum N}
    (ds1 ds2 : list CrimeRecord) (pt : string) :
  crime_loop (N:=N) (ds1 ++ {| category := None |} :: ds2) = crime_loop (ds1 ++ ds2)
  /\ crime_loop (N:=N) (ds1 ++ {| category := Some "" |} :: ds2) = crime_loop (ds1 ++ ds2)
  /\ calculate_crime_risk (N:=N) (ds1 ++ {| category := None |} :: ds2) pt
     = calculate_crime_risk (ds1 ++ ds2) pt
  /\ calculate_crime_risk (N:=N) (ds1 ++ {| category := Some "" |} :: ds2) pt
     = calculate_crime_risk (ds1 ++ ds2) pt
  /\ (forall c, c <> "" -> ~ In c (map fst (CRIME_WEIGHTS (N:=N))) ->
      crime_loop (N:=N) (ds1 ++ [ {| category := Some c |} ])
      = add (crime_loop ds1) (lit 1)).
Proof.
  assert (E1 : crime_loop (N:=N) (ds1 ++ {| category := None |} :: ds2) = crime_loop (ds1 ++ ds2))
    by (apply crime_loop_skip; reflexivity).
  assert (E2 : crime_loop (N:=N) (ds1 ++ {| category := Some "" |} :: ds2) = crime_loop (ds1 ++ ds2))
    by (apply crime_loop_skip; reflexivity).
  repeat split; try assumption.
  - unfold calculate_crime_risk. now rewrite E1.
  - unfold calculate_crime_risk. now rewrite E2.
  - intros c Hc Hin. unfold crime_loop. rewrite fold_left_app. cbn [fold_left].
    unfold crime_step; cbn [category].
    destruct c as [|a c]; [congruence|]. cbn [str_truthy].
    now rewrite dict_get_missing.
Qed.

Lemma falsy_category_contributes_nothing_witness :
  crime_loop (N:=Q) ([] ++ [ {| category := Some "fraud" |} ]) = add (crime_loop []) (lit 1).
Proof.
  apply (falsy_category_contributes_nothing (N:=Q) [] [] "HOME" ).
  - discriminate.
  - cbn [CRIME_WEIGHTS map fst In]. intuition discriminate.
Defined.

(** * Properties of the risk category *)

Lemma risk_type_high (f c : Q) :
  risk_type f c = Ok "HIGH_VALUE_RISK" <-> 100 < f + c.
Proof.
  unfold risk_type; cbn [ltb add lit PyNum_Q].
  destruct (Qle_bool (f + c) 100) eqn:E1; cbn [negb].
  - apply Qle_bool_iff in E1. split.
    + destruct (Qle_bool 100 (f + c)); cbn [negb]; discriminate.
    + intro L. exfalso. lra.
  - split; [intros _|reflexivity].
    destruct (Qlt_le_dec 100 (f + c)) as [L|L]; [exact L|].
    apply Qle_bool_iff in L. congruence.
Qed.

Lemma risk_type_standard (f c : Q) :
  risk_type f c = Ok "STANDARD_VALUE_RISK" <-> f + c < 100.
Proof.
  unfold risk_type; cbn [ltb add lit PyNum_Q].
  destruct (Qle_bool (f + c) 100) eqn:E1; cbn [negb].
  - apply Qle_bool_iff in E1.
    destruct (Qle_bool 100 (f + c)) eqn:E2; cbn [negb].
    + apply Qle_bool_iff in E2. split; [discriminate|]. intro L. exfalso. lra.
    + split; [intros _|reflexivity].
      destruct (Qlt_le_dec (f + c) 100) as [L|L]; [exact L|].
      apply Qle_bool_iff in L. congruence.
  - split; [discriminate|]. intro L. apply Qlt_le_weak, Qle_bool_iff in L. congruence.
Qed.

Lemma risk_type_tie (f c : Q) :
  f + c == 100 ->
  risk_type f c = Raise (Exn ValueError (MsgRiskType (MsgUnbound "risk_value"))).
Proof.
  intro E. unfold risk_type; cbn [ltb add lit PyNum_Q].
  assert (E1 : Qle_bool (f + c) 100 = true) by (apply Qle_bool_iff; lra).
  assert (E2 : Qle_bool 100 (f + c) = true) by (apply Qle_bool_iff; lra).
  now rewrite E1, E2.
Qed.

(** C2: the code at flood risk 50 and crime risk 50, whose sum is exactly
    100: neither branch binds [risk_value], and the function raises
    ValueError instead of returning a category; the same happens on binary64
    numbers. *)
Theorem risk_type_fifty_fifty :
  risk_type (N:=Q) 50 50
    = Raise (Exn ValueError (MsgRiskType (MsgUnbound "risk_value")))
  /\ risk_type (N:=float) 50%float 50%float
    = Raise (Exn ValueError (MsgRiskType (MsgUnbound "risk_value"))).
Proof. split; vm_compute; reflexivity. Qed.

(** * Properties of the clients and the orchestrator *)

(** A successful assessment went through the five steps in order; the
    crime score it returns is the HOME score of the dataset it fetched. *)
Lemma orchestrator_steps (net : upstream) (VERSION : Z) (pc pt ts : string)
    (w w' : world) (r : location_risks) :
  calculate_location_risks net VERSION pc pt ts w = (Ok r, w') ->
  exists latitude longitude w1 w2 w3 flood_data crime_data,
    get_long_lat net VERSION pc w = (Ok (LatLong latitude longitude), w1)
    /\ get_flood_data_for_location net VERSION latitude longitude 50 w1 = (Ok flood_data, w2)
    /\ get_crimes_for_location net VERSION ts latitude longitude w2 = (Ok crime_data, w3)
    /\ calculate_flood_risk flood_data pt = Ok (flood_risk r)
    /\ calculate_crime_risk crime_data "HOME" = Ok (crime_risk r)
    /\ w' = w3.
Proof.
  unfold calculate_location_risks.
  destruct (negb (str_truthy pc) || negb (str_truthy pt) || negb (str_truthy ts));
    [discriminate|].
  unfold try_except, bind, lift, ret, raise.
  destruct (get_long_lat net VERSION pc w) as [[[|x|latitude longitude]|e] w1] eqn:Eg;
    try discriminate.
  destruct (get_flood_data_for_location net VERSION latitude longitude 50 w1)
    as [[flood_data|e] w2] eqn:Efd; try discriminate.
  destruct (calculate_flood_risk flood_data pt) as [flood|e] eqn:Ef; try discriminate.
  destruct (get_crimes_for_location net VERSION ts latitude longitude w2)
    as [[crime_data|e] w3] eqn:Ec; try discriminate.
  cbn. intro E. injection E as <- <-.
  exists latitude, longitude, w1, w2, w3, flood_data, crime_data.
  cbn [flood_risk crime_risk]. repeat split; assumption || reflexivity.
Qed.

(** Two assessments from the same world that differ only in the product
    type return the same crime risk. *)
Lemma crime_risk_ignores_product_type (net : upstream) (VERSION : Z)
    (pc pt1 pt2 ts : string) (w w1 w2 : world) (r1 r2 : location_risks) :
  calculate_location_risks net VERSION pc pt1 ts w = (Ok r1, w1) ->
  calculate_location_risks net VERSION pc pt2 ts w = (Ok r2, w2) ->
  crime_risk r1 = crime_risk r2.
Proof.
  intros H1 H2.
  apply orchestrator_steps in H1, H2.
  destruct H1 as (la1 & lo1 & a1 & b1 & c1 & fd1 & cd1 & G1 & F1 & C1 & _ & S1 & _).
  destruct H2 as (la2 & lo2 & a2 & b2 & c2 & fd2 & cd2 & G2 & F2 & C2 & _ & S2 & _).
  rewrite G1 in G2. injection G2 as <- <- <-.
  rewrite F1 in F2. injection F2 as <- <-.
  rewrite C1 in C2. injection C2 as <- <-.
  rewrite S1 in S2. now injection S2.
Qed.

(** C1: the orchestrator on a COMMERCIAL quote, with an upstream that
    reports one burglary: it returns crime risk 4.5, the HOME score of the
    dataset, where the COMMERCIAL score that the request calls for is 6. *)
Theorem calculate_location_risks_commercial :
  exists r w v,
    calculate_location_risks sample_upstream 1 "SW1A 1AA" "COMMERCIAL"
      "2024-01-25 10:00:00" empty_world = (Ok r, w)
    /\ crime_risk r == 4.5
    /\ calculate_crime_risk [ {| category := Some "burglary" |} ] "COMMERCIAL" = Ok v
    /\ v == 6
    /\ calculate_crime_risk [ {| category := Some "burglary" |} ] "HOME"
       = Ok (crime_risk r).
Proof.
  do 3 eexists. split; [vm_compute; reflexivity|].
  cbn [crime_risk]. split; [reflexivity|]. split; [reflexivity|].
  split; [reflexivity|]. vm_compute. reflexivity.
Qed.

(** ** Coordinate resolver *)

(** A cache miss always costs one network call. *)
Lemma get_long_lat_miss_sends (net : upstream) (rp key : string)
    (w w' : world) (res : result coords) :
  get_long_lat_miss net rp key w = (res, w') ->
  requests w' = GetPostcode rp :: requests w.
Proof.
  unfold get_long_lat_miss, bind, requests_get.
  destruct (postcodes_io net _ rp) as [|st data]; cbn.
  - intro E; injection E as _ <-; reflexivity.
  - destruct (st =? 200)%Z; cbn.
    + destruct (result_longitude data), (result_latitude data); cbn;
        intro E; injection E as _ <-; reflexivity.
    + intro E; injection E as _ <-; reflexivity.
Qed.

Lemma cons_not_self {A} (x : A) (l : list A) : x :: l <> l.
Proof.
  induction l as [|y l IH] in x |- *; intro E; [discriminate|].
  injection E as -> E. now apply (IH y).
Qed.

(** A resolution that makes no network call returns the cached value,
    which is a bare number and never a pair of coordinates. *)
Lemma get_long_lat_offline (net : upstream) (VERSION : Z) (rp : string)
    (w w' : world) (r : coords) :
  get_long_lat net VERSION rp w = (Ok r, w') ->
  requests w' = requests w ->
  exists v, r = BareNumber v.
Proof.
  unfold get_long_lat, try_except, get_long_lat_try, bind, cache_lookup.
  assert (Hmiss : forall key,
             (let (res, w1) := get_long_lat_miss net rp key w in
              match res with
              | Ok a => (Ok a, w1)
              | Raise e =>
                  (match exn_class e with
                   | RequestException =>
                       raise (Exn ConnectionError (MsgLocationNetwork rp))
                   | _ => raise e
                   end) w1
              end) = (Ok r, w') ->
             requests w' = requests w -> False).
  { intros key. destruct (get_long_lat_miss net rp key w) as [res w1] eqn:Em.
    apply get_long_lat_miss_sends in Em.
    destruct res as [a|e].
    - intro E; injection E as _ <-. rewrite Em. apply cons_not_self.
    - destruct (exn_class e); discriminate. }
  destruct (cache_get _ _ _ _ _) as [v|].
  - destruct (negb (Qeq_bool v 0)).
    + cbn. intros E _. injection E as <- _. now exists v.
    + intros E Hreq. exfalso. eapply Hmiss; eassumption.
  - intros E Hreq. exfalso. eapply Hmiss; eassumption.
Qed.

(** C6: the resolver on postcode SW1A 1AA, resolved twice one minute apart
    with the cache at its default version 1 and an upstream that answers
    200: the second resolution calls the network again.  The entry written
    by the first one holds the latitude alone, in the slot of version 86400,
    with the longitude as its lifetime. *)
Theorem resolve_twice_calls_network_twice :
  resolve_twice sample_upstream 1 "SW1A 1AA" 60 empty_world
  = (Ok (LatLong palace_latitude palace_longitude),
     Ok (LatLong palace_latitude palace_longitude),
     [GetPostcode "SW1A 1AA"; GetPostcode "SW1A 1AA"])
  /\ (exists w1,
        get_long_lat sample_upstream 1 "SW1A 1AA" empty_world
        = (Ok (LatLong palace_latitude palace_longitude), w1)
        /\ cache_postcodes w1
           = [ {| ce_version := CACHE_TIMEOUT; ce_key := "SW1A1AA";
                  ce_value := palace_latitude;
                  ce_expiry := 0 + palace_longitude |} ]
        /\ postcode_hit 1 "SW1A 1AA" (elapse 60 w1) = false).
Proof.
  split; [vm_compute; reflexivity|].
  eexists. split; [vm_compute; reflexivity|]. split; reflexivity.
Qed.

Example resolve_twice_bare_latitude :
  resolve_twice norwich_upstream CACHE_TIMEOUT "NR1 1AA" 1 empty_world
  = (Ok (LatLong 52.63 1.3), Ok (BareNumber 52.63), [GetPostcode "NR1 1AA"]).
Proof. vm_compute. reflexivity. Qed.

(** C9: when the cache does not serve the postcode and the lookup service
    answers 200 with a body that lacks the latitude or the longitude,
    [get_long_lat] returns None without raising, after its one network call
    and without writing to the cache; the orchestrator, which unpacks the
    result into a pair, then fails on the unpacking. *)
Theorem get_long_lat_missing_field (net : upstream) (VERSION : Z)
    (rp : string) (w : world) (data : PostcodeBody) :
  postcode_hit VERSION rp w = false ->
  postcodes_io net (List.length (requests w)) rp = Response 200 data ->
  result_latitude data = None \/ result_longitude data = None ->
  get_long_lat net VERSION rp w = (Ok NoCoords, sent (GetPostcode rp) w)
  /\ (forall pt ts, rp <> "" -> pt <> "" -> ts <> "" ->
      calculate_location_risks net VERSION rp pt ts w
      = (Raise (Exn ValueError (MsgLocationRisks MsgCannotUnpack)),
         sent (GetPostcode rp) w)).
Proof.
  intros Hhit Hnet Hmissing.
  assert (Hmiss : get_long_lat_miss net rp (normalize_postcode rp) w
                  = (Ok NoCoords, sent (GetPostcode rp) w)).
  { unfold get_long_lat_miss, bind, requests_get. rewrite Hnet. cbn.
    destruct Hmissing as [E|E]; rewrite E;
      destruct (result_longitude data); try destruct (result_latitude data);
      first [reflexivity | discriminate]. }
  assert (Hget : get_long_lat net VERSION rp w = (Ok NoCoords, sent (GetPostcode rp) w)).
  { unfold get_long_lat, try_except, get_long_lat_try, bind, cache_lookup.
    unfold postcode_hit in Hhit.
    destruct (cache_get _ _ _ _ _) as [v|].
    - rewrite Hhit. now rewrite Hmiss.
    - now rewrite Hmiss. }
  split; [exact Hget|].
  intros pt ts Hrp Hpt Hts. unfold calculate_location_risks.
  destruct rp as [|a rp']; [congruence|].
  destruct pt as [|b pt']; [congruence|].
  destruct ts as [|c ts']; [congruence|].
  cbn [str_truthy negb orb]. unfold try_except, bind.
  now rewrite Hget.
Qed.

Lemma get_long_lat_missing_field_witness :
  get_long_lat no_longitude_upstream 1 "JE2 3AB" empty_world
  = (Ok NoCoords, sent (GetPostcode "JE2 3AB") empty_world)
  /\ calculate_location_risks no_longitude_upstream 1 "JE2 3AB" "HOME" "2024-01-25" empty_world
     = (Raise (Exn ValueError (MsgLocationRisks MsgCannotUnpack)),
        sent (GetPostcode "JE2 3AB") empty_world).
Proof.
  destruct (get_long_lat_missing_field no_longitude_upstream 1 "JE2 3AB" empty_world
              {| result_latitude := Some 49.2; result_longitude := None |})
    as [Hget Hcall].
  - reflexivity.
  - reflexivity.
  - right; reflexivity.
  - split; [exact Hget|]. apply Hcall; discriminate.
Defined.

(** ** Crime data client *)

(** A time stamp that does not parse fails at once: the world is left as
    it was, no request is sent and nothing is cached. *)
Lemma get_crimes_unparsed (net : upstream) (VERSION : Z) (ts : string)
    (lat long : Q) (w : world) :
  normalize_timestamp ts = None ->
  get_crimes_for_location net VERSION ts lat long w
  = (Raise (Exn ValueError (MsgInvalidDate ts)), w).
Proof.
  intro E. unfold get_crimes_for_location, try_except, get_crimes_try.
  now rewrite E.
Qed.

(** A network failure on a cache miss surfaces as ConnectionError. *)
Lemma get_crimes_network_failure (net : upstream) (VERSION : Z) (ts : string)
    (d : YearMonth) (lat long : Q) (w : world) :
  normalize_timestamp ts = Some d ->
  crimes_hit VERSION d lat long w = false ->
  police_uk net (List.length (requests w)) d lat long = NetFailure ->
  get_crimes_for_location net VERSION ts lat long w
  = (Raise (Exn ConnectionError (MsgCrimeNetwork lat long)),
     sent (GetCrimes d lat long) w).
Proof.
  intros E Hhit Hnet.
  unfold get_crimes_for_location, try_except, get_crimes_try. rewrite E.
  unfold bind, cache_lookup, crimes_hit in *.
  destruct (cache_get _ _ _ _ _) as [[|c cs]|]; try discriminate;
    unfold requests_get; rewrite Hnet; reflexivity.
Qed.

(** A response other than 200 on a cache miss raises the "could not get
    crimes" ValueError inside the [try] block, and the [except ValueError]
    clause replaces it by the error of a time stamp that does not parse. *)
Lemma get_crimes_bad_status (net : upstream) (VERSION : Z) (ts : string)
    (d : YearMonth) (lat long : Q) (w : world) (status : Z)
    (data : list CrimeRecord) :
  normalize_timestamp ts = Some d ->
  crimes_hit VERSION d lat long w = false ->
  police_uk net (List.length (requests w)) d lat long = Response status data ->
  status <> 200%Z ->
  get_crimes_try net VERSION ts lat long w
  = (Raise (Exn ValueError (MsgNoCrimes d long lat status)),
     sent (GetCrimes d lat long) w)
  /\ get_crimes_for_location net VERSION ts lat long w
     = (Raise (Exn ValueError (MsgInvalidDate ts)), sent (GetCrimes d lat long) w).
Proof.
  intros E Hhit Hnet Hstatus.
  apply Z.eqb_neq in Hstatus.
  assert (Htry : get_crimes_try net VERSION ts lat long w
                 = (Raise (Exn ValueError (MsgNoCrimes d long lat status)),
                    sent (GetCrimes d lat long) w)).
  { unfold get_crimes_try. rewrite E.
    unfold bind, cache_lookup, crimes_hit in *.
    destruct (cache_get _ _ _ _ _) as [[|c cs]|]; try discriminate;
      unfold requests_get; rewrite Hnet, Hstatus; reflexivity. }
  split; [exact Htry|].
  unfold get_crimes_for_location, try_except. now rewrite Htry.
Qed.

(** C7: the crime client with a valid time stamp and an upstream that
    answers 500: after its network call it raises ValueError "Invalid date
    format ..", the very error (class and text) that it raises, before any
    call, for a time stamp that does not parse. *)
Theorem get_crimes_status_500_as_invalid_date :
  get_crimes_for_location failing_police_upstream 1 "2024-01-25 10:00:00"
    palace_latitude palace_longitude empty_world
  = (Raise (Exn ValueError (MsgInvalidDate "2024-01-25 10:00:00")),
     sent (GetCrimes {| ym_year := 2024; ym_month := 1 |}
             palace_latitude palace_longitude) empty_world)
  /\ get_crimes_for_location failing_police_upstream 1 "25/01/2024"
       palace_latitude palace_longitude empty_world
     = (Raise (Exn ValueError (MsgInvalidDate "25/01/2024")), empty_world).
Proof. split; vm_compute; reflexivity. Qed.

(** * Properties of the retry wrapper *)

Section RetryFacts.
Context {St Resp Err : Type}.
Variable func : St -> (Err + Resp) * St.
Variable log_call : Resp -> St -> St.
Variables max_retries backoff_factor : Z.

Lemma retry_loop_runs (fuel : nat) :
  forall (attempt wait_time : Z) (s : St),
    (0 <= backoff_factor)%Z -> (0 <= wait_time)%Z ->
    (Z.max 0 (max_retries - attempt) < Z.of_nat fuel)%Z ->
    exists r,
      retry_loop func log_call max_retries backoff_factor fuel attempt wait_time s = Some r
      /\ (Z.of_nat (List.length (run_attempts r)) <= Z.max 0 (max_retries - attempt))%Z
      /\ run_sleeps r
         = backoff_schedule backoff_factor wait_time (List.length (run_sleeps r))
      /\ run_ends_well (max_retries - attempt) r.
Proof.
  induction fuel as [|fuel IH]; intros attempt wait_time s Hb Hw Hfuel.
  - exfalso. cbn in Hfuel. lia.
  - cbn [retry_loop].
    destruct (Z.ltb_spec attempt max_retries) as [Hlt|Hge].
    + destruct (func s) as [[e|response] s'].
      * destruct (Z.geb_spec (attempt + 1) max_retries) as [Hlast|Hmore].
        -- eexists; split; [reflexivity|]. cbn. repeat split; try lia.
           exists []. cbn. repeat split; lia.
        -- destruct (Z.ltb_spec wait_time 0) as [Hneg|_]; [lia|].
           destruct (IH (attempt + 1)%Z (wait_time * backoff_factor)%Z s')
             as [r [Er [Hlen [Hsl Hend]]]]; [assumption|nia|lia|].
           rewrite Er. eexists; split; [reflexivity|].
           cbn [attempted slept run_attempts run_sleeps run_outcome List.length].
           split; [lia|]. split; [cbn [backoff_schedule]; now rewrite <- Hsl|].
           unfold run_ends_well in *.
           cbn [attempted slept run_attempts run_sleeps run_outcome].
           destruct (run_outcome r) as [[response|]|e'|].
           ++ destruct Hend as [errs [Ha Hs]]. exists (e :: errs).
              rewrite Ha. cbn. split; [reflexivity|lia].
           ++ destruct Hend as [_ [_ Hbud]]. lia.
           ++ destruct Hend as [errs [Ha [Hs Hbud]]]. exists (e :: errs).
              rewrite Ha. cbn. repeat split; try lia.
              rewrite Ha in Hbud. cbn in Hbud. rewrite length_app in *. cbn in *.
              rewrite length_map in *. lia.
           ++ exact Hend.
      * eexists; split; [reflexivity|]. cbn. repeat split; try lia.
        exists []. cbn. split; reflexivity.
    + eexists; split; [reflexivity|]. cbn. repeat split; lia.
Qed.

End RetryFacts.

Lemma backoff_schedule_nth (b : Z) (n : nat) :
  forall (w : Z) (i : nat) (t : Z),
    nth_error (backoff_schedule b w n) i = Some t -> t = (w * b ^ Z.of_nat i)%Z.
Proof.
  induction n as [|n IH]; intros w i t; cbn [backoff_schedule].
  - destruct i; discriminate.
  - destruct i as [|i]; cbn [nth_error].
    + intro E; injection E as <-. cbn. lia.
    + intro E. apply IH in E. subst t.
      rewrite Nat2Z.inj_succ, Z.pow_succ_r by lia. ring.
Qed.

(** C8: for every wrapped operation, with a retry count and a backoff
    factor that are not negative, the wrapper returns, having called the
    operation at most [max_retries] times; its waits are 1, then each time
    the one before times the backoff factor; a wait follows every failed
    attempt except the [max_retries]-th, after which the error of that
    attempt is raised as it is; and with 3 retries and factor 2 an operation
    that fails twice and then succeeds yields its response after waits of 1
    and 2 seconds, 3 in all. *)
Theorem log_api_call_retries {St Resp Err : Type}
    (func : St -> (Err + Resp) * St) (log_call : Resp -> St -> St)
    (max_retries backoff_factor : Z) (s : St) :
  (0 <= max_retries)%Z -> (0 <= backoff_factor)%Z ->
  exists r,
    wrapper func log_call max_retries backoff_factor s = Some r
    /\ (Z.of_nat (List.length (run_attempts r)) <= max_retries)%Z
    /\ (forall i t, nth_error (run_sleeps r) i = Some t
                    -> t = (backoff_factor ^ Z.of_nat i)%Z)
    /\ run_ends_well max_retries r
    /\ (forall e, run_outcome r = Raised e ->
          last (run_attempts r) (inl e) = inl e
          /\ Z.of_nat (List.length (run_attempts r)) = max_retries
          /\ S (List.length (run_sleeps r)) = List.length (run_attempts r))
    /\ (max_retries = 3%Z -> backoff_factor = 2%Z ->
        forall e1 e2 response s1 s2 s3,
          func s = (inl e1, s1) -> func s1 = (inl e2, s2) ->
          func s2 = (inr response, s3) ->
          run_outcome r = Returned (Some response)
          /\ run_attempts r = [inl e1; inl e2; inr response]
          /\ run_sleeps r = [1; 2]%Z
          /\ Zsum (run_sleeps r) = 3%Z).
Proof.
  intros Hm Hb.
  destruct (retry_loop_runs func log_call max_retries backoff_factor
              (S (Z.to_nat max_retries)) 0%Z 1%Z s)
    as [r [Er [Hlen [Hsl Hend]]]]; try lia.
  rewrite Z.sub_0_r in *.
  exists r. split; [exact Er|]. split; [lia|]. split.
  { intros i t E. rewrite Hsl in E. apply backoff_schedule_nth in E. lia. }
  split; [exact Hend|]. split.
  { intros e Ho. unfold run_ends_well in Hend. rewrite Ho in Hend.
    destruct Hend as [errs [Ha [Hs Hbud]]]. rewrite Ha.
    rewrite last_last. split; [reflexivity|]. split.
    - rewrite <- Hbud, Ha. reflexivity.
    - rewrite Hs, length_app, length_map. cbn. lia. }
  intros -> -> e1 e2 response s1 s2 s3 H1 H2 H3.
  unfold wrapper in Er. change (Z.to_nat 3) with 3%nat in Er.
  cbn in Er. rewrite H1 in Er. cbn in Er.
  rewrite H2 in Er. cbn in Er. rewrite H3 in Er.
  injection Er as <-. cbn. repeat split; reflexivity.
Qed.

Lemma log_api_call_retries_witness :
  exists r,
    wrapper flaky_view (fun _ s => s) 3 2 0%nat = Some r
    /\ run_outcome r = Returned (Some "200 OK")
    /\ run_sleeps r = [1; 2]%Z
    /\ Zsum (run_sleeps r) = 3%Z.
Proof.
  destruct (log_api_call_retries flaky_view (fun _ s => s) 3 2 0%nat)
    as [r [Er [_ [_ [_ [_ Hscenario]]]]]]; [lia|lia|].
  exists r. split; [exact Er|].
  destruct (Hscenario eq_refl eq_refl "timeout" "timeout" "200 OK" 1%nat 2%nat 3%nat)
    as [Ho [_ [Hs Ht]]]; try reflexivity.
  repeat split; assumption.
Defined.


(** With a negative backoff factor the second wait is negative,
    [time.sleep] refuses it, and its ValueError leaves the wrapper. *)
Example negative_backoff_refused :
  option_map (fun r => (run_outcome r, run_attempts r, run_sleeps r))
    (wrapper failing_view (fun _ s => s) 3 (-2) 0%nat)
  = Some (SleepRefused, [inl "timeout"; inl "timeout"], [1; -2]%Z).
Proof. reflexivity. Qed.

(** All attempts fail: the error of the third one is raised, after waits
    of 1 and 2. *)
Example three_failures_raise :
  option_map (fun r => (run_outcome r, List.length (run_attempts r), run_sleeps r))
    (wrapper failing_view (fun _ s => s) 3 2 0%nat)
  = Some (Raised "timeout", 3%nat, [1; 2]%Z).
Proof. reflexivity. Qed.

(** * Further properties of the scorer *)

Lemma normalized_mono (x y ceiling : Q) :
  0 < ceiling -> x <= y ->
  Qmin (x / ceiling) 1 * 100 <= Qmin (y / ceiling) 1 * 100.
Proof.
  intros Hc Hxy.
  assert (Hd : x / ceiling <= y / ceiling).
  { unfold Qdiv. apply Qmult_le_compat_r; [exact Hxy|].
    apply Qlt_le_weak, Qinv_lt_0_compat, Hc. }
  assert (Hm : Qmin (x / ceiling) 1 <= Qmin (y / ceiling) 1).
  { apply Q.min_glb.
    - eapply Qle_trans; [apply Q.le_min_l | exact Hd].
    - apply Q.le_min_r. }
  lra.
Qed.

Lemma crime_sum_nonneg (ds : list CrimeRecord) : 0 <= Qsum (map record_weight ds).
Proof. apply Qsum_nonneg, record_weight_nonneg. Qed.

Lemma flood_sum_nonneg (its : list FloodItem) : 0 <= Qsum (map spec_item_score its).
Proof. apply Qsum_nonneg, spec_item_score_nonneg. Qed.

Lemma crime_score_by_multiplier (ds : list CrimeRecord) (pt1 pt2 : string) :
  spec_crime_multiplier pt1 <= spec_crime_multiplier pt2 ->
  crime_score ds pt1 <= crime_score ds pt2.
Proof.
  intro Hm. unfold crime_score. apply normalized_mono; [reflexivity|].
  pose proof (crime_sum_nonneg ds) as Hs. nra.
Qed.

Lemma flood_score_by_multiplier (its : list FloodItem) (pt1 pt2 : string) :
  spec_flood_multiplier pt1 <= spec_flood_multiplier pt2 ->
  spec_flood_score its pt1 <= spec_flood_score its pt2.
Proof.
  intro Hm. unfold spec_flood_score. apply normalized_mono; [reflexivity|].
  pose proof (flood_sum_nonneg its) as Hs. nra.
Qed.

Lemma Qsum_app (l1 l2 : list Q) : Qsum (l1 ++ l2) == Qsum l1 + Qsum l2.
Proof.
  unfold Qsum. induction l1 as [|x l1 IH]; cbn [app fold_right].
  - ring.
  - rewrite IH. ring.
Qed.

Lemma Qsum_permutation (l1 l2 : list Q) : Permutation l1 l2 -> Qsum l1 == Qsum l2.
Proof.
  unfold Qsum.
  induction 1 as [|x l l' _ IH|x y l|l l' l'' _ IH1 _ IH2]; cbn [fold_right].
  - reflexivity.
  - now rewrite IH.
  - ring.
  - now rewrite IH1.
Qed.

(** X1: for one and the same dataset the crime score of a COMMERCIAL quote
    is at least that of a HOME quote, which is at least that of a BEAUTY
    quote; a product type that the table does not name scores as BEAUTY. *)
Theorem crime_risk_product_order (ds : list CrimeRecord) (pt : string) :
  exists b h c u,
    calculate_crime_risk ds "BEAUTY" = Ok b
    /\ calculate_crime_risk ds "HOME" = Ok h
    /\ calculate_crime_risk ds "COMMERCIAL" = Ok c
    /\ calculate_crime_risk ds pt = Ok u
    /\ b <= h /\ h <= c
    /\ (pt <> "HOME" -> pt <> "COMMERCIAL" -> u == b).
Proof.
  destruct (calculate_crime_risk_score ds "BEAUTY") as [b [Eb Hb]].
  destruct (calculate_crime_risk_score ds "HOME") as [h [Eh Hh]].
  destruct (calculate_crime_risk_score ds "COMMERCIAL") as [c [Ec Hc]].
  destruct (calculate_crime_risk_score ds pt) as [u [Eu Hu]].
  exists b, h, c, u. repeat split; try assumption.
  - rewrite Hb, Hh. apply crime_score_by_multiplier. vm_compute. discriminate.
  - rewrite Hh, Hc. apply crime_score_by_multiplier. vm_compute. discriminate.
  - intros H1 H2. rewrite Hu, Hb. unfold crime_score, spec_crime_multiplier.
    destruct (String.eqb_spec pt "BEAUTY") as [->|_]; [reflexivity|].
    destruct (String.eqb_spec pt "HOME") as [->|_]; [congruence|].
    destruct (String.eqb_spec pt "COMMERCIAL") as [->|_]; [congruence|].
    reflexivity.
Qed.

Lemma crime_risk_product_order_witness :
  exists b u,
    calculate_crime_risk burglary_drugs "BEAUTY" = Ok b
    /\ calculate_crime_risk burglary_drugs "PET" = Ok u
    /\ u == b.
Proof.
  destruct (crime_risk_product_order burglary_drugs "PET")
    as (b & h & c & u & Eb & _ & _ & Eu & _ & _ & Hu).
  exists b, u. repeat split; try assumption. apply Hu; discriminate.
Defined.

(** X2: for one and the same flood dataset the flood score of a HOME quote
    is at least that of a COMMERCIAL quote, which is at least that of a
    BEAUTY quote: the order of the crime multipliers, reversed. *)
Theorem flood_risk_product_order (its : list FloodItem) :
  exists b c h,
    calculate_flood_risk {| items := Some its |} "BEAUTY" = Ok b
    /\ calculate_flood_risk {| items := Some its |} "COMMERCIAL" = Ok c
    /\ calculate_flood_risk {| items := Some its |} "HOME" = Ok h
    /\ b <= c /\ c <= h.
Proof.
  destruct (calculate_flood_risk_score its "BEAUTY") as [b [Eb Hb]].
  destruct (calculate_flood_risk_score its "COMMERCIAL") as [c [Ec Hc]].
  destruct (calculate_flood_risk_score its "HOME") as [h [Eh Hh]].
  exists b, c, h. repeat split; try assumption.
  - rewrite Hb, Hc. apply flood_score_by_multiplier. vm_compute. discriminate.
  - rewrite Hc, Hh. apply flood_score_by_multiplier. vm_compute. discriminate.
Qed.

(** X3: more records never lower a score: the score of a dataset with
    further records added, at the front or at the back, is at least the
    score of the dataset, for crime and for flood and for every product type. *)
Theorem scores_grow_with_records (pt : string)
    (before ds after : list CrimeRecord) (before' its after' : list FloodItem) :
  exists v v' f f',
    calculate_crime_risk ds pt = Ok v
    /\ calculate_crime_risk (before ++ ds ++ after)%list pt = Ok v'
    /\ calculate_flood_risk {| items := Some its |} pt = Ok f
    /\ calculate_flood_risk {| items := Some (before' ++ its ++ after')%list |} pt = Ok f'
    /\ v <= v' /\ f <= f'.
Proof.
  destruct (calculate_crime_risk_score ds pt) as [v [Ev Hv]].
  destruct (calculate_crime_risk_score (before ++ ds ++ after)%list pt) as [v' [Ev' Hv']].
  destruct (calculate_flood_risk_score its pt) as [f [Ef Hf]].
  destruct (calculate_flood_risk_score (before' ++ its ++ after')%list pt) as [f' [Ef' Hf']].
  exists v, v', f, f'. repeat split; try assumption.
  - rewrite Hv, Hv'. unfold crime_score. apply normalized_mono; [reflexivity|].
    rewrite !map_app, !Qsum_app.
    pose proof (crime_sum_nonneg before). pose proof (crime_sum_nonneg after).
    pose proof (spec_crime_multiplier_nonneg pt). nra.
  - rewrite Hf, Hf'. unfold spec_flood_score. apply normalized_mono; [reflexivity|].
    rewrite !map_app, !Qsum_app.
    pose proof (flood_sum_nonneg before'). pose proof (flood_sum_nonneg after').
    pose proof (spec_flood_multiplier_nonneg pt). nra.
Qed.

(** X4: the scores do not depend on the order of the records: two crime
    datasets, or two flood datasets, that are permutations of each other
    score the same. *)
Theorem scores_ignore_order (pt : string)
    (ds ds' : list CrimeRecord) (its its' : list FloodItem) :
  Permutation ds ds' -> Permutation its its' ->
  exists v v' f f',
    calculate_crime_risk ds pt = Ok v
    /\ calculate_crime_risk ds' pt = Ok v'
    /\ calculate_flood_risk {| items := Some its |} pt = Ok f
    /\ calculate_flood_risk {| items := Some its' |} pt = Ok f'
    /\ v == v' /\ f == f'.
Proof.
  intros Pd Pi.
  destruct (calculate_crime_risk_score ds pt) as [v [Ev Hv]].
  destruct (calculate_crime_risk_score ds' pt) as [v' [Ev' Hv']].
  destruct (calculate_flood_risk_score its pt) as [f [Ef Hf]].
  destruct (calculate_flood_risk_score its' pt) as [f' [Ef' Hf']].
  exists v, v', f, f'. repeat split; try assumption.
  - rewrite Hv, Hv'. unfold crime_score.
    rewrite (Qsum_permutation _ _ (Permutation_map record_weight Pd)). reflexivity.
  - rewrite Hf, Hf'. unfold spec_flood_score.
    rewrite (Qsum_permutation _ _ (Permutation_map spec_item_score Pi)). reflexivity.
Qed.

Lemma scores_ignore_order_witness :
  exists v v',
    calculate_crime_risk burglary_drugs "HOME" = Ok v
    /\ calculate_crime_risk (rev burglary_drugs) "HOME" = Ok v'
    /\ v == v'.
Proof.
  destruct (scores_ignore_order "HOME" burglary_drugs (rev burglary_drugs) [] [])
    as (v & v' & _ & _ & Ev & Ev' & _ & _ & Hv & _).
  - apply Permutation_rev.
  - apply perm_nil.
  - exists v, v'. repeat split; assumption.
Defined.

(** X5: the scores as the code computes them in binary64, for datasets
    whose weights and item scores sum to 50,000 or less.  The crime score is
    100.0 exactly when the weighted sum times the multiplier has reached
    100, and the flood score exactly when it has reached 200; below the
    ceiling the crime score is that product, and the flood score half of it,
    to within 10^-13. *)
Theorem scores_saturate (pt : string) (ds : list CrimeRecord) (its : list FloodItem) :
  Qsum (map record_weight ds) <= 50000 ->
  Qsum (map spec_item_score its) <= 50000 ->
  exists (v f : float) (qv qf : Q),
    calculate_crime_risk ds pt = Ok v
    /\ calculate_flood_risk {| items := Some its |} pt = Ok f
    /\ Q_of_float v = Some qv
    /\ Q_of_float f = Some qf
    /\ (v = 100%float <-> 100 <= Qsum (map record_weight ds) * spec_crime_multiplier pt)
    /\ (Qsum (map record_weight ds) * spec_crime_multiplier pt <= 100 ->
        Qabs (qv - Qsum (map record_weight ds) * spec_crime_multiplier pt) <= tolerance)
    /\ (f = 100%float <-> 200 <= Qsum (map spec_item_score its) * spec_flood_multiplier pt)
    /\ (Qsum (map spec_item_score its) * spec_flood_multiplier pt <= 200 ->
        Qabs (qf - Qsum (map spec_item_score its) * spec_flood_multiplier pt / 2)
        <= tolerance).
Proof.
  intros Hc Hf.
  destruct (crime_risk_binary64 ds pt Hc) as (v & qv & Ev & Eqv & Hnv & _ & _ & Hsv).
  destruct (flood_risk_binary64 its pt Hf) as (f & qf & Ef & Eqf & Hnf & _ & _ & Hsf).
  exists v, f, qv, qf.
  split; [exact Ev|]. split; [exact Ef|]. split; [exact Eqv|]. split; [exact Eqf|].
  unfold crime_score in Hnv. unfold spec_flood_score in Hnf.
  set (S := Qsum (map record_weight ds) * spec_crime_multiplier pt) in *.
  set (F := Qsum (map spec_item_score its) * spec_flood_multiplier pt) in *.
  split; [exact Hsv|]. split.
  { intro H.
    assert (E : Qmin (S / 100) 1 * 100 == S).
    { rewrite Q.min_l; [field|]. apply Qle_shift_div_r; [reflexivity|lra]. }
    now rewrite E in Hnv. }
  split; [exact Hsf|].
  intro H.
  assert (E : Qmin (F / 200) 1 * 100 == F / 2).
  { rewrite Q.min_l; [field|]. apply Qle_shift_div_r; [reflexivity|lra]. }
  now rewrite E in Hnf.
Qed.

Lemma scores_saturate_witness :
  calculate_crime_risk (N:=float) thirty_assaults "HOME" = Ok 100%float.
Proof.
  destruct (scores_saturate "HOME" thirty_assaults [])
    as (v & f & qv & qf & Ev & _ & _ & _ & Hcap & _).
  - vm_compute. discriminate.
  - vm_compute. discriminate.
  - rewrite Ev. f_equal. apply Hcap. vm_compute. discriminate.
Defined.

(** * Further properties of the risk category and the validity window *)

(** X6: on the two scores as the code computes them in binary64, for
    datasets whose item scores and weights sum to 50,000 or less, [risk_type]
    answers HIGH_VALUE_RISK exactly when the exact scores add up to more
    than 100 and STANDARD_VALUE_RISK exactly when to less; it raises its
    ValueError exactly when they add up to 100; it returns no other label.
    The rounding of the scores never changes the answer.  On numbers that
    are no scores it is the rounded sum that decides: 50.000000000000007 and
    50.0 add up to 100.0 in binary64, and [risk_type] raises on them. *)
Theorem risk_type_cases (its : list FloodItem) (ds : list CrimeRecord)
    (flood_product crime_product : string) :
  Qsum (map spec_item_score its) <= 50000 ->
  Qsum (map record_weight ds) <= 50000 ->
  exists f c : float,
    calculate_flood_risk {| items := Some its |} flood_product = Ok f
    /\ calculate_crime_risk ds crime_product = Ok c
    /\ (risk_type f c = Ok "HIGH_VALUE_RISK"
        <-> 100 < spec_flood_score its flood_product + crime_score ds crime_product)
    /\ (risk_type f c = Ok "STANDARD_VALUE_RISK"
        <-> spec_flood_score its flood_product + crime_score ds crime_product < 100)
    /\ (risk_type f c = Raise (Exn ValueError (MsgRiskType (MsgUnbound "risk_value")))
        <-> spec_flood_score its flood_product + crime_score ds crime_product == 100)
    /\ (forall v, risk_type f c = Ok v ->
          v = "HIGH_VALUE_RISK" \/ v = "STANDARD_VALUE_RISK")
    /\ risk_type 0x1.9000000000001p+5%float 50%float
       = Raise (Exn ValueError (MsgRiskType (MsgUnbound "risk_value"))).
Proof.
  intros Hf Hc.
  destruct (risk_type_binary64 its ds flood_product crime_product Hf Hc)
    as (f & c & Ef & Ec & E).
  exists f, c. split; [exact Ef|]. split; [exact Ec|]. rewrite E.
  set (qf := spec_flood_score its flood_product).
  set (qc := crime_score ds crime_product).
  split; [apply risk_type_high|]. split; [apply risk_type_standard|]. split.
  { split; [|apply risk_type_tie].
    intro R. destruct (Q_dec (qf + qc) 100) as [[L|L]|L]; [| |exact L].
    - apply risk_type_standard in L. congruence.
    - apply risk_type_high in L. congruence. }
  split; [|vm_compute; reflexivity].
  intros v. unfold risk_type.
  destruct (ltb (lit 100) (add qf qc)); [intro R; injection R as <-; now left|].
  destruct (ltb (add qf qc) (lit 100)); [intro R; injection R as <-; now right|].
  discriminate.
Qed.

Lemma risk_type_cases_witness :
  exists f c : float,
    calculate_flood_risk severe_tidal "HOME" = Ok f
    /\ calculate_crime_risk thirty_assaults "HOME" = Ok c
    /\ risk_type f c = Ok "HIGH_VALUE_RISK".
Proof.
  destruct (risk_type_cases [ {| severityLevel := Some 1%Z; isTidal := Some true |} ]
              thirty_assaults "HOME" "HOME")
    as (f & c & Ef & Ec & Hhigh & _).
  - vm_compute. discriminate.
  - vm_compute. discriminate.
  - exists f, c. split; [exact Ef|]. split; [exact Ec|].
    apply Hhigh. vm_compute. reflexivity.
Defined.

(** X7: whenever [risk_type] returns a label, [quote_validity] of that
    label is defined: 7 days exactly when the scores add up to more than
    100, 14 days exactly when to less. *)
Theorem quote_validity_after_risk_type (f c : Q) (v : string) :
  risk_type f c = Ok v ->
  exists days, quote_validity v = Some days
               /\ (days = 7%Z <-> 100 < f + c)
               /\ (days = 14%Z <-> f + c < 100).
Proof.
  intro E.
  destruct (Q_dec (f + c) 100) as [[L|L]|L].
  - pose proof L as L'. apply risk_type_standard in L'. rewrite L' in E.
    injection E as <-. exists 14%Z. split; [reflexivity|].
    split; split; intro; first [reflexivity | lra | lia].
  - pose proof L as L'. apply risk_type_high in L'. rewrite L' in E.
    injection E as <-. exists 7%Z. split; [reflexivity|].
    split; split; intro; first [reflexivity | lra | lia].
  - apply risk_type_tie in L. congruence.
Qed.

Lemma quote_validity_after_risk_type_witness :
  exists days, quote_validity "HIGH_VALUE_RISK" = Some days /\ days = 7%Z.
Proof.
  destruct (quote_validity_after_risk_type 60 45 "HIGH_VALUE_RISK") as [days [E [H7 _]]].
  - reflexivity.
  - exists days. split; [exact E|]. apply H7. reflexivity.
Defined.

(** * Further properties of the clients *)

(** ** The cache: what was set is served until it expires *)

Lemma cache_get_set_alive {K V} (eqb : K -> K -> bool) (c : store K V)
    (t t' : Q) (k : K) (v : V) (timeout : Q) (ver : Z) :
  eqb k k = true -> Qeq_bool timeout 0 = false -> t' < t + timeout ->
  cache_get eqb (cache_set eqb c t k v timeout ver) t' ver k = Some v.
Proof.
  intros Hk Ht Hlive. unfold cache_set. rewrite Ht. cbn [cache_get].
  unfold same_slot; cbn [ce_version ce_key ce_value ce_expiry].
  rewrite Z.eqb_refl, Hk. cbn [andb].
  destruct (Qle_bool (t + timeout) t') eqn:E; [|reflexivity].
  apply Qle_bool_iff in E. lra.
Qed.

Lemma cache_get_set_dead {K V} (eqb : K -> K -> bool) (c : store K V)
    (t t' : Q) (k : K) (v : V) (timeout : Q) (ver : Z) :
  eqb k k = true -> Qeq_bool timeout 0 = false -> t + timeout <= t' ->
  cache_get eqb (cache_set eqb c t k v timeout ver) t' ver k = None.
Proof.
  intros Hk Ht Hdead. unfold cache_set. rewrite Ht. cbn [cache_get].
  unfold same_slot; cbn [ce_version ce_key ce_value ce_expiry].
  rewrite Z.eqb_refl, Hk. cbn [andb].
  apply Qle_bool_iff in Hdead. now rewrite Hdead.
Qed.

Lemma floods_key_eqb_refl (k : floods_key) : floods_key_eqb k k = true.
Proof.
  destruct k as [[x y] d]. unfold floods_key_eqb.
  rewrite Z.eqb_refl, !(proj2 (Qeq_bool_iff _ _) (Qeq_refl _)). reflexivity.
Qed.

Lemma crimes_key_eqb_refl (k : crimes_key) : crimes_key_eqb k k = true.
Proof.
  destruct k as [[d x] y]. unfold crimes_key_eqb, ym_eqb.
  rewrite !Z.eqb_refl, !(proj2 (Qeq_bool_iff _ _) (Qeq_refl _)). reflexivity.
Qed.

(** ** Flood data client *)

Lemma get_flood_on_miss (net : upstream) (VERSION : Z) (lat long : Q) (dist : Z)
    (w : world) :
  floods_hit VERSION lat long dist w = false ->
  get_flood_try net VERSION lat long dist w
  = get_flood_miss net VERSION lat long dist (lat, long, dist) w.
Proof.
  unfold floods_hit, get_flood_try, bind, cache_lookup.
  destruct (cache_get _ _ _ _ _) as [d|]; [|reflexivity].
  now intros ->.
Qed.

Lemma get_flood_on_hit (net : upstream) (VERSION : Z) (lat long : Q) (dist : Z)
    (w : world) (d : FloodData) :
  cache_get floods_key_eqb (cache_floods w) (now w) VERSION (lat, long, dist) = Some d ->
  flood_truthy d = true ->
  get_flood_data_for_location net VERSION lat long dist w = (Ok d, w).
Proof.
  intros Hc Ht.
  unfold get_flood_data_for_location, try_except, get_flood_try, bind, cache_lookup.
  now rewrite Hc, Ht.
Qed.

(** A miss costs one network call, whatever the service answers. *)
Lemma get_flood_miss_sends (net : upstream) (VERSION : Z) (lat long : Q) (dist : Z)
    (w w' : world) (r : result FloodData) :
  floods_hit VERSION lat long dist w = false ->
  get_flood_data_for_location net VERSION lat long dist w = (r, w') ->
  requests w' = GetFloods lat long dist :: requests w.
Proof.
  intros Hmiss. unfold get_flood_data_for_location, try_except.
  rewrite (get_flood_on_miss _ _ _ _ _ _ Hmiss).
  unfold get_flood_miss, bind, requests_get.
  destruct (flood_monitoring net _ lat long dist) as [|st data]; cbn.
  - intro E; injection E as _ <-; reflexivity.
  - destruct ((400 <=? st)%Z && (st <? 600)%Z); cbn;
      intro E; injection E as _ <-; reflexivity.
Qed.

(** X8: a flood body that was fetched with a success status and has its
    items is served from the cache, with no network call, by every call for
    the same place and radius made less than 24 hours later; from 24 hours
    on the next call goes to the network again. *)
Theorem flood_data_cached_for_a_day (net : upstream) (VERSION : Z)
    (lat long : Q) (dist : Z) (w : world) (status : Z) (data : FloodData) (dt : Q) :
  floods_hit VERSION lat long dist w = false ->
  flood_monitoring net (List.length (requests w)) lat long dist = Response status data ->
  (status < 400 \/ 600 <= status)%Z ->
  flood_truthy data = true ->
  exists w1,
    get_flood_data_for_location net VERSION lat long dist w = (Ok data, w1)
    /\ requests w1 = GetFloods lat long dist :: requests w
    /\ (dt < 86400 ->
        get_flood_data_for_location net VERSION lat long dist (elapse dt w1)
        = (Ok data, elapse dt w1))
    /\ (86400 <= dt ->
        forall r w2,
          get_flood_data_for_location net VERSION lat long dist (elapse dt w1) = (r, w2) ->
          requests w2 = GetFloods lat long dist :: requests w1).
Proof.
  intros Hmiss Hnet Hstatus Htruthy.
  assert (Hguard : ((400 <=? status)%Z && (status <? 600)%Z) = false).
  { destruct (Z.leb_spec 400 status), (Z.ltb_spec status 600); cbn; try reflexivity; lia. }
  eexists. split.
  { unfold get_flood_data_for_location, try_except.
    rewrite (get_flood_on_miss _ _ _ _ _ _ Hmiss).
    unfold get_flood_miss, bind, requests_get. rewrite Hnet. cbn.
    rewrite Hguard. reflexivity. }
  split; [reflexivity|]. split.
  - intro Hdt. apply get_flood_on_hit; [|exact Htruthy].
    cbn [elapse with_floods sent cache_floods now].
    apply cache_get_set_alive; [apply floods_key_eqb_refl|reflexivity|].
    change (inject_Z _) with (86400 # 1). lra.
  - intros Hdt r w2 E. apply get_flood_miss_sends in E; [exact E|].
    unfold floods_hit. cbn [elapse with_floods sent cache_floods now].
    rewrite cache_get_set_dead; [reflexivity|apply floods_key_eqb_refl|reflexivity|].
    change (inject_Z _) with (86400 # 1). lra.
Qed.

Lemma flood_data_cached_for_a_day_witness :
  exists w1,
    get_flood_data_for_location flooded_upstream 1 palace_latitude palace_longitude 50
      empty_world = (Ok severe_tidal, w1)
    /\ get_flood_data_for_location flooded_upstream 1 palace_latitude palace_longitude 50
         (elapse 3600 w1) = (Ok severe_tidal, elapse 3600 w1).
Proof.
  destruct (flood_data_cached_for_a_day flooded_upstream 1 palace_latitude
              palace_longitude 50 empty_world 200 severe_tidal 3600)
    as (w1 & E1 & _ & Hhit & _); try reflexivity.
  - left; lia.
  - exists w1. split; [exact E1|]. apply Hhit. reflexivity.
Defined.

(** X9: on a cache miss the flood client turns a network failure, and
    just as well an HTTP status from 400 to 599, into ConnectionError; it
    has then made its one call and cached nothing. *)
Theorem flood_client_errors (net : upstream) (VERSION : Z)
    (lat long : Q) (dist : Z) (w : world) :
  floods_hit VERSION lat long dist w = false ->
  flood_monitoring net (List.length (requests w)) lat long dist = NetFailure
  \/ (exists status data,
        flood_monitoring net (List.length (requests w)) lat long dist
        = Response status data /\ (400 <= status < 600)%Z) ->
  get_flood_data_for_location net VERSION lat long dist w
  = (Raise (Exn ConnectionError (MsgFloodNetwork lat long)),
     sent (GetFloods lat long dist) w).
Proof.
  intros Hmiss Hnet. unfold get_flood_data_for_location, try_except.
  rewrite (get_flood_on_miss _ _ _ _ _ _ Hmiss).
  unfold get_flood_miss, bind, requests_get.
  destruct Hnet as [Hnet|(status & data & Hnet & Hs)]; rewrite Hnet; cbn.
  - reflexivity.
  - assert (Hguard : ((400 <=? status)%Z && (status <? 600)%Z) = true).
    { destruct (Z.leb_spec 400 status), (Z.ltb_spec status 600); cbn; try reflexivity; lia. }
    rewrite Hguard. reflexivity.
Qed.

Lemma flood_client_errors_witness :
  get_flood_data_for_location unavailable_upstream 1 palace_latitude palace_longitude 50
    empty_world
  = (Raise (Exn ConnectionError (MsgFloodNetwork palace_latitude palace_longitude)),
     sent (GetFloods palace_latitude palace_longitude 50) empty_world).
Proof.
  apply (flood_client_errors unavailable_upstream 1 palace_latitude palace_longitude 50
           empty_world).
  - reflexivity.
  - right. exists 503%Z, {| items := None |}. split; [reflexivity|lia].
Defined.

(** ** Crime data client *)

Lemma get_crimes_on_hit (net : upstream) (VERSION : Z) (ts : string)
    (d : YearMonth) (lat long : Q) (w : world) (c : CrimeRecord) (cs : list CrimeRecord) :
  normalize_timestamp ts = Some d ->
  cache_get crimes_key_eqb (cache_crimes w) (now w) VERSION (d, long, lat) = Some (c :: cs) ->
  get_crimes_for_location net VERSION ts lat long w = (Ok (c :: cs), w).
Proof.
  intros Hts Hc.
  unfold get_crimes_for_location, try_except, get_crimes_try. rewrite Hts.
  unfold bind, cache_lookup. now rewrite Hc.
Qed.

(** A parsed time stamp and a miss cost one network call, whatever the
    service answers. *)
Lemma get_crimes_miss_sends (net : upstream) (VERSION : Z) (ts : string)
    (d : YearMonth) (lat long : Q) (w w' : world) (r : result (list CrimeRecord)) :
  normalize_timestamp ts = Some d ->
  crimes_hit VERSION d lat long w = false ->
  get_crimes_for_location net VERSION ts lat long w = (r, w') ->
  requests w' = GetCrimes d lat long :: requests w.
Proof.
  intros Hts Hmiss.
  unfold get_crimes_for_location, try_except, get_crimes_try. rewrite Hts.
  unfold bind, cache_lookup, crimes_hit in *.
  destruct (cache_get _ _ _ _ _) as [[|c cs]|]; try discriminate;
    unfold requests_get;
    (destruct (police_uk net _ d lat long) as [|st data]; cbn;
     [intro E; injection E as _ <-; reflexivity|]);
    (destruct (st =? 200)%Z; cbn; intro E; injection E as _ <-; reflexivity).
Qed.

Lemma get_crimes_fetch (net : upstream) (VERSION : Z) (ts : string)
    (d : YearMonth) (lat long : Q) (w : world) (data : list CrimeRecord) :
  normalize_timestamp ts = Some d ->
  crimes_hit VERSION d lat long w = false ->
  police_uk net (List.length (requests w)) d lat long = Response 200 data ->
  get_crimes_for_location net VERSION ts lat long w
  = (Ok data,
     with_crimes
       (cache_set crimes_key_eqb (cache_crimes w) (now w) (d, long, lat) data
          (inject_Z CACHE_TIMEOUT) VERSION)
       (sent (GetCrimes d lat long) w)).
Proof.
  intros Hts Hmiss Hnet.
  unfold get_crimes_for_location, try_except, get_crimes_try. rewrite Hts.
  unfold bind, cache_lookup, crimes_hit in *.
  destruct (cache_get _ _ _ _ _) as [[|c cs]|]; try discriminate;
    unfold requests_get; rewrite Hnet; reflexivity.
Qed.

(** X10: crime records are cached by month and place: once a list that is
    not empty has been fetched, every call for the same coordinates with a
    time stamp of the same month, made less than 24 hours later, returns
    that list with no network call; from 24 hours on the next call goes to
    the network again. *)
Theorem crimes_cached_by_month (net : upstream) (VERSION : Z) (ts ts' : string)
    (d : YearMonth) (lat long : Q) (w : world)
    (c : CrimeRecord) (cs : list CrimeRecord) (dt : Q) :
  normalize_timestamp ts = Some d ->
  normalize_timestamp ts' = Some d ->
  crimes_hit VERSION d lat long w = false ->
  police_uk net (List.length (requests w)) d lat long = Response 200 (c :: cs) ->
  exists w1,
    get_crimes_for_location net VERSION ts lat long w = (Ok (c :: cs), w1)
    /\ requests w1 = GetCrimes d lat long :: requests w
    /\ (dt < 86400 ->
        get_crimes_for_location net VERSION ts' lat long (elapse dt w1)
        = (Ok (c :: cs), elapse dt w1))
    /\ (86400 <= dt ->
        forall r w2,
          get_crimes_for_location net VERSION ts' lat long (elapse dt w1) = (r, w2) ->
          requests w2 = GetCrimes d lat long :: requests w1).
Proof.
  intros Hts Hts' Hmiss Hnet.
  eexists. split; [apply (get_crimes_fetch _ _ _ _ _ _ _ _ Hts Hmiss Hnet)|].
  split; [reflexivity|]. split.
  - intro Hdt. apply (get_crimes_on_hit _ _ _ _ _ _ _ _ _ Hts').
    cbn [elapse with_crimes sent cache_crimes now].
    apply cache_get_set_alive; [apply crimes_key_eqb_refl|reflexivity|].
    change (inject_Z _) with (86400 # 1). lra.
  - intros Hdt r w2 E.
    apply (get_crimes_miss_sends _ _ _ _ _ _ _ _ _ Hts') in E; [exact E|].
    unfold crimes_hit. cbn [elapse with_crimes sent cache_crimes now].
    rewrite cache_get_set_dead; [reflexivity|apply crimes_key_eqb_refl|reflexivity|].
    change (inject_Z _) with (86400 # 1). lra.
Qed.

Lemma crimes_cached_by_month_witness :
  exists w1,
    get_crimes_for_location sample_upstream 1 "2024-01-25 10:00:00"
      palace_latitude palace_longitude empty_world
    = (Ok [ {| category := Some "burglary" |} ], w1)
    /\ get_crimes_for_location sample_upstream 1 "2024-01-03"
         palace_latitude palace_longitude (elapse 7200 w1)
       = (Ok [ {| category := Some "burglary" |} ], elapse 7200 w1).
Proof.
  destruct (crimes_cached_by_month sample_upstream 1 "2024-01-25 10:00:00" "2024-01-03"
              {| ym_year := 2024; ym_month := 1 |} palace_latitude palace_longitude
              empty_world {| category := Some "burglary" |} [] 7200)
    as (w1 & E1 & _ & Hhit & _); try reflexivity.
  exists w1. split; [exact E1|]. apply Hhit. reflexivity.
Defined.

(** X11: an empty list of crimes is written to the cache but never served
    from it: after a fetch that returned no record, the next call for the
    same month and place goes to the network again, however soon it comes. *)
Theorem empty_crimes_never_served (net : upstream) (VERSION : Z) (ts ts' : string)
    (d : YearMonth) (lat long : Q) (w : world) (dt : Q) :
  normalize_timestamp ts = Some d ->
  normalize_timestamp ts' = Some d ->
  crimes_hit VERSION d lat long w = false ->
  police_uk net (List.length (requests w)) d lat long = Response 200 [] ->
  exists w1,
    get_crimes_for_location net VERSION ts lat long w = (Ok [], w1)
    /\ (exists e, In e (cache_crimes w1) /\ ce_value e = [])
    /\ forall r w2,
         get_crimes_for_location net VERSION ts' lat long (elapse dt w1) = (r, w2) ->
         requests w2 = GetCrimes d lat long :: GetCrimes d lat long :: requests w.
Proof.
  intros Hts Hts' Hmiss Hnet.
  eexists. split; [apply (get_crimes_fetch _ _ _ _ _ _ _ _ Hts Hmiss Hnet)|].
  split.
  { eexists. split; [left; reflexivity|reflexivity]. }
  intros r w2 E.
  apply (get_crimes_miss_sends _ _ _ _ _ _ _ _ _ Hts') in E; [exact E|].
  unfold crimes_hit. cbn [elapse with_crimes sent cache_crimes now].
  unfold cache_set. cbn [cache_get].
  unfold same_slot; cbn [ce_version ce_key ce_value ce_expiry].
  rewrite Z.eqb_refl, crimes_key_eqb_refl. cbn [andb].
  destruct (Qle_bool _ _); reflexivity.
Qed.

Lemma empty_crimes_never_served_witness :
  exists w1,
    get_crimes_for_location norwich_upstream 1 "2024-01-25" 52.63 1.3 empty_world
    = (Ok [], w1)
    /\ forall r w2,
         get_crimes_for_location norwich_upstream 1 "2024-01-25" 52.63 1.3 (elapse 1 w1)
         = (r, w2) ->
         List.length (requests w2) = 2%nat.
Proof.
  destruct (empty_crimes_never_served norwich_upstream 1 "2024-01-25" "2024-01-25"
              {| ym_year := 2024; ym_month := 1 |} 52.63 1.3 empty_world 1)
    as (w1 & E1 & _ & Hagain); try reflexivity.
  exists w1. split; [exact E1|].
  intros r w2 E. now rewrite (Hagain r w2 E).
Defined.

(** ** Coordinate resolver *)

Lemma get_long_lat_on_miss (net : upstream) (VERSION : Z) (rp : string) (w : world) :
  postcode_hit VERSION rp w = false ->
  get_long_lat_try net VERSION rp w
  = get_long_lat_miss net rp (normalize_postcode rp) w.
Proof.
  unfold postcode_hit, get_long_lat_try, bind, cache_lookup.
  destruct (cache_get _ _ _ _ _) as [v|]; [|reflexivity].
  now intros ->.
Qed.

(** X12: on a cache miss the resolver reports a status other than 200 as
    ValueError "could not get location", carrying the postcode and the
    status, and a network failure as ConnectionError; in both cases it has
    made its one call and written nothing to the cache. *)
Theorem resolver_errors (net : upstream) (VERSION : Z) (rp : string) (w : world) :
  postcode_hit VERSION rp w = false ->
  (postcodes_io net (List.length (requests w)) rp = NetFailure ->
   get_long_lat net VERSION rp w
   = (Raise (Exn ConnectionError (MsgLocationNetwork rp)), sent (GetPostcode rp) w))
  /\ (forall status data,
        postcodes_io net (List.length (requests w)) rp = Response status data ->
        status <> 200%Z ->
        get_long_lat net VERSION rp w
        = (Raise (Exn ValueError (MsgNoLocation rp status)), sent (GetPostcode rp) w)).
Proof.
  intro Hmiss. unfold get_long_lat, try_except.
  rewrite (get_long_lat_on_miss _ _ _ _ Hmiss).
  unfold get_long_lat_miss, bind, requests_get. split.
  - intros ->. reflexivity.
  - intros status data -> Hs. apply Z.eqb_neq in Hs. cbn. rewrite Hs. reflexivity.
Qed.

Lemma resolver_errors_witness :
  get_long_lat unavailable_upstream 1 "SW1A 1AA" empty_world
  = (Raise (Exn ValueError (MsgNoLocation "SW1A 1AA" 503)),
     sent (GetPostcode "SW1A 1AA") empty_world).
Proof.
  apply (resolver_errors unavailable_upstream 1 "SW1A 1AA" empty_world) with
    (data := {| result_latitude := None; result_longitude := None |}).
  - reflexivity.
  - reflexivity.
  - discriminate.
Defined.

Lemma upper_ascii_idempotent (c : ascii) : upper_ascii (upper_ascii c) = upper_ascii c.
Proof. destruct c as [[] [] [] [] [] [] [] []]; reflexivity. Qed.

Lemma upper_ascii_space (c : ascii) :
  Ascii.eqb (upper_ascii c) " " = Ascii.eqb c " ".
Proof. destruct c as [[] [] [] [] [] [] [] []]; reflexivity. Qed.

Lemma normalize_postcode_app (a b : string) :
  normalize_postcode (a ++ b) = normalize_postcode a ++ normalize_postcode b.
Proof.
  induction a as [|c a IH]; cbn [String.append normalize_postcode]; [reflexivity|].
  destruct (Ascii.eqb c " "); cbn [String.append]; now rewrite IH.
Qed.

(** X13: the cache key of a postcode does not see spaces or letter case:
    normalizing splits over concatenation, drops a space wherever it
    stands, gives the same key for a character and its upper-case form,
    and leaves a normalized postcode as it is. *)
Theorem normalize_postcode_key (a b : string) (c : ascii) :
  normalize_postcode (a ++ b) = normalize_postcode a ++ normalize_postcode b
  /\ normalize_postcode (a ++ String " " b) = normalize_postcode (a ++ b)
  /\ normalize_postcode (a ++ String (upper_ascii c) b)
     = normalize_postcode (a ++ String c b)
  /\ normalize_postcode (normalize_postcode a) = normalize_postcode a.
Proof.
  split; [apply normalize_postcode_app|]. split; [|split].
  - rewrite !normalize_postcode_app. reflexivity.
  - rewrite !normalize_postcode_app. f_equal. cbn [normalize_postcode].
    rewrite upper_ascii_space, upper_ascii_idempotent. reflexivity.
  - induction a as [|x a IH]; cbn [normalize_postcode]; [reflexivity|].
    destruct (Ascii.eqb x " ") eqn:E; [exact IH|].
    cbn [normalize_postcode]. rewrite upper_ascii_space, E, upper_ascii_idempotent.
    now rewrite IH.
Qed.

(** * Further properties of the orchestrator *)

(** X14: an assessment with an empty postcode, product type or time stamp
    is refused with ValueError "Invalid input data provided" before
    anything else happens: no network call, no cache access. *)
Theorem assessment_rejects_empty_input (net : upstream) (VERSION : Z)
    (pc pt ts : string) (w : world) :
  pc = "" \/ pt = "" \/ ts = "" ->
  calculate_location_risks net VERSION pc pt ts w
  = (Raise (Exn ValueError MsgInvalidInput), w).
Proof.
  intro H. unfold calculate_location_risks.
  destruct H as [ -> | [ -> | -> ] ]; cbn [str_truthy negb orb];
    repeat (rewrite ?orb_true_r; cbn [orb]); reflexivity.
Qed.

Lemma assessment_rejects_empty_input_witness :
  calculate_location_risks sample_upstream 1 "" "HOME" "2024-01-25" empty_world
  = (Raise (Exn ValueError MsgInvalidInput), empty_world).
Proof.
  apply (assessment_rejects_empty_input sample_upstream 1 "" "HOME" "2024-01-25").
  left; reflexivity.
Defined.

(** X15: whatever goes wrong in an assessment, the orchestrator raises
    ValueError and nothing else: the ConnectionError of a client and the
    TypeError of a failed unpacking both leave as ValueError. *)
Theorem assessment_raises_only_value_error (net : upstream) (VERSION : Z)
    (pc pt ts : string) (w w' : world) (e : exn) :
  calculate_location_risks net VERSION pc pt ts w = (Raise e, w') ->
  exn_class e = ValueError.
Proof.
  unfold calculate_location_risks.
  destruct (negb (str_truthy pc) || negb (str_truthy pt) || negb (str_truthy ts)).
  - intro E; injection E as <- _; reflexivity.
  - unfold try_except.
    match goal with |- context [bind ?c ?k w] => destruct (bind c k w) as [[r|e0] w0] end.
    + discriminate.
    + intro E; injection E as <- _; reflexivity.
Qed.

Lemma assessment_raises_only_value_error_witness :
  exists e w',
    calculate_location_risks unavailable_upstream 1 "SW1A 1AA" "HOME" "2024-01-25"
      empty_world = (Raise e, w')
    /\ exn_class e = ValueError.
Proof.
  eexists. eexists. split; [reflexivity|].
  apply (assessment_raises_only_value_error unavailable_upstream 1 "SW1A 1AA" "HOME"
           "2024-01-25" empty_world (sent (GetPostcode "SW1A 1AA") empty_world)).
  reflexivity.
Defined.

Lemma crime_risk_in_range (ds : list CrimeRecord) (pt : string) (v : Q) :
  calculate_crime_risk ds pt = Ok v -> 0 <= v /\ v <= 100.
Proof.
  destruct (calculate_crime_risk_score ds pt) as [v0 [E Hv]]. rewrite E.
  intro E'; injection E' as <-. rewrite Hv. unfold crime_score.
  apply normalized_range; [reflexivity|].
  apply Qmult_le_0_compat; [apply crime_sum_nonneg|apply spec_crime_multiplier_nonneg].
Qed.

Lemma flood_risk_in_range (fd : FloodData) (pt : string) (v : Q) :
  calculate_flood_risk fd pt = Ok v -> 0 <= v /\ v <= 100.
Proof.
  destruct fd as [[its|]]; [|discriminate].
  destruct (calculate_flood_risk_score its pt) as [v0 [E Hv]]. rewrite E.
  intro E'; injection E' as <-. rewrite Hv. unfold spec_flood_score.
  apply normalized_range; [reflexivity|].
  apply Qmult_le_0_compat; [apply flood_sum_nonneg|apply spec_flood_multiplier_nonneg].
Qed.

(** X16: both scores of a successful assessment lie between 0 and 100, so
    that their sum, which decides the category, lies between 0 and 200. *)
Theorem assessment_scores_in_range (net : upstream) (VERSION : Z)
    (pc pt ts : string) (w w' : world) (r : location_risks) :
  calculate_location_risks net VERSION pc pt ts w = (Ok r, w') ->
  0 <= flood_risk r /\ flood_risk r <= 100
  /\ 0 <= crime_risk r /\ crime_risk r <= 100
  /\ 0 <= flood_risk r + crime_risk r /\ flood_risk r + crime_risk r <= 200.
Proof.
  intro E. apply orchestrator_steps in E.
  destruct E as (la & lo & w1 & w2 & w3 & fd & cd & _ & _ & _ & Hf & Hc & _).
  apply flood_risk_in_range in Hf. apply crime_risk_in_range in Hc.
  destruct Hf, Hc. repeat split; lra.
Qed.

Lemma assessment_scores_in_range_witness :
  exists r w',
    calculate_location_risks sample_upstream 1 "SW1A 1AA" "COMMERCIAL"
      "2024-01-25 10:00:00" empty_world = (Ok r, w')
    /\ flood_risk r + crime_risk r <= 200.
Proof.
  eexists. eexists. split; [vm_compute; reflexivity|].
  eapply (assessment_scores_in_range sample_upstream 1 "SW1A 1AA" "COMMERCIAL"
            "2024-01-25 10:00:00" empty_world).
  vm_compute. reflexivity.
Defined.

Lemma get_long_lat_calls (net : upstream) (VERSION : Z) (rp : string)
    (w w' : world) (r : result coords) :
  get_long_lat net VERSION rp w = (r, w') ->
  requests w' = requests w \/ requests w' = GetPostcode rp :: requests w.
Proof.
  unfold get_long_lat, try_except, get_long_lat_try, bind, cache_lookup.
  assert (Hmiss : forall key,
             (let (res, w1) := get_long_lat_miss net rp key w in
              match res with
              | Ok a => (Ok a, w1)
              | Raise e =>
                  (match exn_class e with
                   | RequestException =>
                       raise (Exn ConnectionError (MsgLocationNetwork rp))
                   | _ => raise e
                   end) w1
              end) = (r, w') ->
             requests w' = GetPostcode rp :: requests w).
  { intros key. destruct (get_long_lat_miss net rp key w) as [res w1] eqn:Em.
    apply get_long_lat_miss_sends in Em.
    destruct res as [a|e]; [|destruct (exn_class e)];
      intro E; injection E as _ <-; exact Em. }
  destruct (cache_get _ _ _ _ _) as [v|].
  - destruct (negb (Qeq_bool v 0)).
    + cbn. intro E; injection E as _ <-. now left.
    + intro E. right. eapply Hmiss; eassumption.
  - intro E. right. eapply Hmiss; eassumption.
Qed.

Lemma get_flood_calls (net : upstream) (VERSION : Z) (lat long : Q) (dist : Z)
    (w w' : world) (r : result FloodData) :
  get_flood_data_for_location net VERSION lat long dist w = (r, w') ->
  requests w' = requests w \/ requests w' = GetFloods lat long dist :: requests w.
Proof.
  destruct (floods_hit VERSION lat long dist w) eqn:Hhit.
  - unfold floods_hit in Hhit.
    destruct (cache_get _ _ _ _ _) as [d|] eqn:Hc; [|discriminate].
    rewrite (get_flood_on_hit _ _ _ _ _ _ _ Hc Hhit).
    intro E; injection E as _ <-. now left.
  - intro E. right. eapply get_flood_miss_sends; eassumption.
Qed.

Lemma get_crimes_calls (net : upstream) (VERSION : Z) (ts : string) (lat long : Q)
    (w w' : world) (r : result (list CrimeRecord)) :
  get_crimes_for_location net VERSION ts lat long w = (r, w') ->
  requests w' = requests w
  \/ exists d, requests w' = GetCrimes d lat long :: requests w.
Proof.
  destruct (normalize_timestamp ts) as [d|] eqn:Hts.
  - destruct (crimes_hit VERSION d lat long w) eqn:Hhit.
    + unfold crimes_hit in Hhit.
      destruct (cache_get _ _ _ _ _) as [[|c cs]|] eqn:Hc; try discriminate.
      rewrite (get_crimes_on_hit _ _ _ _ _ _ _ _ _ Hts Hc).
      intro E; injection E as _ <-. now left.
    + intro E. right. exists d. eapply get_crimes_miss_sends; eassumption.
  - rewrite (get_crimes_unparsed _ _ _ _ _ _ Hts).
    intro E; injection E as _ <-. now left.
Qed.

Lemma grows_by_step (x : request) (l l' : list request) :
  l' = l \/ l' = x :: l -> grows_by 1 l l'.
Proof.
  intros [->| ->]; [exists []|exists [x]]; split; cbn; try reflexivity; lia.
Qed.

Lemma grows_by_trans (a b : nat) (l1 l2 l3 : list request) :
  grows_by a l1 l2 -> grows_by b l2 l3 -> grows_by (a + b) l1 l3.
Proof.
  intros [c1 [-> H1]] [c2 [-> H2]]. exists (c2 ++ c1)%list.
  rewrite app_assoc, length_app. split; [reflexivity|lia].
Qed.

Lemma grows_by_more (a b : nat) (l l' : list request) :
  (a <= b)%nat -> grows_by a l l' -> grows_by b l l'.
Proof. intros Hab [c [-> H]]. exists c. split; [reflexivity|lia]. Qed.

(** X17: an assessment, successful or not, makes at most three network
    calls; they come on top of the calls made before, which stay as they
    were. *)
Theorem assessment_makes_at_most_three_calls (net : upstream) (VERSION : Z)
    (pc pt ts : string) (w w' : world) (r : result location_risks) :
  calculate_location_risks net VERSION pc pt ts w = (r, w') ->
  exists calls,
    requests w' = (calls ++ requests w)%list /\ (List.length calls <= 3)%nat.
Proof.
  change (calculate_location_risks net VERSION pc pt ts w = (r, w') ->
          grows_by 3 (requests w) (requests w')).
  unfold calculate_location_risks.
  destruct (negb (str_truthy pc) || negb (str_truthy pt) || negb (str_truthy ts)).
  { intro E; injection E as _ <-. exists []. split; [reflexivity|cbn; lia]. }
  unfold try_except, bind, lift, ret, raise.
  destruct (get_long_lat net VERSION pc w) as [[[|x|la lo]|e] w1] eqn:Eg;
    apply get_long_lat_calls, grows_by_step in Eg;
    try (intro E; injection E as _ <-;
         apply (grows_by_more 1 3); [lia|exact Eg]).
  destruct (get_flood_data_for_location net VERSION la lo 50 w1) as [[fd|e] w2] eqn:Ef;
    apply get_flood_calls, grows_by_step in Ef;
    pose proof (grows_by_trans _ _ _ _ _ Eg Ef) as Egf.
  2:{ intro E; injection E as _ <-. apply (grows_by_more 2 3); [lia|exact Egf]. }
  destruct (calculate_flood_risk fd pt) as [f|e].
  2:{ intro E; injection E as _ <-. apply (grows_by_more 2 3); [lia|exact Egf]. }
  destruct (get_crimes_for_location net VERSION ts la lo w2) as [[cd|e] w3] eqn:Ec;
    apply get_crimes_calls in Ec;
    assert (Ec' : grows_by 1 (requests w2) (requests w3))
      by (destruct Ec as [Ec|[d Ec]];
          [apply (grows_by_step (GetPostcode pc)); left; exact Ec
          |apply (grows_by_step (GetCrimes d la lo)); right; exact Ec]);
    pose proof (grows_by_trans _ _ _ _ _ Egf Ec') as Eall.
  - destruct (calculate_crime_risk cd "HOME") as [c|e'];
      intro E; injection E as _ <-; exact Eall.
  - intro E; injection E as _ <-; exact Eall.
Qed.

Lemma assessment_makes_at_most_three_calls_witness :
  exists r w' calls,
    calculate_location_risks sample_upstream 1 "SW1A 1AA" "HOME" "2024-01-25"
      empty_world = (r, w')
    /\ requests w' = (calls ++ [])%list /\ (List.length calls <= 3)%nat.
Proof.
  destruct (calculate_location_risks sample_upstream 1 "SW1A 1AA" "HOME" "2024-01-25"
              empty_world) as [r w'] eqn:E.
  destruct (assessment_makes_at_most_three_calls sample_upstream 1 "SW1A 1AA" "HOME"
              "2024-01-25" empty_world w' r E) as [calls [Hc Hl]].
  exists r, w', calls. repeat split; assumption.
Defined.

(** * Further properties of the retry wrapper *)

(** X18: a wrapper whose retry count is zero or negative never calls the
    wrapped function: it returns None at once, with the state untouched. *)
Theorem wrapper_without_retries {St Resp Err : Type}
    (func : St -> (Err + Resp) * St) (log_call : Resp -> St -> St)
    (max_retries backoff_factor : Z) (s : St) :
  (max_retries <= 0)%Z ->
  wrapper func log_call max_retries backoff_factor s
  = Some {| run_outcome := Returned None; run_state := s;
            run_attempts := []; run_sleeps := [] |}.
Proof.
  intro H. unfold wrapper. cbn [retry_loop].
  destruct (Z.ltb_spec 0 max_retries); [lia|reflexivity].
Qed.

Lemma wrapper_without_retries_witness :
  wrapper flaky_view (fun _ s => s) 0 2 0%nat
  = Some {| run_outcome := Returned None; run_state := 0%nat;
            run_attempts := []; run_sleeps := [] |}.
Proof. apply (wrapper_without_retries flaky_view (fun _ s => s) 0 2 0%nat). lia. Defined.

(** X19: a call that succeeds at the first attempt is made once and is not
    delayed, and its audit record is written, once, after the call. *)
Theorem wrapper_first_success {St Resp Err : Type}
    (func : St -> (Err + Resp) * St) (log_call : Resp -> St -> St)
    (max_retries backoff_factor : Z) (s s' : St) (response : Resp) :
  (0 < max_retries)%Z ->
  func s = (inr response, s') ->
  wrapper func log_call max_retries backoff_factor s
  = Some {| run_outcome := Returned (Some response);
            run_state := log_call response s';
            run_attempts := [inr response]; run_sleeps := [] |}.
Proof.
  intros H E. unfold wrapper. cbn [retry_loop].
  destruct (Z.ltb_spec 0 max_retries); [|lia]. rewrite E. reflexivity.
Qed.

Lemma wrapper_first_success_witness :
  wrapper flaky_view (fun _ s => (s + 100)%nat) 3 2 2%nat
  = Some {| run_outcome := Returned (Some "200 OK"); run_state := 103%nat;
            run_attempts := [inr "200 OK"]; run_sleeps := [] |}.
Proof.
  apply (wrapper_first_success flaky_view (fun _ s => (s + 100)%nat) 3 2 2%nat 3%nat).
  - lia.
  - reflexivity.
Defined.

Lemma backoff_schedule_sum (b : Z) (n : nat) :
  forall w : Z,
    (Zsum (backoff_schedule b w n) * (b - 1) = w * (b ^ Z.of_nat n - 1))%Z.
Proof.
  induction n as [|n IH]; intro w; cbn [backoff_schedule Zsum fold_right].
  - cbn. lia.
  - fold (Zsum (backoff_schedule b (w * b) n)).
    rewrite Z.mul_add_distr_r, IH, Nat2Z.inj_succ, Z.pow_succ_r by lia. ring.
Qed.

(** Every recorded attempt is a result of the wrapped function. *)
Lemma retry_loop_attempts {St Resp Err : Type}
    (func : St -> (Err + Resp) * St) (log_call : Resp -> St -> St)
    (max_retries backoff_factor : Z) (fuel : nat) :
  forall (attempt wait_time : Z) (s : St) (r : run St Resp Err),
    retry_loop func log_call max_retries backoff_factor fuel attempt wait_time s = Some r ->
    Forall (fun a => exists s0, fst (func s0) = a) (run_attempts r).
Proof.
  induction fuel as [|fuel IH]; intros attempt wait_time s r; cbn [retry_loop];
    [discriminate|].
  destruct (attempt <? max_retries)%Z.
  - destruct (func s) as [[e|response] s'] eqn:Ef.
    + destruct (attempt + 1 >=? max_retries)%Z.
      * intro E; injection E as <-. cbn. constructor; [|constructor].
        exists s. now rewrite Ef.
      * destruct (wait_time <? 0)%Z.
        -- intro E; injection E as <-. cbn. constructor; [|constructor].
           exists s. now rewrite Ef.
        -- destruct (retry_loop _ _ _ _ fuel _ _ s') as [r'|] eqn:Er; [|discriminate].
           intro E; injection E as <-. cbn. constructor.
           ++ exists s. now rewrite Ef.
           ++ eapply IH; eassumption.
    + intro E; injection E as <-. cbn. constructor; [|constructor].
      exists s. now rewrite Ef.
  - intro E; injection E as <-. constructor.
Qed.

(** What a run has recorded are the results of as many calls of the
    wrapped function in a row; a run that ends on a raise leaves the state of
    the last call. *)
Lemma retry_loop_calls {St Resp Err : Type}
    (func : St -> (Err + Resp) * St) (log_call : Resp -> St -> St)
    (max_retries backoff_factor : Z) (fuel : nat) :
  forall (attempt wait_time : Z) (s : St) (r : run St Resp Err),
    retry_loop func log_call max_retries backoff_factor fuel attempt wait_time s = Some r ->
    run_attempts r = fst (calls func (List.length (run_attempts r)) s)
    /\ (forall e, run_outcome r = Raised e ->
          run_state r = snd (calls func (List.length (run_attempts r)) s)).
Proof.
  induction fuel as [|fuel IH]; intros attempt wait_time s r; cbn [retry_loop];
    [discriminate|].
  destruct (attempt <? max_retries)%Z.
  - destruct (func s) as [[e|response] s'] eqn:Ef.
    + destruct (attempt + 1 >=? max_retries)%Z.
      * intro E; injection E as <-. cbn. rewrite Ef. split; [reflexivity|].
        intros e' _. reflexivity.
      * destruct (wait_time <? 0)%Z.
        -- intro E; injection E as <-. cbn. rewrite Ef. split; [reflexivity|].
           intros e' H. discriminate.
        -- destruct (retry_loop _ _ _ _ fuel _ _ s') as [r'|] eqn:Er; [|discriminate].
           intro E; injection E as <-.
           destruct (IH _ _ _ _ Er) as [Ha Hs].
           cbn [attempted slept run_attempts run_outcome run_state List.length calls].
           rewrite Ef.
           destruct (calls func (List.length (run_attempts r')) s') as [l s''] eqn:Ec.
           cbn [fst snd] in *. split; [now rewrite <- Ha|exact Hs].
    + intro E; injection E as <-. cbn. rewrite Ef. split; [reflexivity|].
      intros e' H. discriminate.
  - intro E; injection E as <-. cbn. split; [reflexivity|]. intros e' H. discriminate.
Qed.

(** X20: when the wrapped function fails on every call, the wrapper calls
    it exactly [max_retries] times in a row, each call on the state the call
    before it left, and raises the error of the last of these calls, leaving
    the state of that call; it has waited [max_retries - 1] times,
    1 + b + ... + b^(max_retries - 2) seconds in all with backoff factor
    [b]: that sum times [b - 1] is [b^(max_retries - 1) - 1]. *)
Theorem wrapper_gives_up {St Resp Err : Type}
    (func : St -> (Err + Resp) * St) (log_call : Resp -> St -> St)
    (max_retries backoff_factor : Z) (s : St) :
  (1 <= max_retries)%Z -> (0 <= backoff_factor)%Z ->
  (forall s0, exists e, fst (func s0) = inl e) ->
  exists r e errs,
    wrapper func log_call max_retries backoff_factor s = Some r
    /\ run_outcome r = Raised e
    /\ calls func (Z.to_nat max_retries) s
       = ((map inl errs ++ [inl e])%list, run_state r)
    /\ run_attempts r = (map inl errs ++ [inl e])%list
    /\ Z.of_nat (List.length (run_attempts r)) = max_retries
    /\ Z.of_nat (List.length (run_sleeps r)) = (max_retries - 1)%Z
    /\ (Zsum (run_sleeps r) * (backoff_factor - 1)
        = backoff_factor ^ (max_retries - 1) - 1)%Z.
Proof.
  intros Hm Hb Hfail.
  destruct (retry_loop_runs func log_call max_retries backoff_factor
              (S (Z.to_nat max_retries)) 0%Z 1%Z s)
    as [r [Er [Hlen [Hsl Hend]]]]; try lia.
  rewrite Z.sub_0_r in *.
  pose proof (retry_loop_attempts _ _ _ _ _ _ _ _ _ Er) as Hall.
  pose proof (retry_loop_calls _ _ _ _ _ _ _ _ _ Er) as [Hcalls Hstate].
  unfold run_ends_well in Hend.
  destruct (run_outcome r) as [[response|]|e|] eqn:Ho.
  - exfalso. destruct Hend as [errs [Ha _]]. rewrite Ha in Hall.
    apply Forall_app in Hall. destruct Hall as [_ Hlast].
    inversion Hlast as [|x l [s0 Hs0] _]; subst.
    destruct (Hfail s0) as [e He]. congruence.
  - exfalso. lia.
  - destruct Hend as [errs [Ha [Hs Hbud]]].
    exists r, e, errs. split; [exact Er|]. split; [exact Ho|].
    assert (Hn : List.length (run_attempts r) = Z.to_nat max_retries) by lia.
    split.
    { specialize (Hstate e eq_refl). rewrite Hn in Hcalls, Hstate.
      rewrite <- Ha, Hstate, Hcalls at 1.
      now destruct (calls func (Z.to_nat max_retries) s). }
    split; [exact Ha|]. split; [exact Hbud|].
    assert (Hk : Z.of_nat (List.length (run_sleeps r)) = (max_retries - 1)%Z).
    { rewrite Ha, length_app, length_map in Hbud. cbn in Hbud. lia. }
    split; [exact Hk|].
    rewrite Hsl, backoff_schedule_sum, Hk. lia.
  - contradiction.
Qed.

Lemma wrapper_gives_up_witness :
  exists r,
    wrapper counting_view (fun _ s => s) 3 2 0%nat = Some r
    /\ run_outcome r = Raised 3%nat
    /\ run_state r = 3%nat
    /\ Zsum (run_sleeps r) = 3%Z.
Proof.
  destruct (wrapper_gives_up counting_view (fun _ s => s) 3 2 0%nat)
    as (r & e & errs & Er & Ho & Hcalls & _ & _ & _ & Hsum); try lia.
  - intro s0. exists (S s0). reflexivity.
  - exists r. split; [exact Er|].
    change (calls counting_view (Z.to_nat 3) 0%nat)
      with ([inl 1%nat; inl 2%nat; inl 3%nat] : list (nat + string), 3%nat) in Hcalls.
    injection Hcalls as Hl Hs.
    change [inl 1%nat; inl 2%nat; inl 3%nat]
      with (([inl 1%nat; inl 2%nat] : list (nat + string)) ++ [inl 3%nat])%list in Hl.
    apply app_inj_tail in Hl. destruct Hl as [_ He]. injection He as He.
    split; [rewrite Ho; now subst e|]. split; [now symmetry|]. lia.
Defined.

(** * Properties of the return on investment *)

Lemma round_half_even_near (x : Q) :
  x - (1 # 2) <= inject_Z (round_half_even x)
  /\ inject_Z (round_half_even x) <= x + (1 # 2).
Proof.
  unfold round_half_even.
  pose proof (Qfloor_le x) as Hlo. pose proof (Qlt_floor x) as Hhi.
  rewrite inject_Z_plus in Hhi. change (inject_Z 1) with 1 in Hhi.
  destruct (Qcompare_spec (x - inject_Z (Qfloor x)) (1 # 2)) as [E|L|G].
  - destruct (Z.even (Qfloor x)); [|rewrite inject_Z_plus; change (inject_Z 1) with 1];
      split; lra.
  - split; lra.
  - rewrite inject_Z_plus. change (inject_Z 1) with 1. split; lra.
Qed.

Lemma round_half_even_mono (x y : Q) :
  x <= y -> (round_half_even x <= round_half_even y)%Z.
Proof.
  intro Hxy. pose proof (Qfloor_resp_le _ _ Hxy) as Hf.
  destruct (Z.eq_dec (Qfloor x) (Qfloor y)) as [E|N].
  - unfold round_half_even. rewrite <- E.
    destruct (Qcompare_spec (x - inject_Z (Qfloor x)) (1 # 2)) as [Ex|Lx|Gx];
      destruct (Qcompare_spec (y - inject_Z (Qfloor x)) (1 # 2)) as [Ey|Ly|Gy];
      try destruct (Z.even (Qfloor x)); try lia; exfalso; lra.
  - assert (Hlt : (Qfloor x + 1 <= Qfloor y)%Z) by lia.
    assert (Hx : (round_half_even x <= Qfloor x + 1)%Z).
    { unfold round_half_even.
      destruct (Qcompare _ _); try destruct (Z.even _); lia. }
    assert (Hy : (Qfloor y <= round_half_even y)%Z).
    { unfold round_half_even.
      destruct (Qcompare _ _); try destruct (Z.even _); lia. }
    lia.
Qed.

Lemma round_half_even_integer (n : Z) : round_half_even (inject_Z n) = n.
Proof.
  unfold round_half_even. rewrite Qfloor_Z.
  destruct (Qcompare_spec (inject_Z n - inject_Z n) (1 # 2)) as [E|L|G];
    [exfalso; lra|reflexivity|exfalso; lra].
Qed.

Lemma calculate_roi_positive_costs (p c o m : Q) :
  0 < c + o + m ->
  calculate_roi p c o m = round2 ((p - (c + o + m)) / (c + o + m) * 100).
Proof.
  intro H. unfold calculate_roi.
  destruct (Qeq_bool (c + o + m) 0) eqn:E; [|reflexivity].
  apply Qeq_bool_iff in E. lra.
Qed.

Lemma round2_mono (x y : Q) : x <= y -> round2 x <= round2 y.
Proof.
  intro H. unfold round2.
  assert (Hk : (round_half_even (x * 100) <= round_half_even (y * 100))%Z)
    by (apply round_half_even_mono; lra).
  rewrite Zle_Qle in Hk. unfold Qdiv.
  apply Qmult_le_compat_r; [exact Hk|discriminate].
Qed.

Lemma round2_integer (n : Z) : round2 (inject_Z n) == inject_Z n.
Proof.
  unfold round2.
  assert (E : round_half_even (inject_Z n * 100) = (n * 100)%Z).
  { apply Z.le_antisymm.
    - rewrite <- (round_half_even_integer (n * 100)).
      apply round_half_even_mono. rewrite inject_Z_mult. apply Qle_refl.
    - rewrite <- (round_half_even_integer (n * 100)) at 1.
      apply round_half_even_mono. rewrite inject_Z_mult. apply Qle_refl. }
  rewrite E, inject_Z_mult. field.
Qed.

Lemma calculate_roi_near (p c o m : Q) :
  0 < c + o + m ->
  (p - (c + o + m)) / (c + o + m) * 100 - (1 # 200) <= calculate_roi p c o m
  /\ calculate_roi p c o m <= (p - (c + o + m)) / (c + o + m) * 100 + (1 # 200).
Proof.
  intro Hc. rewrite (calculate_roi_positive_costs _ _ _ _ Hc). unfold round2.
  destruct (round_half_even_near ((p - (c + o + m)) / (c + o + m) * 100 * 100))
    as [Hlo Hhi].
  split.
  - apply Qle_shift_div_l; [reflexivity|]. lra.
  - apply Qle_shift_div_r; [reflexivity|]. lra.
Qed.

Lemma exact_roi_mono (costs a b : Q) :
  0 < costs -> a <= b ->
  (a - costs) / costs * 100 <= (b - costs) / costs * 100.
Proof.
  intros Hc Hab. assert (Hinv : 0 < / costs) by now apply Qinv_lt_0_compat.
  unfold Qdiv. apply Qmult_le_compat_r; [|discriminate].
  apply Qmult_le_compat_r; lra.
Qed.

Lemma calculate_roi_mono (p p' c o m : Q) :
  0 < c + o + m -> p <= p' -> calculate_roi p c o m <= calculate_roi p' c o m.
Proof.
  intros Hc Hp. rewrite !(calculate_roi_positive_costs _ _ _ _ Hc).
  apply round2_mono, exact_roi_mono; assumption.
Qed.

Lemma calculate_roi_break_even (p c o m : Q) :
  0 < c + o + m -> p == c + o + m -> calculate_roi p c o m == 0.
Proof.
  intros Hc Hp. rewrite (calculate_roi_positive_costs _ _ _ _ Hc).
  assert (Hzero : (c + o + m - (c + o + m)) / (c + o + m) * 100 == 0) by (field; lra).
  apply Qle_antisym.
  - apply Qle_trans with (round2 (inject_Z 0));
      [|rewrite round2_integer; apply Qle_refl].
    apply round2_mono. change (inject_Z 0) with 0. rewrite <- Hzero.
    apply exact_roi_mono; lra.
  - apply Qle_trans with (round2 (inject_Z 0));
      [rewrite round2_integer; apply Qle_refl|].
    apply round2_mono. change (inject_Z 0) with 0. rewrite <- Hzero.
    apply exact_roi_mono; lra.
Qed.

Lemma calculate_roi_floor (p c o m : Q) :
  0 < c + o + m -> 0 <= p -> -100 <= calculate_roi p c o m.
Proof.
  intros Hc Hp. rewrite (calculate_roi_positive_costs _ _ _ _ Hc).
  assert (Hfloor : (0 - (c + o + m)) / (c + o + m) * 100 == -100) by (field; lra).
  apply Qle_trans with (round2 (inject_Z (-100)));
    [rewrite round2_integer; apply Qle_refl|].
  apply round2_mono. change (inject_Z (-100)) with (-100). rewrite <- Hfloor.
  apply exact_roi_mono; assumption.
Qed.

(** X21: with positive costs (commission plus operational plus marketing
    cost) the ROI is the exact percentage (premium - costs) / costs * 100
    rounded to the cent, so it is within 0.005 of it; it grows with the
    premium; it is not negative when the premium covers the costs, is 0
    when the premium equals the costs, and is never below -100 for a
    premium that is not negative.  With costs of zero the result is 0. *)
Theorem calculate_roi_properties (p c o m : Q) :
  (c + o + m == 0 -> calculate_roi p c o m = 0)
  /\ (0 < c + o + m ->
      let exact := (p - (c + o + m)) / (c + o + m) * 100 in
      exact - (1 # 200) <= calculate_roi p c o m
      /\ calculate_roi p c o m <= exact + (1 # 200)
      /\ (forall p', p <= p' -> calculate_roi p c o m <= calculate_roi p' c o m)
      /\ (c + o + m <= p -> 0 <= calculate_roi p c o m)
      /\ (p == c + o + m -> calculate_roi p c o m == 0)
      /\ (0 <= p -> -100 <= calculate_roi p c o m)).
Proof.
  split.
  { intro E. unfold calculate_roi. apply Qeq_bool_iff in E. now rewrite E. }
  intro Hc. cbv zeta.
  split; [apply calculate_roi_near, Hc|]. split; [apply calculate_roi_near, Hc|].
  split; [intros p' Hp; now apply calculate_roi_mono|].
  split; [|split; [now apply calculate_roi_break_even|now apply calculate_roi_floor]].
  intro Hp.
  rewrite <- (calculate_roi_break_even (c + o + m) c o m Hc (Qeq_refl _)).
  now apply calculate_roi_mono.
Qed.

Lemma calculate_roi_properties_witness :
  calculate_roi 500 100 15 25 == 257.14
  /\ (500 - 140) / 140 * 100 - (1 # 200) <= calculate_roi 500 100 15 25
  /\ calculate_roi 140 100 15 25 == 0
  /\ calculate_roi 500 (-40) 15 25 = 0.
Proof.
  destruct (calculate_roi_properties 500 100 15 25) as [_ H].
  destruct (calculate_roi_properties 140 100 15 25) as [_ H'].
  destruct (calculate_roi_properties 500 (-40) 15 25) as [H0 _].
  destruct H as (Hlo & _); [reflexivity|].
  destruct H' as (_ & _ & _ & _ & Hz & _); [reflexivity|].
  split; [reflexivity|]. split; [exact Hlo|]. split; [apply Hz; reflexivity|].
  apply H0. reflexivity.
Defined.

(** * Properties of the validation of quotes *)

Lemma Qle_bool_false (a b : Q) : Qle_bool a b = false <-> b < a.
Proof.
  split; intro H.
  - destruct (Qlt_le_dec b a) as [L|L]; [exact L|].
    apply Qle_bool_iff in L. congruence.
  - destruct (Qle_bool a b) eqn:E; [|reflexivity].
    apply Qle_bool_iff in E. lra.
Qed.

Lemma first_empty_field_none (d : Quote) :
  first_empty_field d = None <->
  quote_reference d <> "" /\ timestamp d <> "" /\ product_type d <> ""
  /\ risk_postcode d <> "" /\ conversion_status d <> "" /\ payment_type d <> "".
Proof.
  unfold first_empty_field.
  destruct (String.eqb_spec (quote_reference d) ""),
           (String.eqb_spec (timestamp d) ""),
           (String.eqb_spec (product_type d) ""),
           (String.eqb_spec (risk_postcode d) ""),
           (String.eqb_spec (conversion_status d) ""),
           (String.eqb_spec (payment_type d) "");
    split; try discriminate; try tauto; intros; repeat split; assumption.
Qed.

Lemma product_rules_none (d : Quote) :
  product_rules d = None <->
  (product_type d = "HOME" ->
     building_value d <= 2000000 /\ contents_value d <= 150000
     /\ (18 <= customer_age d <= 75)%Z)
  /\ (product_type d = "COMMERCIAL" ->
        100000 <= building_value d /\ building_value d <= 5000000)
  /\ (product_type d = "BEAUTY" ->
        payment_type d = "ANNUAL" /\ 150 <= quote_premium d).
Proof.
  unfold product_rules.
  destruct (String.eqb_spec (product_type d) "HOME") as [Eh|Nh].
  { rewrite Eh.
    destruct (Qle_bool (building_value d) 2000000) eqn:E1; cbn [negb].
    2:{ apply Qle_bool_false in E1. split; [discriminate|].
        intros [H _]. destruct (H eq_refl) as [H1 _]. lra. }
    destruct (Qle_bool (contents_value d) 150000) eqn:E2; cbn [negb].
    2:{ apply Qle_bool_false in E2. split; [discriminate|].
        intros [H _]. destruct (H eq_refl) as [_ [H2 _]]. lra. }
    apply Qle_bool_iff in E1, E2.
    destruct (Z.ltb_spec (customer_age d) 18) as [Hyoung|Hyoung]; cbn [orb].
    { split; [discriminate|]. intros [H _]. destruct (H eq_refl) as [_ [_ H3]]. lia. }
    destruct (Z.ltb_spec 75 (customer_age d)) as [Hold|Hold].
    { split; [discriminate|]. intros [H _]. destruct (H eq_refl) as [_ [_ H3]]. lia. }
    split; [intros _|reflexivity].
    repeat split; try assumption; try lia; discriminate. }
  destruct (String.eqb_spec (product_type d) "COMMERCIAL") as [Ec|Nc].
  { rewrite Ec.
    destruct (Qle_bool 100000 (building_value d)) eqn:E1; cbn [negb].
    2:{ apply Qle_bool_false in E1. split; [discriminate|].
        intros [_ [H _]]. destruct (H eq_refl) as [H1 _]. lra. }
    destruct (Qle_bool (building_value d) 5000000) eqn:E2; cbn [negb].
    2:{ apply Qle_bool_false in E2. split; [discriminate|].
        intros [_ [H _]]. destruct (H eq_refl) as [_ H2]. lra. }
    apply Qle_bool_iff in E1, E2.
    split; [intros _|reflexivity].
    repeat split; try assumption; discriminate. }
  destruct (String.eqb_spec (product_type d) "BEAUTY") as [Eb|Nb].
  { rewrite Eb.
    destruct (String.eqb_spec (payment_type d) "ANNUAL") as [Ea|Na]; cbn [negb].
    2:{ split; [discriminate|]. intros [_ [_ H]]. destruct (H eq_refl) as [H1 _]. congruence. }
    destruct (Qle_bool 150 (quote_premium d)) eqn:E2; cbn [negb].
    2:{ apply Qle_bool_false in E2. split; [discriminate|].
        intros [_ [_ H]]. destruct (H eq_refl) as [_ H2]. lra. }
    apply Qle_bool_iff in E2.
    split; [intros _|reflexivity].
    repeat split; try assumption; discriminate. }
  split; [intros _|reflexivity]. repeat split; congruence.
Qed.

(** X22: [validate] accepts the data exactly when no field is the empty
    string (the quote reference, the time stamp, the product type, the
    postcode, the conversion status and the payment type are the fields that
    can be), the four amounts are positive, and the rules of the product type hold:
    for HOME a building value of at most 2,000,000, a contents value of at
    most 150,000 and an age from 18 to 75; for COMMERCIAL a building value
    from 100,000 to 5,000,000; for BEAUTY annual payment and a premium of
    at least 150.  Any other product type has no rule of its own. *)
Theorem validate_accepts (quote_count : Z) (d : Quote) :
  (exists d', validate quote_count d = inr d') <->
  (quote_reference d <> "" /\ timestamp d <> "" /\ product_type d <> ""
   /\ risk_postcode d <> "" /\ conversion_status d <> "" /\ payment_type d <> "")
  /\ (0 < building_value d /\ 0 < contents_value d
      /\ 0 < quote_premium d /\ 0 < broker_commission d)
  /\ (product_type d = "HOME" ->
        building_value d <= 2000000 /\ contents_value d <= 150000
        /\ (18 <= customer_age d <= 75)%Z)
  /\ (product_type d = "COMMERCIAL" ->
        100000 <= building_value d /\ building_value d <= 5000000)
  /\ (product_type d = "BEAUTY" ->
        payment_type d = "ANNUAL" /\ 150 <= quote_premium d).
Proof.
  unfold validate. rewrite <- first_empty_field_none, <- product_rules_none.
  destruct (first_empty_field d) as [field|].
  { split; [intros [d' E]; discriminate|intros [E _]; discriminate]. }
  destruct (Qle_bool (building_value d) 0) eqn:E1.
  { apply Qle_bool_iff in E1. split; [intros [d' E]; discriminate|].
    intros (_ & (H & _) & _). lra. }
  destruct (Qle_bool (contents_value d) 0) eqn:E2.
  { apply Qle_bool_iff in E2. split; [intros [d' E]; discriminate|].
    intros (_ & (_ & H & _) & _). lra. }
  destruct (Qle_bool (quote_premium d) 0) eqn:E3.
  { apply Qle_bool_iff in E3. split; [intros [d' E]; discriminate|].
    intros (_ & (_ & _ & H & _) & _). lra. }
  destruct (Qle_bool (broker_commission d) 0) eqn:E4.
  { apply Qle_bool_iff in E4. split; [intros [d' E]; discriminate|].
    intros (_ & (_ & _ & _ & H) & _). lra. }
  apply Qle_bool_false in E1, E2, E3, E4.
  destruct (product_rules d) as [e|].
  { split; [intros [d' E]; discriminate|intros (_ & _ & E); discriminate]. }
  split; [intros _|].
  - repeat split; assumption.
  - intros _. destruct (quote_count >=? suspicion_threshold)%Z; eexists; reflexivity.
Qed.

(** X23: [validate] hands the data back as they came, but for the
    [suspicious] flag, which it sets when the count of recent quotes for
    the postcode is 3 or more; it never clears a flag that is set. *)
Theorem validate_flags_suspicious (quote_count : Z) (d d' : Quote) :
  validate quote_count d = inr d' ->
  (quote_reference d' = quote_reference d /\ timestamp d' = timestamp d
   /\ product_type d' = product_type d /\ customer_age d' = customer_age d
   /\ risk_postcode d' = risk_postcode d /\ building_value d' = building_value d
   /\ contents_value d' = contents_value d /\ quote_premium d' = quote_premium d
   /\ conversion_status d' = conversion_status d /\ payment_type d' = payment_type d
   /\ broker_commission d' = broker_commission d)
  /\ ((3 <= quote_count)%Z -> suspicious d' = Some true)
  /\ ((quote_count < 3)%Z -> suspicious d' = suspicious d)
  /\ (suspicious d = Some true -> suspicious d' = Some true).
Proof.
  unfold validate.
  destruct (first_empty_field d); [discriminate|].
  destruct (Qle_bool (building_value d) 0); [discriminate|].
  destruct (Qle_bool (contents_value d) 0); [discriminate|].
  destruct (Qle_bool (quote_premium d) 0); [discriminate|].
  destruct (Qle_bool (broker_commission d) 0); [discriminate|].
  destruct (product_rules d); [discriminate|].
  unfold suspicion_threshold.
  destruct (Z.geb_spec quote_count 3); intro E; injection E as <-;
    cbn; repeat split; try reflexivity; try lia; auto.
Qed.

Lemma validate_accepts_witness :
  exists d', validate 0 home_quote = inr d'.
Proof.
  apply (validate_accepts 0 home_quote).
  repeat split; try discriminate; try reflexivity; cbn; lia.
Defined.

Lemma validate_flags_suspicious_witness :
  suspicious (flag_suspicious home_quote) = Some true
  /\ risk_postcode (flag_suspicious home_quote) = risk_postcode home_quote.
Proof.
  destruct (validate_flags_suspicious 3 home_quote (flag_suspicious home_quote))
    as ((_ & _ & _ & _ & Hp & _) & Hflag & _); [reflexivity|].
  split; [apply Hflag; lia|exact Hp].
Defined.

Lemma validate_positive_amounts (quote_count : Z) (d d' : Quote) :
  validate quote_count d = inr d' ->
  0 < quote_premium d /\ 0 < broker_commission d.
Proof.
  unfold validate.
  destruct (first_empty_field d); [discriminate|].
  destruct (Qle_bool (building_value d) 0); [discriminate|].
  destruct (Qle_bool (contents_value d) 0); [discriminate|].
  destruct (Qle_bool (quote_premium d) 0) eqn:E3; [discriminate|].
  destruct (Qle_bool (broker_commission d) 0) eqn:E4; [discriminate|].
  intros _. apply Qle_bool_false in E3, E4. now split.
Qed.

Lemma validate_same_amounts (quote_count : Z) (d d' : Quote) :
  validate quote_count d = inr d' ->
  quote_premium d' = quote_premium d /\ broker_commission d' = broker_commission d.
Proof.
  unfold validate.
  destruct (first_empty_field d); [discriminate|].
  destruct (Qle_bool (building_value d) 0); [discriminate|].
  destruct (Qle_bool (contents_value d) 0); [discriminate|].
  destruct (Qle_bool (quote_premium d) 0); [discriminate|].
  destruct (Qle_bool (broker_commission d) 0); [discriminate|].
  destruct (product_rules d); [discriminate|].
  destruct (quote_count >=? suspicion_threshold)%Z; intro E; injection E as <-;
    split; reflexivity.
Qed.

(** X24: for a quote that [validate] accepted, [get_roi] divides by costs
    above 40 (the commission is positive and the two default costs add 40),
    so the zero of the guard never stands for a missing result: the ROI is
    within 0.005 of (premium - costs) / costs * 100, is above -100.005, and
    is not negative when the premium covers the costs. *)
Theorem accepted_quote_roi (quote_count : Z) (d d' : Quote) :
  validate quote_count d = inr d' ->
  let costs := broker_commission d' + 15 + 25 in
  let exact := (quote_premium d' - costs) / costs * 100 in
  40 < costs
  /\ exact - (1 # 200) <= get_roi d' /\ get_roi d' <= exact + (1 # 200)
  /\ -100 <= get_roi d'
  /\ (costs <= quote_premium d' -> 0 <= get_roi d').
Proof.
  intro E. cbv zeta.
  destruct (validate_positive_amounts _ _ _ E) as [Hprem Hcomm].
  destruct (validate_same_amounts _ _ _ E) as [Ep Ec].
  rewrite <- Ep in Hprem. rewrite <- Ec in Hcomm.
  assert (Hc : 0 < broker_commission d' + 15 + 25) by lra.
  unfold get_roi. split; [lra|].
  split; [apply calculate_roi_near, Hc|]. split; [apply calculate_roi_near, Hc|].
  split; [apply calculate_roi_floor; [exact Hc|lra]|].
  intro Hp.
  rewrite <- (calculate_roi_break_even (broker_commission d' + 15 + 25)
                (broker_commission d') 15 25 Hc (Qeq_refl _)).
  now apply calculate_roi_mono.
Qed.

Lemma accepted_quote_roi_witness :
  -100 <= get_roi home_quote.
Proof.
  destruct (accepted_quote_roi 0 home_quote home_quote) as (_ & _ & _ & H & _);
    [reflexivity|exact H].
Defined.

(** * Properties of the quote view *)

Lemma objects_get_missing (stored : list Quote) (reference : string) :
  (forall q, In q stored -> quote_reference q <> reference) ->
  objects_get stored reference = DoesNotExist.
Proof.
  intro H. unfold objects_get.
  assert (E : filter (fun q => String.eqb (quote_reference q) reference) stored = []).
  { induction stored as [|q qs IH]; [reflexivity|]. cbn [filter].
    destruct (String.eqb_spec (quote_reference q) reference) as [Eq|_].
    - exfalso. apply (H q); [now left|exact Eq].
    - apply IH. intros q' Hq'. apply H. now right. }
  now rewrite E.
Qed.

Lemma objects_get_found (stored : list Quote) (reference : string) (quote : Quote) :
  objects_get stored reference = Found quote ->
  In quote stored /\ quote_reference quote = reference.
Proof.
  unfold objects_get.
  destruct (filter _ stored) as [|q [|q' l]] eqn:E; try discriminate.
  intro H; injection H as <-.
  assert (Hin : In q (filter (fun q => String.eqb (quote_reference q) reference) stored))
    by (rewrite E; now left).
  apply filter_In in Hin. destruct Hin as [Hin Heq].
  split; [exact Hin|now apply String.eqb_eq].
Qed.

(** X25: the view answers 400 when the request names no quote reference,
    or an empty one, and 404 when no stored quote has the reference; in
    both cases it has made no network call and left the cache alone. *)
Theorem getQuote_refuses (net : upstream) (VERSION : Z) (stored : list Quote)
    (requested_quote : option string) (w : world) :
  (requested_quote = None \/ requested_quote = Some "" ->
   getQuote net VERSION stored requested_quote w
   = ({| status_code := 400; data := ErrorBody "Quote must be provided" |}, w))
  /\ (forall reference,
        requested_quote = Some reference -> reference <> "" ->
        (forall q, In q stored -> quote_reference q <> reference) ->
        getQuote net VERSION stored requested_quote w
        = ({| status_code := 404; data := ErrorBody "Quote not found" |}, w)).
Proof.
  split.
  - intros [->| ->]; reflexivity.
  - intros reference -> Hne Hmissing. unfold getQuote.
    destruct reference as [|c r]; [congruence|].
    now rewrite (objects_get_missing _ _ Hmissing).
Qed.

Lemma getQuote_refuses_witness :
  getQuote sample_upstream 1 [home_quote] (Some "INS-2024-99999") empty_world
  = ({| status_code := 404; data := ErrorBody "Quote not found" |}, empty_world).
Proof.
  apply (getQuote_refuses sample_upstream 1 [home_quote] (Some "INS-2024-99999")
           empty_world) with (reference := "INS-2024-99999").
  - reflexivity.
  - discriminate.
  - intros q [<-|[]]. discriminate.
Defined.

(** X26: a 200 answer of the view carries a stored quote with the
    requested reference, the two scores of its assessment, each between 0
    and 100, and a category and a validity that fit them: HIGH_VALUE_RISK
    and 7 days when the scores add up to more than 100, STANDARD_VALUE_RISK
    and 14 days when to less. *)
Theorem getQuote_ok (net : upstream) (VERSION : Z) (stored : list Quote)
    (requested_quote : option string) (w w' : world) (resp : view_response) :
  getQuote net VERSION stored requested_quote w = (resp, w') ->
  status_code resp = 200%Z ->
  exists reference quote lr category days,
    requested_quote = Some reference
    /\ In quote stored /\ quote_reference quote = reference
    /\ data resp = QuoteBody quote lr category (Some days) (get_roi quote)
    /\ calculate_location_risks net VERSION (risk_postcode quote)
         (product_type quote) (timestamp quote) w = (Ok lr, w')
    /\ 0 <= flood_risk lr /\ flood_risk lr <= 100
    /\ 0 <= crime_risk lr /\ crime_risk lr <= 100
    /\ ((category = "HIGH_VALUE_RISK" /\ days = 7%Z
         /\ 100 < flood_risk lr + crime_risk lr)
        \/ (category = "STANDARD_VALUE_RISK" /\ days = 14%Z
            /\ flood_risk lr + crime_risk lr < 100)).
Proof.
  unfold getQuote.
  destruct requested_quote as [[|c r]|];
    try (intro E; injection E as <- _; cbn; discriminate).
  destruct (objects_get stored (String c r)) as [|quote|] eqn:Eget;
    try (intro E; injection E as <- _; cbn; discriminate).
  apply objects_get_found in Eget. destruct Eget as [Hin Href].
  destruct (calculate_location_risks net VERSION (risk_postcode quote)
              (product_type quote) (timestamp quote) w) as [[lr|e] w1] eqn:Ecalc;
    try (intro E; injection E as <- _; cbn; discriminate).
  destruct (risk_type (flood_risk lr) (crime_risk lr)) as [category|e] eqn:Ert;
    try (intro E; injection E as <- _; cbn; discriminate).
  intro E; injection E as <- <-. intros _.
  pose proof (orchestrator_steps _ _ _ _ _ _ _ _ Ecalc)
    as (la & lo & w1' & w2 & w3 & fd & cd & _ & _ & _ & Hf & Hc & _).
  apply flood_risk_in_range in Hf. apply crime_risk_in_range in Hc.
  destruct Hf as [Hf1 Hf2], Hc as [Hc1 Hc2].
  destruct (Q_dec (flood_risk lr + crime_risk lr) 100) as [[L|L]|L].
  - pose proof L as L'. apply risk_type_standard in L'. rewrite L' in Ert.
    injection Ert as <-.
    exists (String c r), quote, lr, "STANDARD_VALUE_RISK", 14%Z. cbn.
    repeat split; try assumption; try reflexivity. right. repeat split; assumption.
  - pose proof L as L'. apply risk_type_high in L'. rewrite L' in Ert.
    injection Ert as <-.
    exists (String c r), quote, lr, "HIGH_VALUE_RISK", 7%Z. cbn.
    repeat split; try assumption; try reflexivity. left. repeat split; assumption.
  - apply risk_type_tie in L. congruence.
Qed.

Lemma getQuote_ok_witness :
  exists resp w' quote lr category days,
    getQuote sample_upstream 1 [home_quote] (Some "INS-2024-00001") empty_world
    = (resp, w')
    /\ data resp = QuoteBody quote lr category (Some days) (get_roi quote)
    /\ category = "STANDARD_VALUE_RISK" /\ days = 14%Z.
Proof.
  destruct (getQuote sample_upstream 1 [home_quote] (Some "INS-2024-00001") empty_world)
    as [resp w'] eqn:E.
  destruct (getQuote_ok sample_upstream 1 [home_quote] (Some "INS-2024-00001")
              empty_world w' resp E)
    as (reference & quote & lr & category & days & _ & _ & _ & Hd & Hc & _ & _ & _ & _ & Hcat).
  - revert E. vm_compute. intro E; injection E as <- _. reflexivity.
  - exists resp, w', quote, lr, category, days.
    split; [reflexivity|]. split; [exact Hd|].
    destruct Hcat as [(_ & _ & Hhigh)|(Hc1 & Hc2 & _)]; [|split; assumption].
    exfalso. revert E Hd Hhigh. vm_compute. intros E; injection E as <- _.
    intro Hd; injection Hd as <- <- <- <-. vm_compute. discriminate.
Defined.

(** X27: a stored quote whose two scores add up to exactly 100 cannot be
    fetched: the assessment succeeds, [risk_type] raises on the tie, and
    the view answers 500. *)
Theorem getQuote_tie_is_500 (net : upstream) (VERSION : Z) (stored : list Quote)
    (reference : string) (quote : Quote) (lr : location_risks) (w w' : world) :
  reference <> "" ->
  objects_get stored reference = Found quote ->
  calculate_location_risks net VERSION (risk_postcode quote) (product_type quote)
    (timestamp quote) w = (Ok lr, w') ->
  flood_risk lr + crime_risk lr == 100 ->
  getQuote net VERSION stored (Some reference) w
  = ({| status_code := 500; data := ErrorBody "Unexpected error occured" |}, w').
Proof.
  intros Hne Hget Hcalc Htie. unfold getQuote.
  destruct reference as [|c r]; [congruence|].
  rewrite Hget, Hcalc, (risk_type_tie _ _ Htie). reflexivity.
Qed.

Lemma getQuote_tie_is_500_witness :
  exists w',
    getQuote tie_upstream 1 [home_quote] (Some "INS-2024-00001") empty_world
    = ({| status_code := 500; data := ErrorBody "Unexpected error occured" |}, w').
Proof.
  destruct (calculate_location_risks tie_upstream 1 (risk_postcode home_quote)
              (product_type home_quote) (timestamp home_quote) empty_world)
    as [[lr|e] w'] eqn:E; [|revert E; vm_compute; discriminate].
  exists w'.
  apply (getQuote_tie_is_500 tie_upstream 1 [home_quote] "INS-2024-00001" home_quote lr
           empty_world w').
  - discriminate.
  - reflexivity.
  - exact E.
  - revert E. vm_compute. intro E; injection E as <- _. reflexivity.
Defined.

(** X28: under the retry wrapper the view is called once and never waits,
    whatever the upstream services do: the view turns every failure of the
    assessment into a 500 answer, which the wrapper takes for a success
    and logs. *)
Theorem wrapped_getQuote_never_retries (net : upstream) (VERSION : Z)
    (stored : list Quote) (requested_quote : option string)
    (log_call : view_response -> world -> world)
    (max_retries backoff_factor : Z) (w : world) :
  (0 < max_retries)%Z ->
  exists resp w',
    getQuote net VERSION stored requested_quote w = (resp, w')
    /\ wrapper (getQuote_call net VERSION stored requested_quote) log_call
         max_retries backoff_factor w
       = Some {| run_outcome := Returned (Some resp);
                 run_state := log_call resp w';
                 run_attempts := [inr resp]; run_sleeps := [] |}
    /\ (forall reference quote e w1,
          requested_quote = Some reference -> reference <> "" ->
          objects_get stored reference = Found quote ->
          calculate_location_risks net VERSION (risk_postcode quote)
            (product_type quote) (timestamp quote) w = (Raise e, w1) ->
          status_code resp = 500%Z).
Proof.
  intro Hm.
  destruct (getQuote net VERSION stored requested_quote w) as [resp w'] eqn:E.
  exists resp, w'. split; [reflexivity|]. split.
  - unfold wrapper. cbn [retry_loop]. destruct (Z.ltb_spec 0 max_retries); [|lia].
    unfold getQuote_call. rewrite E. reflexivity.
  - intros reference quote e w1 -> Hne Hget Hcalc. revert E. unfold getQuote.
    destruct reference as [|c r]; [congruence|].
    rewrite Hget, Hcalc. intro E; injection E as <- _. reflexivity.
Qed.

Lemma wrapped_getQuote_never_retries_witness :
  exists r,
    wrapper (getQuote_call unavailable_upstream 1 [home_quote] (Some "INS-2024-00001"))
      (fun _ w => w) 3 2 empty_world = Some r
    /\ List.length (run_attempts r) = 1%nat /\ run_sleeps r = [].
Proof.
  destruct (wrapped_getQuote_never_retries unavailable_upstream 1 [home_quote]
              (Some "INS-2024-00001") (fun _ w => w) 3 2 empty_world)
    as (resp & w' & _ & Hrun & _); [lia|].
  eexists. split; [exact Hrun|]. split; reflexivity.
Defined.

(** * The orchestrator stops at the first failure *)

(** X29: the assessment stops at the first step that fails: when the
    resolver raises, no flood or crime data are asked for; when the flood
    client raises, no crime data are asked for; the error that leaves is
    ValueError with the text of the error of the failed step, and the world
    is as that step left it. *)
Theorem assessment_aborts_at_first_failure (net : upstream) (VERSION : Z)
    (pc pt ts : string) (w : world) :
  pc <> "" -> pt <> "" -> ts <> "" ->
  (forall e w1,
     get_long_lat net VERSION pc w = (Raise e, w1) ->
     calculate_location_risks net VERSION pc pt ts w
     = (Raise (Exn ValueError (MsgLocationRisks (exn_msg e))), w1))
  /\ (forall la lo w1 e w2,
        get_long_lat net VERSION pc w = (Ok (LatLong la lo), w1) ->
        get_flood_data_for_location net VERSION la lo 50 w1 = (Raise e, w2) ->
        calculate_location_risks net VERSION pc pt ts w
        = (Raise (Exn ValueError (MsgLocationRisks (exn_msg e))), w2))
  /\ (forall la lo w1 fd w2 (f : Q) e w3,
        get_long_lat net VERSION pc w = (Ok (LatLong la lo), w1) ->
        get_flood_data_for_location net VERSION la lo 50 w1 = (Ok fd, w2) ->
        calculate_flood_risk fd pt = Ok f ->
        get_crimes_for_location net VERSION ts la lo w2 = (Raise e, w3) ->
        calculate_location_risks net VERSION pc pt ts w
        = (Raise (Exn ValueError (MsgLocationRisks (exn_msg e))), w3)).
Proof.
  intros Hpc Hpt Hts.
  assert (Hguard : negb (str_truthy pc) || negb (str_truthy pt) || negb (str_truthy ts)
                   = false).
  { destruct pc; [congruence|]. destruct pt; [congruence|]. destruct ts; [congruence|].
    reflexivity. }
  unfold calculate_location_risks. rewrite Hguard.
  unfold try_except, bind, lift, ret, raise.
  split; [|split].
  - intros e w1 H1. rewrite H1. reflexivity.
  - intros la lo w1 e w2 H1 H2. rewrite H1. cbv beta iota. rewrite H2. reflexivity.
  - intros la lo w1 fd w2 f e w3 H1 H2 H3 H4.
    rewrite H1. cbv beta iota. rewrite H2. cbv beta iota.
    rewrite H3. cbv beta iota. rewrite H4. reflexivity.
Qed.

Lemma assessment_aborts_at_first_failure_witness :
  calculate_location_risks unavailable_upstream 1 "SW1A 1AA" "HOME" "2024-01-25"
    empty_world
  = (Raise (Exn ValueError (MsgLocationRisks (MsgNoLocation "SW1A 1AA" 503))),
     sent (GetPostcode "SW1A 1AA") empty_world).
Proof.
  apply (assessment_aborts_at_first_failure unavailable_upstream 1 "SW1A 1AA" "HOME"
           "2024-01-25" empty_world)
    with (e := Exn ValueError (MsgNoLocation "SW1A 1AA" 503));
    try discriminate.
  reflexivity.
Defined.

(** * The cache keeps entries apart *)

Lemma cache_get_filter_other {K V} (eqb : K -> K -> bool) (c : store K V)
    (time : Q) (ver ver' : Z) (k k' : K) :
  (forall a b, eqb a b = eqb b a) ->
  (forall a b x, eqb a b = true -> eqb b x = true -> eqb a x = true) ->
  eqb k k' = false ->
  cache_get eqb (filter (fun e => negb (same_slot eqb ver k e)) c) time ver' k'
  = cache_get eqb c time ver' k'.
Proof.
  intros Hsym Htrans Hk. induction c as [|e c IH]; [reflexivity|].
  cbn [filter cache_get].
  destruct (same_slot eqb ver k e) eqn:Es; cbn [negb].
  - assert (Eo : same_slot eqb ver' k' e = false).
    { unfold same_slot in *. apply andb_true_iff in Es. destruct Es as [_ Ek].
      destruct (eqb (ce_key e) k') eqn:Ek'; [|apply andb_false_r].
      exfalso. rewrite Hsym in Ek. rewrite (Htrans _ _ _ Ek Ek') in Hk. discriminate. }
    now rewrite Eo.
  - cbn [cache_get]. now rewrite IH.
Qed.

Lemma cache_get_set_other {K V} (eqb : K -> K -> bool) (c : store K V)
    (t time : Q) (k k' : K) (v : V) (timeout : Q) (ver ver' : Z) :
  (forall a b, eqb a b = eqb b a) ->
  (forall a b x, eqb a b = true -> eqb b x = true -> eqb a x = true) ->
  eqb k k' = false ->
  cache_get eqb (cache_set eqb c t k v timeout ver) time ver' k'
  = cache_get eqb c time ver' k'.
Proof.
  intros Hsym Htrans Hk. unfold cache_set. cbn [cache_get].
  unfold same_slot at 1; cbn [ce_version ce_key]. rewrite Hk, andb_false_r.
  now apply cache_get_filter_other.
Qed.

Lemma Qeq_bool_sym (a b : Q) : Qeq_bool a b = Qeq_bool b a.
Proof.
  destruct (Qeq_bool a b) eqn:E1, (Qeq_bool b a) eqn:E2; try reflexivity.
  - apply Qeq_bool_iff in E1. symmetry in E1. apply Qeq_bool_iff in E1. congruence.
  - apply Qeq_bool_iff in E2. symmetry in E2. apply Qeq_bool_iff in E2. congruence.
Qed.

Lemma crimes_key_eqb_sym (a b : crimes_key) : crimes_key_eqb a b = crimes_key_eqb b a.
Proof.
  destruct a as [[d1 x1] y1], b as [[d2 x2] y2]. unfold crimes_key_eqb, ym_eqb.
  now rewrite (Z.eqb_sym (ym_year d1)), (Z.eqb_sym (ym_month d1)),
    (Qeq_bool_sym x1), (Qeq_bool_sym y1).
Qed.

Lemma crimes_key_eqb_trans (a b c : crimes_key) :
  crimes_key_eqb a b = true -> crimes_key_eqb b c = true -> crimes_key_eqb a c = true.
Proof.
  destruct a as [[d1 x1] y1], b as [[d2 x2] y2], c as [[d3 x3] y3].
  unfold crimes_key_eqb, ym_eqb. rewrite !andb_true_iff.
  intros [[[Hy Hm] Hx] Hz] [[[Hy' Hm'] Hx'] Hz'].
  apply Z.eqb_eq in Hy, Hm, Hy', Hm'.
  repeat split.
  - apply Z.eqb_eq. congruence.
  - apply Z.eqb_eq. congruence.
  - exact (Qeq_bool_trans _ _ _ Hx Hx').
  - exact (Qeq_bool_trans _ _ _ Hz Hz').
Qed.

(** X30: a fetch of crime records writes the entry of its own month and
    place and nothing else: what the cache holds for another month or for
    other coordinates is served as before, at any time, and the entries of
    postcodes and floods are untouched. *)
Theorem crimes_fetch_touches_one_entry (net : upstream) (VERSION : Z) (ts : string)
    (d d' : YearMonth) (lat long lat' long' : Q) (w : world)
    (fetched : list CrimeRecord) :
  normalize_timestamp ts = Some d ->
  crimes_hit VERSION d lat long w = false ->
  police_uk net (List.length (requests w)) d lat long = Response 200 fetched ->
  d <> d' \/ ~ long == long' \/ ~ lat == lat' ->
  exists w1,
    get_crimes_for_location net VERSION ts lat long w = (Ok fetched, w1)
    /\ (forall time version,
          cache_get crimes_key_eqb (cache_crimes w1) time version (d', long', lat')
          = cache_get crimes_key_eqb (cache_crimes w) time version (d', long', lat'))
    /\ cache_postcodes w1 = cache_postcodes w
    /\ cache_floods w1 = cache_floods w.
Proof.
  intros Hts Hmiss Hnet Hother.
  eexists. split; [apply (get_crimes_fetch _ _ _ _ _ _ _ _ Hts Hmiss Hnet)|].
  split; [|split; reflexivity].
  intros time version. cbn [with_crimes sent cache_crimes now].
  apply cache_get_set_other;
    [apply crimes_key_eqb_sym|apply crimes_key_eqb_trans|].
  unfold crimes_key_eqb, ym_eqb.
  destruct Hother as [Hd|[Hx|Hy]].
  - destruct d as [y m], d' as [y' m']; cbn [ym_year ym_month].
    destruct (Z.eqb_spec y y') as [->|_]; [|reflexivity].
    destruct (Z.eqb_spec m m') as [->|_]; [congruence|reflexivity].
  - destruct (Qeq_bool long long') eqn:E; [|now rewrite andb_false_r].
    apply Qeq_bool_iff in E. contradiction.
  - destruct (Qeq_bool lat lat') eqn:E; [|now rewrite andb_false_r].
    apply Qeq_bool_iff in E. contradiction.
Qed.

Lemma crimes_fetch_touches_one_entry_witness :
  exists w1,
    get_crimes_for_location sample_upstream 1 "2024-01-25"
      palace_latitude palace_longitude empty_world
    = (Ok [ {| category := Some "burglary" |} ], w1)
    /\ crimes_hit 1 {| ym_year := 2024; ym_month := 2 |}
         palace_latitude palace_longitude w1 = false.
Proof.
  destruct (crimes_fetch_touches_one_entry sample_upstream 1 "2024-01-25"
              {| ym_year := 2024; ym_month := 1 |} {| ym_year := 2024; ym_month := 2 |}
              palace_latitude palace_longitude palace_latitude palace_longitude
              empty_world [ {| category := Some "burglary" |} ])
    as (w1 & E1 & Hsame & _); try reflexivity.
  - left. discriminate.
  - exists w1. split; [exact E1|]. unfold crimes_hit. now rewrite Hsame.
Defined.
